(** * VScript debugger: protocol and session engine

    A shallow embedding of the debug adapter's session engine
    (vscriptDebug.ts, watches.ts, parsing.ts, utilities.ts) together with
    the properties of the breakpoint registry, the watch manager, the frame
    decoder, the reference-tree builder and the short-representation
    renderer.

    Conventions of the embedding.
    - The session object is the record [Session]; every engine function
      takes the session and returns the updated one.
    - Bytes written to the socket are appended to [socket]; events handed
      to the front end are appended to [events].  Both are logs, oldest
      first.
    - Insertion-ordered JavaScript [Map]s are association lists.
    - Ids, references and line numbers that the code obtains with
      [Number(...)] from XML attributes are [JsNum]: an integer or NaN.
      The number that a value of numeric type is converted to is held by
      its text, which the conversion of the runtime gives ([numberText]).
      Ids and line numbers handed in by the front end are non-negative
      integers ([N]).
    - A raised exception ends the computation with the session as the code
      left it ([Outcome], [Run]).
    - The status bar, dialogs, timers' clocks, the variable-handle table and
      the file resolver belong to the host editor and are not part of the
      session record.  The part of a step-stop callback that runs after its
      first [await] (call stack, stopped event) is outside the embedding:
      the callback is recorded in [pendingBreaks]. *)

From Stdlib Require Import List String Ascii Bool Arith NArith ZArith Lia.
From Stdlib Require Import HexString DecimalString DecimalN DecimalPos.
Import ListNotations.

Set Warnings "-register-all".

Local Open Scope list_scope.
Local Open Scope string_scope.

(* ------------------------------------------------------------------ *)
(** ** JavaScript primitives used by the engine *)

Module Js.

(** The two-character frame terminator. *)
Definition CR : ascii := Ascii.ascii_of_nat 13.
Definition LF : ascii := Ascii.ascii_of_nat 10.
Definition CRLF : string := String CR (String LF EmptyString).
Definition NL : string := String LF EmptyString.
Definition TAB : string := String (Ascii.ascii_of_nat 9) EmptyString.
Definition DQUOTE : string := String (Ascii.ascii_of_nat 34) EmptyString.

(** [n.toString(16)] for a non-negative integer. *)
Definition toString16 (n : N) : string :=
  match n with
  | N0 => "0"
  | Npos p => HexString.Raw.of_pos p EmptyString
  end.

(** [n.toString()] / [String(n)] for a non-negative integer. *)
Definition toString10 (n : N) : string :=
  NilZero.string_of_uint (N.to_uint n).

(** A JavaScript number read from an attribute: an integer or NaN. *)
Inductive JsNum : Type :=
| JInt (z : Z)
| JNaN.

Definition JsNum_eqb (a b : JsNum) : bool :=
  match a, b with
  | JInt x, JInt y => Z.eqb x y
  | JNaN, JNaN => true
  | _, _ => false
  end.

(** Strict equality [===]: NaN is different from itself. *)
Definition strict_eqb (a b : JsNum) : bool :=
  match a, b with
  | JInt x, JInt y => Z.eqb x y
  | _, _ => false
  end.

(** [Number(s)] on the attribute values the server writes: a string of
    decimal digits (the empty string is 0); anything else is NaN. *)
Definition Number (s : string) : JsNum :=
  match NilEmpty.uint_of_string s with
  | Some d => JInt (Z.of_N (N.of_uint d))
  | None => JNaN
  end.

(** [String(n)]. *)
Definition String_ (n : JsNum) : string :=
  match n with
  | JInt (Zneg p) => "-" ++ toString10 (Npos p)
  | JInt z => toString10 (Z.to_N z)
  | JNaN => "NaN"
  end.

(** [n + 1]. *)
Definition succ (n : JsNum) : JsNum :=
  match n with
  | JInt z => JInt (z + 1)
  | JNaN => JNaN
  end.

(** [Array.prototype.includes] on numbers (SameValueZero: NaN is found). *)
Definition includes (x : JsNum) (l : list JsNum) : bool :=
  existsb (JsNum_eqb x) l.

(** [s.endsWith(t)]. *)
Definition endsWith (s t : string) : bool :=
  let n := String.length s in
  let m := String.length t in
  (m <=? n)%nat && String.eqb (String.substring (n - m) m s) t.

(** [s.slice(0, n)]. *)
Definition slice0 (n : nat) (s : string) : string :=
  String.substring 0 n s.

(** [s.includes(needle, from)]. *)
Definition includesFrom (needle : string) (from : nat) (s : string) : bool :=
  match String.index from needle s with
  | Some _ => true
  | None => false
  end.

(** [s.split("\r\n")]: [cur] is the segment being collected. *)
Fixpoint split_from (cur : string) (s : string) : list string :=
  match s with
  | EmptyString => [cur]
  | String c s' =>
      match s' with
      | String d rest =>
          if Ascii.eqb c CR && Ascii.eqb d LF
          then cur :: split_from EmptyString rest
          else split_from (cur ++ String c EmptyString) s'
      | EmptyString => [cur ++ String c EmptyString]
      end
  end.

Definition splitCRLF (s : string) : list string := split_from EmptyString s.

(** [segments.join("\r\n")]. *)
Fixpoint joinCRLF (l : list string) : string :=
  match l with
  | [] => EmptyString
  | [x] => x
  | x :: rest => x ++ CRLF ++ joinCRLF rest
  end.

(** [s.replace(/\\/g, "/")]. *)
Fixpoint replaceBackslashes (s : string) : string :=
  match s with
  | EmptyString => EmptyString
  | String c s' =>
      String (if Ascii.eqb c "\" then "/"%char else c) (replaceBackslashes s')
  end.

(** [path.basename(p)] on a forward-slash path: scan from the end, skip
    trailing separators, take the characters up to the next separator. *)
Fixpoint basename_scan (rev_path : list ascii) (matchedSlash : bool)
         (acc : list ascii) : list ascii :=
  match rev_path with
  | [] => acc
  | c :: rest =>
      if Ascii.eqb c "/"
      then if matchedSlash then basename_scan rest true acc else acc
      else basename_scan rest false (c :: acc)
  end.

Definition basename (p : string) : string :=
  string_of_list_ascii
    (basename_scan (List.rev (list_ascii_of_string p)) true []).


(** [a[i] = v] on a sparse array: holes are [None]; writing past the end
    extends the array. *)
Fixpoint setIndex {A : Type} (i : nat) (v : A) (a : list (option A))
  : list (option A) :=
  match i, a with
  | O, [] => [Some v]
  | O, _ :: rest => Some v :: rest
  | S i', [] => None :: setIndex i' v []
  | S i', x :: rest => x :: setIndex i' v rest
  end.

Definition getIndex {A : Type} (i : nat) (a : list (option A)) : option A :=
  match nth_error a i with
  | Some (Some v) => Some v
  | _ => None
  end.

(** Insertion-ordered [Map]: [get], [set] (an existing key keeps its
    place) over an association list. *)
Section OrderedMap.
Context {K V : Type} (eqb : K -> K -> bool).

Fixpoint mapGet (k : K) (m : list (K * V)) : option V :=
  match m with
  | [] => None
  | (k', v) :: rest => if eqb k k' then Some v else mapGet k rest
  end.

Fixpoint mapSet (k : K) (v : V) (m : list (K * V)) : list (K * V) :=
  match m with
  | [] => [(k, v)]
  | (k', v') :: rest =>
      if eqb k k' then (k', v) :: rest else (k', v') :: mapSet k v rest
  end.

Fixpoint mapDelete (k : K) (m : list (K * V)) : list (K * V) :=
  match m with
  | [] => []
  | (k', v') :: rest =>
      if eqb k k' then rest else (k', v') :: mapDelete k rest
  end.
End OrderedMap.

(** The terminator occurs somewhere in [s]. *)
Fixpoint containsCRLF (s : string) : bool :=
  match s with
  | EmptyString => false
  | String c s' =>
      match s' with
      | String d _ => (Ascii.eqb c CR && Ascii.eqb d LF) || containsCRLF s'
      | EmptyString => false
      end
  end.

(** The last character of a non-empty string. *)
Fixpoint lastChar (s : string) : option ascii :=
  match s with
  | EmptyString => None
  | String c EmptyString => Some c
  | String _ s' => lastChar s'
  end.

(** Chunks received one after the other, as one string. *)
Fixpoint concatStrings (l : list string) : string :=
  match l with
  | [] => EmptyString
  | x :: rest => x ++ concatStrings rest
  end.

End Js.

Import Js.

(* ------------------------------------------------------------------ *)
(** ** Data model (customInterfaces.ts and the parsed XML frames) *)

Inductive DebuggerState : Type :=
| runnning | stopped | errored | preResume | ready | disconnected.

Definition DebuggerState_eqb (a b : DebuggerState) : bool :=
  match a, b with
  | runnning, runnning | stopped, stopped | errored, errored
  | preResume, preResume | ready, ready | disconnected, disconnected => true
  | _, _ => false
  end.

Inductive VScriptVersion : Type := squirrel2 | squirrel3.

Inductive WatchStatus : Type := WatchStatus_ok | WatchStatus_error.

(** [IBasicType = number | string | boolean].  A number is held by the
    text [String(n)] that JavaScript prints for it, which determines it up
    to the sign of zero; the engine never computes with such a number, it
    only prints it. *)
Inductive IBasicType : Type :=
| BNumber (text : string)
| BBoolean (b : bool)
| BString (s : string).

Record DebuggerWatch : Type := mkWatch {
  w_id : N;
  w_expression : string;
  w_values : list (option IBasicType);
  w_variableReference : JsNum;
  w_type : string;
  w_status : list (option WatchStatus);
  w_displayName : string;
  w_frameId : nat;
  w_isValid : bool
}.

(** [new DebuggerWatch(id, expression)].  The fields [holderReference]
    and [hidden], which no engine function here reads or writes, are left
    out. *)
Definition newDebuggerWatch (id : N) (expression : string) : DebuggerWatch :=
  mkWatch id expression [] (JInt 0) EmptyString [] EmptyString 0 false.

Record DebuggerVariable : Type := mkVariable {
  v_name : string;
  v_value : IBasicType;
  v_type : string;
  v_variableReference : JsNum;
  v_ownerReference : JsNum;
  v_isIndexed : bool;
  v_variablePath : string;
  v_frameId : nat;
  v_hidden : bool
}.

Record ReferenceVariable : Type := mkReferenceVariable {
  reference : JsNum;
  firstName : string;
  variableType : string
}.

(** [TreeNode<ReferenceVariable>].  The [parent] back pointer of the
    TypeScript interface is the position of the node in the tree. *)
Inductive TreeNode : Type :=
| Node (element : ReferenceVariable) (children : list TreeNode) (depth : nat).

Definition node_element (t : TreeNode) : ReferenceVariable :=
  match t with Node el _ _ => el end.
Definition node_children (t : TreeNode) : list TreeNode :=
  match t with Node _ ch _ => ch end.
Definition node_depth (t : TreeNode) : nat :=
  match t with Node _ _ d => d end.

Record FileReferenceData : Type := mkFileReferenceData {
  fullpath : string;
  count : nat
}.

Record IBreakpoint : Type := mkBreakpoint {
  bp_id : N;
  bp_line : N;
  bp_verified : bool
}.

Record Source : Type := mkSource {
  src_name : string;
  src_path : string;
  src_deemphasize : bool
}.

Record StackFrame : Type := mkStackFrame {
  sf_id : nat;
  sf_name : string;
  sf_source : Source;
  sf_line : JsNum
}.

(** *** Parsed frames

    The shapes xml2js hands to the decoder, restricted to the attributes
    the decoder reads.  An attribute is a string; an absent child list is
    the empty list (xml2js never yields an empty array for a child tag). *)

(** [<e kt=.. kv=.. vt=.. v=../>]: one element of an aggregate. *)
Record Element : Type := mkElement {
  el_vt : string;
  el_v : string;
  el_kv : string;
  el_kt : string
}.

(** [<o ref=.. type=.. typeof=..> e* </o>]; an absent [typeof] is the empty
    string. *)
Record Obj : Type := mkObj {
  o_ref : string;
  o_type : string;
  o_typeof : string;
  o_e : list Element
}.

(** [<w id=.. status=.. val=.. type=../>]. *)
Record WatchXml : Type := mkWatchXml {
  wx_id : string;
  wx_status : string;
  wx_val : string;
  wx_type : string
}.

(** [<l name=.. type=.. val=../>]. *)
Record LocalXml : Type := mkLocalXml {
  lx_name : string;
  lx_type : string;
  lx_val : string
}.

(** [<call fnc=.. src=.. line=..> l* w* </call>]. *)
Record CallXml : Type := mkCallXml {
  c_fnc : string;
  c_src : string;
  c_line : string;
  c_w : list WatchXml;
  c_l : list LocalXml
}.

(** The body shared by [<break>] and [<update>]: [objs] and [calls].
    [p_objs] is [None] for a body without an [<objs>] child, where reading
    [dataRoot['objs']['0']] raises; an [<objs>] without [<o>] children
    gives [Some []], the undefined list. *)
Record Payload : Type := mkPayload {
  p_objs : option (list Obj);
  p_calls : list CallXml
}.

(** Attributes of [<break>]; an absent [desc] is the empty string. *)
Record BreakAttrs : Type := mkBreakAttrs {
  b_type : string;
  b_line : string;
  b_src : string;
  b_desc : string;
  b_error : string
}.

(** What [parseString] passes to its callback. *)
Inductive ParsedXml : Type :=
| XmlError (message : string)
| XmlAddBreakpoint (line src : string)
| XmlBreak (attrs : BreakAttrs) (body : Payload)
| XmlUpdate (body : Payload)
| XmlOther (root : string).

(** Events sent to the front end. *)
Inductive Event : Type :=
| OutputEvent (output category : string)
| StoppedEvent (reason : string) (text : option string)
| ContinuedEvent
| InvalidatedEvent (areas : list string)
| BreakpointEvent (reason : string) (bp : IBreakpoint).

Definition isStoppedEvent (e : Event) : bool :=
  match e with StoppedEvent _ _ => true | _ => false end.

(** The key of [_breakpointsRefCount] is an array literal
    [[basename, line]]: an object, compared by identity.  [key_obj] is the
    identity of the array object, [key_base] and [key_line] its contents. *)
Record RefCountKey : Type := mkRefCountKey {
  key_obj : nat;
  key_base : string;
  key_line : N
}.

Definition RefCountKey_same (a b : RefCountKey) : bool :=
  Nat.eqb (key_obj a) (key_obj b).

(** Configuration values read by the engine. *)
Record Settings : Type := mkSettings {
  scriptVersion : VScriptVersion;
  resumeOnExceptions : bool;
  hideNativeFunctions : bool;
  hideClasses : bool;
  maxShortData : nat;
  enableDebugLogging : bool;
  rememberFileReferencesDuringSession : bool;
  displayRootTable : bool
}.

(** The session object [VScriptDebugSession].  [socket] and [events] log
    what was written and sent; [pendingBreaks] holds the step-stop
    callbacks suspended at their first [await]; [nextObjectId] is the
    identity the next array literal gets. *)
Record Session : Type := Build_Session {
  config : Settings;
  debuggerState : DebuggerState;
  socket : list string;
  events : list Event;
  bufferedData : string;
  resumeTimerPending : bool;
  pendingBreaks : list (BreakAttrs * Payload);
  localVariables : list (JsNum * list DebuggerVariable);
  rootVariables : list DebuggerVariable;
  rootTableReference : JsNum;
  usedVariableReferences : list JsNum;
  referenceTree : TreeNode;
  visitedTreeElements : list JsNum;
  currentParsedReferences : list Obj;
  virtualReference : N;
  watches : list DebuggerWatch;
  watchesThisStep : list N;
  entityDataWatches : list (Z * list DebuggerWatch);
  watchID : N;
  entityDataWatchID : N;
  resolvedFileReferences : list (string * FileReferenceData);
  currentFrameID : Z;
  startingFrameID : Z;
  stackFrameID : nat;
  stacktraces : list StackFrame;
  _breakpoints : list (string * list IBreakpoint);
  _breakpointID : N;
  _breakpointsRefCount : list (RefCountKey * Z);
  nextObjectId : nat;
  _notifiedFileBreakpoints : list string
}.

(** Field updates. *)

Definition set_debuggerState (x : _) (s : Session) : Session :=
  Build_Session (config s) x (socket s) (events s) (bufferedData s)
    (resumeTimerPending s) (pendingBreaks s) (localVariables s) (rootVariables
    s) (rootTableReference s) (usedVariableReferences s) (referenceTree s)
    (visitedTreeElements s) (currentParsedReferences s) (virtualReference s)
    (watches s) (watchesThisStep s) (entityDataWatches s) (watchID s)
    (entityDataWatchID s) (resolvedFileReferences s) (currentFrameID s)
    (startingFrameID s) (stackFrameID s) (stacktraces s) (_breakpoints s)
    (_breakpointID s) (_breakpointsRefCount s) (nextObjectId s)
    (_notifiedFileBreakpoints s).

Definition set_socket (x : _) (s : Session) : Session :=
  Build_Session (config s) (debuggerState s) x (events s) (bufferedData s)
    (resumeTimerPending s) (pendingBreaks s) (localVariables s) (rootVariables
    s) (rootTableReference s) (usedVariableReferences s) (referenceTree s)
    (visitedTreeElements s) (currentParsedReferences s) (virtualReference s)
    (watches s) (watchesThisStep s) (entityDataWatches s) (watchID s)
    (entityDataWatchID s) (resolvedFileReferences s) (currentFrameID s)
    (startingFrameID s) (stackFrameID s) (stacktraces s) (_breakpoints s)
    (_breakpointID s) (_breakpointsRefCount s) (nextObjectId s)
    (_notifiedFileBreakpoints s).

Definition set_events (x : _) (s : Session) : Session :=
  Build_Session (config s) (debuggerState s) (socket s) x (bufferedData s)
    (resumeTimerPending s) (pendingBreaks s) (localVariables s) (rootVariables
    s) (rootTableReference s) (usedVariableReferences s) (referenceTree s)
    (visitedTreeElements s) (currentParsedReferences s) (virtualReference s)
    (watches s) (watchesThisStep s) (entityDataWatches s) (watchID s)
    (entityDataWatchID s) (resolvedFileReferences s) (currentFrameID s)
    (startingFrameID s) (stackFrameID s) (stacktraces s) (_breakpoints s)
    (_breakpointID s) (_breakpointsRefCount s) (nextObjectId s)
    (_notifiedFileBreakpoints s).

Definition set_bufferedData (x : _) (s : Session) : Session :=
  Build_Session (config s) (debuggerState s) (socket s) (events s) x
    (resumeTimerPending s) (pendingBreaks s) (localVariables s) (rootVariables
    s) (rootTableReference s) (usedVariableReferences s) (referenceTree s)
    (visitedTreeElements s) (currentParsedReferences s) (virtualReference s)
    (watches s) (watchesThisStep s) (entityDataWatches s) (watchID s)
    (entityDataWatchID s) (resolvedFileReferences s) (currentFrameID s)
    (startingFrameID s) (stackFrameID s) (stacktraces s) (_breakpoints s)
    (_breakpointID s) (_breakpointsRefCount s) (nextObjectId s)
    (_notifiedFileBreakpoints s).

Definition set_resumeTimerPending (x : _) (s : Session) : Session :=
  Build_Session (config s) (debuggerState s) (socket s) (events s)
    (bufferedData s) x (pendingBreaks s) (localVariables s) (rootVariables s)
    (rootTableReference s) (usedVariableReferences s) (referenceTree s)
    (visitedTreeElements s) (currentParsedReferences s) (virtualReference s)
    (watches s) (watchesThisStep s) (entityDataWatches s) (watchID s)
    (entityDataWatchID s) (resolvedFileReferences s) (currentFrameID s)
    (startingFrameID s) (stackFrameID s) (stacktraces s) (_breakpoints s)
    (_breakpointID s) (_breakpointsRefCount s) (nextObjectId s)
    (_notifiedFileBreakpoints s).

Definition set_pendingBreaks (x : _) (s : Session) : Session :=
  Build_Session (config s) (debuggerState s) (socket s) (events s)
    (bufferedData s) (resumeTimerPending s) x (localVariables s)
    (rootVariables s) (rootTableReference s) (usedVariableReferences s)
    (referenceTree s) (visitedTreeElements s) (currentParsedReferences s)
    (virtualReference s) (watches s) (watchesThisStep s) (entityDataWatches s)
    (watchID s) (entityDataWatchID s) (resolvedFileReferences s)
    (currentFrameID s) (startingFrameID s) (stackFrameID s) (stacktraces s)
    (_breakpoints s) (_breakpointID s) (_breakpointsRefCount s) (nextObjectId
    s) (_notifiedFileBreakpoints s).

Definition set_localVariables (x : _) (s : Session) : Session :=
  Build_Session (config s) (debuggerState s) (socket s) (events s)
    (bufferedData s) (resumeTimerPending s) (pendingBreaks s) x (rootVariables
    s) (rootTableReference s) (usedVariableReferences s) (referenceTree s)
    (visitedTreeElements s) (currentParsedReferences s) (virtualReference s)
    (watches s) (watchesThisStep s) (entityDataWatches s) (watchID s)
    (entityDataWatchID s) (resolvedFileReferences s) (currentFrameID s)
    (startingFrameID s) (stackFrameID s) (stacktraces s) (_breakpoints s)
    (_breakpointID s) (_breakpointsRefCount s) (nextObjectId s)
    (_notifiedFileBreakpoints s).

Definition set_rootVariables (x : _) (s : Session) : Session :=
  Build_Session (config s) (debuggerState s) (socket s) (events s)
    (bufferedData s) (resumeTimerPending s) (pendingBreaks s) (localVariables
    s) x (rootTableReference s) (usedVariableReferences s) (referenceTree s)
    (visitedTreeElements s) (currentParsedReferences s) (virtualReference s)
    (watches s) (watchesThisStep s) (entityDataWatches s) (watchID s)
    (entityDataWatchID s) (resolvedFileReferences s) (currentFrameID s)
    (startingFrameID s) (stackFrameID s) (stacktraces s) (_breakpoints s)
    (_breakpointID s) (_breakpointsRefCount s) (nextObjectId s)
    (_notifiedFileBreakpoints s).

Definition set_rootTableReference (x : _) (s : Session) : Session :=
  Build_Session (config s) (debuggerState s) (socket s) (events s)
    (bufferedData s) (resumeTimerPending s) (pendingBreaks s) (localVariables
    s) (rootVariables s) x (usedVariableReferences s) (referenceTree s)
    (visitedTreeElements s) (currentParsedReferences s) (virtualReference s)
    (watches s) (watchesThisStep s) (entityDataWatches s) (watchID s)
    (entityDataWatchID s) (resolvedFileReferences s) (currentFrameID s)
    (startingFrameID s) (stackFrameID s) (stacktraces s) (_breakpoints s)
    (_breakpointID s) (_breakpointsRefCount s) (nextObjectId s)
    (_notifiedFileBreakpoints s).

Definition set_usedVariableReferences (x : _) (s : Session) : Session :=
  Build_Session (config s) (debuggerState s) (socket s) (events s)
    (bufferedData s) (resumeTimerPending s) (pendingBreaks s) (localVariables
    s) (rootVariables s) (rootTableReference s) x (referenceTree s)
    (visitedTreeElements s) (currentParsedReferences s) (virtualReference s)
    (watches s) (watchesThisStep s) (entityDataWatches s) (watchID s)
    (entityDataWatchID s) (resolvedFileReferences s) (currentFrameID s)
    (startingFrameID s) (stackFrameID s) (stacktraces s) (_breakpoints s)
    (_breakpointID s) (_breakpointsRefCount s) (nextObjectId s)
    (_notifiedFileBreakpoints s).

Definition set_referenceTree (x : _) (s : Session) : Session :=
  Build_Session (config s) (debuggerState s) (socket s) (events s)
    (bufferedData s) (resumeTimerPending s) (pendingBreaks s) (localVariables
    s) (rootVariables s) (rootTableReference s) (usedVariableReferences s) x
    (visitedTreeElements s) (currentParsedReferences s) (virtualReference s)
    (watches s) (watchesThisStep s) (entityDataWatches s) (watchID s)
    (entityDataWatchID s) (resolvedFileReferences s) (currentFrameID s)
    (startingFrameID s) (stackFrameID s) (stacktraces s) (_breakpoints s)
    (_breakpointID s) (_breakpointsRefCount s) (nextObjectId s)
    (_notifiedFileBreakpoints s).

Definition set_visitedTreeElements (x : _) (s : Session) : Session :=
  Build_Session (config s) (debuggerState s) (socket s) (events s)
    (bufferedData s) (resumeTimerPending s) (pendingBreaks s) (localVariables
    s) (rootVariables s) (rootTableReference s) (usedVariableReferences s)
    (referenceTree s) x (currentParsedReferences s) (virtualReference s)
    (watches s) (watchesThisStep s) (entityDataWatches s) (watchID s)
    (entityDataWatchID s) (resolvedFileReferences s) (currentFrameID s)
    (startingFrameID s) (stackFrameID s) (stacktraces s) (_breakpoints s)
    (_breakpointID s) (_breakpointsRefCount s) (nextObjectId s)
    (_notifiedFileBreakpoints s).

Definition set_currentParsedReferences (x : _) (s : Session) : Session :=
  Build_Session (config s) (debuggerState s) (socket s) (events s)
    (bufferedData s) (resumeTimerPending s) (pendingBreaks s) (localVariables
    s) (rootVariables s) (rootTableReference s) (usedVariableReferences s)
    (referenceTree s) (visitedTreeElements s) x (virtualReference s) (watches
    s) (watchesThisStep s) (entityDataWatches s) (watchID s)
    (entityDataWatchID s) (resolvedFileReferences s) (currentFrameID s)
    (startingFrameID s) (stackFrameID s) (stacktraces s) (_breakpoints s)
    (_breakpointID s) (_breakpointsRefCount s) (nextObjectId s)
    (_notifiedFileBreakpoints s).

Definition set_virtualReference (x : _) (s : Session) : Session :=
  Build_Session (config s) (debuggerState s) (socket s) (events s)
    (bufferedData s) (resumeTimerPending s) (pendingBreaks s) (localVariables
    s) (rootVariables s) (rootTableReference s) (usedVariableReferences s)
    (referenceTree s) (visitedTreeElements s) (currentParsedReferences s) x
    (watches s) (watchesThisStep s) (entityDataWatches s) (watchID s)
    (entityDataWatchID s) (resolvedFileReferences s) (currentFrameID s)
    (startingFrameID s) (stackFrameID s) (stacktraces s) (_breakpoints s)
    (_breakpointID s) (_breakpointsRefCount s) (nextObjectId s)
    (_notifiedFileBreakpoints s).

Definition set_watches (x : _) (s : Session) : Session :=
  Build_Session (config s) (debuggerState s) (socket s) (events s)
    (bufferedData s) (resumeTimerPending s) (pendingBreaks s) (localVariables
    s) (rootVariables s) (rootTableReference s) (usedVariableReferences s)
    (referenceTree s) (visitedTreeElements s) (currentParsedReferences s)
    (virtualReference s) x (watchesThisStep s) (entityDataWatches s) (watchID
    s) (entityDataWatchID s) (resolvedFileReferences s) (currentFrameID s)
    (startingFrameID s) (stackFrameID s) (stacktraces s) (_breakpoints s)
    (_breakpointID s) (_breakpointsRefCount s) (nextObjectId s)
    (_notifiedFileBreakpoints s).

Definition set_watchesThisStep (x : _) (s : Session) : Session :=
  Build_Session (config s) (debuggerState s) (socket s) (events s)
    (bufferedData s) (resumeTimerPending s) (pendingBreaks s) (localVariables
    s) (rootVariables s) (rootTableReference s) (usedVariableReferences s)
    (referenceTree s) (visitedTreeElements s) (currentParsedReferences s)
    (virtualReference s) (watches s) x (entityDataWatches s) (watchID s)
    (entityDataWatchID s) (resolvedFileReferences s) (currentFrameID s)
    (startingFrameID s) (stackFrameID s) (stacktraces s) (_breakpoints s)
    (_breakpointID s) (_breakpointsRefCount s) (nextObjectId s)
    (_notifiedFileBreakpoints s).

Definition set_entityDataWatches (x : _) (s : Session) : Session :=
  Build_Session (config s) (debuggerState s) (socket s) (events s)
    (bufferedData s) (resumeTimerPending s) (pendingBreaks s) (localVariables
    s) (rootVariables s) (rootTableReference s) (usedVariableReferences s)
    (referenceTree s) (visitedTreeElements s) (currentParsedReferences s)
    (virtualReference s) (watches s) (watchesThisStep s) x (watchID s)
    (entityDataWatchID s) (resolvedFileReferences s) (currentFrameID s)
    (startingFrameID s) (stackFrameID s) (stacktraces s) (_breakpoints s)
    (_breakpointID s) (_breakpointsRefCount s) (nextObjectId s)
    (_notifiedFileBreakpoints s).

Definition set_watchID (x : _) (s : Session) : Session :=
  Build_Session (config s) (debuggerState s) (socket s) (events s)
    (bufferedData s) (resumeTimerPending s) (pendingBreaks s) (localVariables
    s) (rootVariables s) (rootTableReference s) (usedVariableReferences s)
    (referenceTree s) (visitedTreeElements s) (currentParsedReferences s)
    (virtualReference s) (watches s) (watchesThisStep s) (entityDataWatches s)
    x (entityDataWatchID s) (resolvedFileReferences s) (currentFrameID s)
    (startingFrameID s) (stackFrameID s) (stacktraces s) (_breakpoints s)
    (_breakpointID s) (_breakpointsRefCount s) (nextObjectId s)
    (_notifiedFileBreakpoints s).

Definition set_entityDataWatchID (x : _) (s : Session) : Session :=
  Build_Session (config s) (debuggerState s) (socket s) (events s)
    (bufferedData s) (resumeTimerPending s) (pendingBreaks s) (localVariables
    s) (rootVariables s) (rootTableReference s) (usedVariableReferences s)
    (referenceTree s) (visitedTreeElements s) (currentParsedReferences s)
    (virtualReference s) (watches s) (watchesThisStep s) (entityDataWatches s)
    (watchID s) x (resolvedFileReferences s) (currentFrameID s)
    (startingFrameID s) (stackFrameID s) (stacktraces s) (_breakpoints s)
    (_breakpointID s) (_breakpointsRefCount s) (nextObjectId s)
    (_notifiedFileBreakpoints s).

Definition set_resolvedFileReferences (x : _) (s : Session) : Session :=
  Build_Session (config s) (debuggerState s) (socket s) (events s)
    (bufferedData s) (resumeTimerPending s) (pendingBreaks s) (localVariables
    s) (rootVariables s) (rootTableReference s) (usedVariableReferences s)
    (referenceTree s) (visitedTreeElements s) (currentParsedReferences s)
    (virtualReference s) (watches s) (watchesThisStep s) (entityDataWatches s)
    (watchID s) (entityDataWatchID s) x (currentFrameID s) (startingFrameID s)
    (stackFrameID s) (stacktraces s) (_breakpoints s) (_breakpointID s)
    (_breakpointsRefCount s) (nextObjectId s) (_notifiedFileBreakpoints s).

Definition set_currentFrameID (x : _) (s : Session) : Session :=
  Build_Session (config s) (debuggerState s) (socket s) (events s)
    (bufferedData s) (resumeTimerPending s) (pendingBreaks s) (localVariables
    s) (rootVariables s) (rootTableReference s) (usedVariableReferences s)
    (referenceTree s) (visitedTreeElements s) (currentParsedReferences s)
    (virtualReference s) (watches s) (watchesThisStep s) (entityDataWatches s)
    (watchID s) (entityDataWatchID s) (resolvedFileReferences s) x
    (startingFrameID s) (stackFrameID s) (stacktraces s) (_breakpoints s)
    (_breakpointID s) (_breakpointsRefCount s) (nextObjectId s)
    (_notifiedFileBreakpoints s).

Definition set_startingFrameID (x : _) (s : Session) : Session :=
  Build_Session (config s) (debuggerState s) (socket s) (events s)
    (bufferedData s) (resumeTimerPending s) (pendingBreaks s) (localVariables
    s) (rootVariables s) (rootTableReference s) (usedVariableReferences s)
    (referenceTree s) (visitedTreeElements s) (currentParsedReferences s)
    (virtualReference s) (watches s) (watchesThisStep s) (entityDataWatches s)
    (watchID s) (entityDataWatchID s) (resolvedFileReferences s)
    (currentFrameID s) x (stackFrameID s) (stacktraces s) (_breakpoints s)
    (_breakpointID s) (_breakpointsRefCount s) (nextObjectId s)
    (_notifiedFileBreakpoints s).

Definition set_stackFrameID (x : _) (s : Session) : Session :=
  Build_Session (config s) (debuggerState s) (socket s) (events s)
    (bufferedData s) (resumeTimerPending s) (pendingBreaks s) (localVariables
    s) (rootVariables s) (rootTableReference s) (usedVariableReferences s)
    (referenceTree s) (visitedTreeElements s) (currentParsedReferences s)
    (virtualReference s) (watches s) (watchesThisStep s) (entityDataWatches s)
    (watchID s) (entityDataWatchID s) (resolvedFileReferences s)
    (currentFrameID s) (startingFrameID s) x (stacktraces s) (_breakpoints s)
    (_breakpointID s) (_breakpointsRefCount s) (nextObjectId s)
    (_notifiedFileBreakpoints s).

Definition set_stacktraces (x : _) (s : Session) : Session :=
  Build_Session (config s) (debuggerState s) (socket s) (events s)
    (bufferedData s) (resumeTimerPending s) (pendingBreaks s) (localVariables
    s) (rootVariables s) (rootTableReference s) (usedVariableReferences s)
    (referenceTree s) (visitedTreeElements s) (currentParsedReferences s)
    (virtualReference s) (watches s) (watchesThisStep s) (entityDataWatches s)
    (watchID s) (entityDataWatchID s) (resolvedFileReferences s)
    (currentFrameID s) (startingFrameID s) (stackFrameID s) x (_breakpoints s)
    (_breakpointID s) (_breakpointsRefCount s) (nextObjectId s)
    (_notifiedFileBreakpoints s).

Definition set_breakpoints (x : _) (s : Session) : Session :=
  Build_Session (config s) (debuggerState s) (socket s) (events s)
    (bufferedData s) (resumeTimerPending s) (pendingBreaks s) (localVariables
    s) (rootVariables s) (rootTableReference s) (usedVariableReferences s)
    (referenceTree s) (visitedTreeElements s) (currentParsedReferences s)
    (virtualReference s) (watches s) (watchesThisStep s) (entityDataWatches s)
    (watchID s) (entityDataWatchID s) (resolvedFileReferences s)
    (currentFrameID s) (startingFrameID s) (stackFrameID s) (stacktraces s) x
    (_breakpointID s) (_breakpointsRefCount s) (nextObjectId s)
    (_notifiedFileBreakpoints s).

Definition set_breakpointID (x : _) (s : Session) : Session :=
  Build_Session (config s) (debuggerState s) (socket s) (events s)
    (bufferedData s) (resumeTimerPending s) (pendingBreaks s) (localVariables
    s) (rootVariables s) (rootTableReference s) (usedVariableReferences s)
    (referenceTree s) (visitedTreeElements s) (currentParsedReferences s)
    (virtualReference s) (watches s) (watchesThisStep s) (entityDataWatches s)
    (watchID s) (entityDataWatchID s) (resolvedFileReferences s)
    (currentFrameID s) (startingFrameID s) (stackFrameID s) (stacktraces s)
    (_breakpoints s) x (_breakpointsRefCount s) (nextObjectId s)
    (_notifiedFileBreakpoints s).

Definition set_breakpointsRefCount (x : _) (s : Session) : Session :=
  Build_Session (config s) (debuggerState s) (socket s) (events s)
    (bufferedData s) (resumeTimerPending s) (pendingBreaks s) (localVariables
    s) (rootVariables s) (rootTableReference s) (usedVariableReferences s)
    (referenceTree s) (visitedTreeElements s) (currentParsedReferences s)
    (virtualReference s) (watches s) (watchesThisStep s) (entityDataWatches s)
    (watchID s) (entityDataWatchID s) (resolvedFileReferences s)
    (currentFrameID s) (startingFrameID s) (stackFrameID s) (stacktraces s)
    (_breakpoints s) (_breakpointID s) x (nextObjectId s)
    (_notifiedFileBreakpoints s).

Definition set_nextObjectId (x : _) (s : Session) : Session :=
  Build_Session (config s) (debuggerState s) (socket s) (events s)
    (bufferedData s) (resumeTimerPending s) (pendingBreaks s) (localVariables
    s) (rootVariables s) (rootTableReference s) (usedVariableReferences s)
    (referenceTree s) (visitedTreeElements s) (currentParsedReferences s)
    (virtualReference s) (watches s) (watchesThisStep s) (entityDataWatches s)
    (watchID s) (entityDataWatchID s) (resolvedFileReferences s)
    (currentFrameID s) (startingFrameID s) (stackFrameID s) (stacktraces s)
    (_breakpoints s) (_breakpointID s) (_breakpointsRefCount s) x
    (_notifiedFileBreakpoints s).

Definition set_notifiedFileBreakpoints (x : _) (s : Session) : Session :=
  Build_Session (config s) (debuggerState s) (socket s) (events s)
    (bufferedData s) (resumeTimerPending s) (pendingBreaks s) (localVariables
    s) (rootVariables s) (rootTableReference s) (usedVariableReferences s)
    (referenceTree s) (visitedTreeElements s) (currentParsedReferences s)
    (virtualReference s) (watches s) (watchesThisStep s) (entityDataWatches s)
    (watchID s) (entityDataWatchID s) (resolvedFileReferences s)
    (currentFrameID s) (startingFrameID s) (stackFrameID s) (stacktraces s)
    (_breakpoints s) (_breakpointID s) (_breakpointsRefCount s) (nextObjectId
    s) x.

(* ------------------------------------------------------------------ *)
(** ** Socket, events and session resets (vscriptDebug.ts) *)

(** The argument-less commands, as written to the socket: ["rd\n"],
    ["go\n"], ["sr\n"]. *)
Definition readyCommand : string := "rd" ++ NL.
Definition resumeCommand : string := "go" ++ NL.
Definition stepOutCommand : string := "sr" ++ NL.

(** [this.socket?.write(msg, "ascii")].  The field is initialised with a
    socket object and never reassigned, so the optional call always
    writes. *)
Definition writeSocket (msg : string) (s : Session) : Session :=
  set_socket (socket s ++ [msg])%list s.

(** [this.sendEvent(e)]. *)
Definition sendEvent (e : Event) (s : Session) : Session :=
  set_events (events s ++ [e])%list s.

Definition debugPrint (message : string) (s : Session) : Session :=
  if enableDebugLogging (config s)
  then sendEvent (OutputEvent message "console") s
  else s.

Definition resetFileReferences (s : Session) : Session :=
  set_resolvedFileReferences [] s.

(** [resetState]; the variable-handle table and the document-change
    listener it also resets belong to the front-end adapter. *)
Definition resetState (s : Session) : Session :=
  let s := set_bufferedData EmptyString s in
  let s := set_currentFrameID 0%Z s in
  let s := set_startingFrameID (-1)%Z s in
  let s := set_resolvedFileReferences [] s in
  let s := set_virtualReference 10000%N s in
  let s := set_visitedTreeElements [] s in
  if negb (rememberFileReferencesDuringSession (config s))
  then resetFileReferences s
  else s.

(* ------------------------------------------------------------------ *)
(** ** Watch manager (watches.ts) *)

(** [utilities.arrayMapToArray]: the arrays of the map, concatenated in
    insertion order. *)
Definition arrayMapToArray {K T : Type} (m : list (K * list T)) : list T :=
  fold_left (fun mergedArray kv => (mergedArray ++ snd kv)%list) m [].

(** [!(id & 0x100000)]: the id does not carry the bit reserved for
    entity-data watches (1048576 = 0x100000; the 32-bit conversion of [&]
    keeps bit 20). *)
Definition isRegularWatchId (id : N) : bool :=
  N.eqb (N.land id 1048576) 0.

Definition watchExists (s : Session) (id : N) (expression : string) : bool :=
  if isRegularWatchId id
  then match find (fun e => String.eqb (w_expression e) expression) (watches s) with
       | Some _ => true
       | None => false
       end
  else match find (fun e => String.eqb (w_expression e) expression)
                  (arrayMapToArray (entityDataWatches s)) with
       | Some _ => true
       | None => false
       end.

(** The add-watch command line. *)
Definition addWatchCommand (id : N) (expression : string) : string :=
  "aw 0x" ++ toString16 id ++ ":" ++ expression ++ NL.

(** The remove-watch command (written without a line terminator). *)
Definition removeWatchCommand (id : N) : string :=
  "rw 0x" ++ toString16 id.

Definition addWatch (s : Session) (id : N) (expression displayName : string)
           (variableReference : Z) (frameID : Z) (affectTables : bool)
  : DebuggerWatch * Session :=
  let watch := newDebuggerWatch id expression in
  if negb affectTables
  then (watch, writeSocket (addWatchCommand id expression) s)
  else
    if isRegularWatchId id
    then
      match find (fun e => String.eqb (w_expression e) expression) (watches s) with
      | None =>
          let s := writeSocket (addWatchCommand id expression) s in
          let s := set_watches (watches s ++ [watch])%list s in
          (watch, set_watchID (watchID s + 1)%N s)
      | Some existingWatch => (existingWatch, s)
      end
    else
      let s := writeSocket (addWatchCommand id expression) s in
      let watch :=
        mkWatch (w_id watch) (w_expression watch) (w_values watch)
                (w_variableReference watch) (w_type watch) (w_status watch)
                displayName (w_frameId watch) (w_isValid watch) in
      let dataWatches :=
        match mapGet Z.eqb variableReference (entityDataWatches s) with
        | Some a => a
        | None => []
        end in
      let s := set_entityDataWatches
                 (mapSet Z.eqb variableReference (dataWatches ++ [watch])%list
                         (entityDataWatches s)) s in
      (watch, set_watchID (watchID s + 1)%N s).

(** [a.splice(a.indexOf(a.find(p)), 1)]: drop the first element
    satisfying [p]. *)
Fixpoint removeFirst {A : Type} (p : A -> bool) (l : list A) : list A :=
  match l with
  | [] => []
  | x :: rest => if p x then rest else x :: removeFirst p rest
  end.

(** The loop of [removeWatch] over the entity-data map: the first array
    holding a watch with this id loses it; [None] when no array does. *)
Fixpoint removeEntityDataWatch (id : N) (m : list (Z * list DebuggerWatch))
  : option (list (Z * list DebuggerWatch)) :=
  match m with
  | [] => None
  | (key, value) :: rest =>
      match find (fun e => N.eqb (w_id e) id) value with
      | Some _ => Some ((key, removeFirst (fun e => N.eqb (w_id e) id) value) :: rest)
      | None =>
          match removeEntityDataWatch id rest with
          | Some rest' => Some ((key, value) :: rest')
          | None => None
          end
      end
  end.

Definition removeWatch (s : Session) (id : N) (affectTables : bool) : Session :=
  if negb affectTables
  then writeSocket (removeWatchCommand id) s
  else
    if isRegularWatchId id
    then
      match find (fun e => N.eqb (w_id e) id) (watches s) with
      | Some _ =>
          let s := set_watches (removeFirst (fun e => N.eqb (w_id e) id) (watches s)) s in
          writeSocket (removeWatchCommand id) s
      | None => s
      end
    else
      match removeEntityDataWatch id (entityDataWatches s) with
      | Some m => writeSocket (removeWatchCommand id) (set_entityDataWatches m s)
      | None => s
      end.

(** [cleanupUnusedWatches]: [for (let watch of this.watches)] walks the
    live array by index while the body may splice it.  [i] is the
    iterator position; [fuel] bounds the number of iterations. *)
Fixpoint cleanupLoop (fuel i : nat) (s : Session) : Session :=
  match fuel with
  | O => s
  | S fuel' =>
      match nth_error (watches s) i with
      | None => s
      | Some watch =>
          if N.eqb (w_id watch) 0
          then cleanupLoop fuel' (S i) s
          else
            let isObsolete := negb (existsb (N.eqb (w_id watch)) (watchesThisStep s)) in
            if isObsolete
            then cleanupLoop fuel' (S i) (removeWatch s (w_id watch) true)
            else cleanupLoop fuel' (S i) s
      end
  end.

Definition cleanupUnusedWatches (s : Session) : Session :=
  set_watchesThisStep [] (cleanupLoop (List.length (watches s)) 0 s).

(* ------------------------------------------------------------------ *)
(** ** Resume and step-out (vscriptDebug.ts) *)

Definition resumeExecution (s : Session) : Session :=
  let watches := arrayMapToArray (entityDataWatches s) in
  let dontForgetFiles := rememberFileReferencesDuringSession (config s) in
  let s := if negb dontForgetFiles then set_resolvedFileReferences [] s else s in
  let s := fold_left (fun st watch => removeWatch st (w_id watch) false) watches s in
  let s := set_entityDataWatches [] s in
  let s := set_entityDataWatchID 1000000%N s in
  let s := match debuggerState s with
           | errored =>
               debugPrint "Sending 'rd' message (ready)" (writeSocket readyCommand s)
           | _ => s
           end in
  let s := writeSocket resumeCommand s in
  let s := debugPrint "Sending 'go' message (resume)" s in
  set_debuggerState ready s.

Definition stepOut (s : Session) : Session :=
  if (1 <? List.length (stacktraces s))%nat
  then debugPrint "Sending 'sr' message (step return)" (writeSocket stepOutCommand s)
  else resumeExecution s.

(* ------------------------------------------------------------------ *)
(** ** Breakpoint registry (vscriptDebug.ts) *)

Definition sendRemoveBreakpoint (src : string) (line : N) (s : Session) : Session :=
  let src := replaceBackslashes src in
  let message := "rb 0x" ++ toString16 line ++ ":" ++ src ++ NL in
  let s := debugPrint ("Sendind message: " ++ message) s in
  writeSocket message s.

Definition sendAddBreakpoint (src : string) (line : N) (s : Session) : Session :=
  let src := replaceBackslashes src in
  let message := "ab 0x" ++ toString16 line ++ ":" ++ src ++ NL in
  let s := debugPrint ("Sendind message: " ++ message) s in
  writeSocket message s.

(** Evaluating the array literal [[path.basename(bpPath), bp.line]]
    creates a new array object. *)
Definition newRefCountKey (base : string) (line : N) (s : Session)
  : RefCountKey * Session :=
  (mkRefCountKey (nextObjectId s) base line,
   set_nextObjectId (S (nextObjectId s)) s).

(** One iteration of the loop over [bpsForRemoval]. *)
Definition removeBreakpointStep (bpPath : string) (s : Session) (bp : IBreakpoint)
  : Session :=
  let '(k, s) := newRefCountKey (basename bpPath) (bp_line bp) s in
  let refCount :=
    match mapGet RefCountKey_same k (_breakpointsRefCount s) with
    | Some c => if Z.eqb c 0 then 0%Z else c
    | None => 0%Z
    end in
  let refCount := (refCount - 1)%Z in
  if (refCount <=? 0)%Z
  then
    let s := sendRemoveBreakpoint bpPath (bp_line bp) s in
    let '(k, s) := newRefCountKey (basename bpPath) (bp_line bp) s in
    set_breakpointsRefCount (mapDelete RefCountKey_same k (_breakpointsRefCount s)) s
  else
    let '(k, s) := newRefCountKey (basename bpPath) (bp_line bp) s in
    set_breakpointsRefCount
      (mapSet RefCountKey_same k refCount (_breakpointsRefCount s)) s.

(** One iteration of the loop over [bpsForInclusion].  The file resolver
    consulted for a basename seen for the first time only raises a warning
    dialog; it does not touch the session, and the iteration is taken to
    finish before another request is served. *)
Definition addBreakpointStep (bpPath : string) (s : Session) (bp : IBreakpoint)
  : Session :=
  let s := sendAddBreakpoint bpPath (bp_line bp) s in
  let wasNotified :=
    existsb (String.eqb (basename bpPath)) (_notifiedFileBreakpoints s) in
  let s := if negb wasNotified
           then set_notifiedFileBreakpoints
                  (_notifiedFileBreakpoints s ++ [basename bpPath])%list s
           else s in
  let '(k, s) := newRefCountKey (basename bpPath) (bp_line bp) s in
  let refCount :=
    match mapGet RefCountKey_same k (_breakpointsRefCount s) with
    | Some c => c
    | None => 0%Z
    end in
  let refCount := (refCount + 1)%Z in
  let '(k, s) := newRefCountKey (basename bpPath) (bp_line bp) s in
  set_breakpointsRefCount
    (mapSet RefCountKey_same k refCount (_breakpointsRefCount s)) s.

(** The [breakpoints.map] callback: build the runtime breakpoint for one
    requested line and push it on the path's array. *)
Definition makeBreakpoint (bpPath : string) (originalBps : list IBreakpoint)
           (s : Session) (line : N) : Session :=
  let isVerified :=
    match find (fun searchedBp => N.eqb (bp_line searchedBp) line) originalBps with
    | Some existingBp => bp_verified existingBp
    | None => true
    end in
  let bp := mkBreakpoint (_breakpointID s) line isVerified in
  let s := set_breakpointID (_breakpointID s + 1)%N s in
  let bps := match mapGet String.eqb bpPath (_breakpoints s) with
             | Some a => a
             | None => []
             end in
  set_breakpoints (mapSet String.eqb bpPath (bps ++ [bp])%list (_breakpoints s)) s.

Definition breakpointsOf (bpPath : string) (s : Session) : list IBreakpoint :=
  match mapGet String.eqb bpPath (_breakpoints s) with
  | Some a => a
  | None => []
  end.

Definition hasLine (l : list IBreakpoint) (line : N) : bool :=
  existsb (fun inner => N.eqb (bp_line inner) line) l.

(** The body of [setBreakPointsRequest] once the socket is connected.
    [relativePath] is [getRelativeScriptPath(args.source.path)], [lines]
    the requested lines; the result carries the breakpoints reported back
    to the front end. *)
Definition setBreakPointsRequest (relativePath : string) (lines : list N)
           (s : Session) : list IBreakpoint * Session :=
  let bpPath := replaceBackslashes relativePath in
  let originalBps := breakpointsOf bpPath s in
  let s := set_breakpoints (mapSet String.eqb bpPath [] (_breakpoints s)) s in
  let s := fold_left (makeBreakpoint bpPath originalBps) lines s in
  let actualBreakpoints := breakpointsOf bpPath s in
  let bpsForRemoval :=
    filter (fun element => negb (hasLine (breakpointsOf bpPath s) (bp_line element)))
           originalBps in
  let bpsForInclusion :=
    filter (fun element => negb (hasLine originalBps (bp_line element)))
           (breakpointsOf bpPath s) in
  let s := fold_left (removeBreakpointStep bpPath) bpsForRemoval s in
  let s := fold_left (addBreakpointStep bpPath) bpsForInclusion s in
  (actualBreakpoints, s).

(* ------------------------------------------------------------------ *)
(** ** Object graph and reference tree (parsing.ts) *)

(** A call either returns or raises (a [TypeError] on reading a property
    of [undefined]). *)
Inductive Outcome (A : Type) : Type :=
| Returned (a : A)
| Thrown.
Arguments Returned {A} a.
Arguments Thrown {A}.

Definition isEntIndexMember (element : Element) : bool :=
  String.eqb (el_vt element) "native function"
  && String.eqb (el_kv element) "entindex".

Fixpoint isVariableEHandle (referenceList : list Obj) (reference : JsNum) : bool :=
  match referenceList with
  | [] => false
  | obj :: rest =>
      if negb (String.eqb (o_ref obj) (String_ reference))
      then isVariableEHandle rest reference
      else match o_e obj with
           | [] => false
           | elements => existsb isEntIndexMember elements
           end
  end.

Definition isComplexDataType (shorttype : string) : bool :=
  String.eqb shorttype "t" || String.eqb shorttype "r"
  || String.eqb shorttype "a" || String.eqb shorttype "x"
  || String.eqb shorttype "y".

Definition resetRootReferenceTree (tree : TreeNode) : TreeNode :=
  Node (mkReferenceVariable (JInt 0) "@root@" "r") [] (node_depth tree).

(** Result of [buildReferenceTree]: the returned node ([None] for
    [undefined]) or a raised [TypeError], each with the visited list as the
    call left it; [BuildOutOfFuel] only when the recursion budget of the
    model is exhausted. *)
Inductive BuildResult : Type :=
| Built (node : option TreeNode) (searched : list JsNum)
| BuildThrown (searched : list JsNum)
| BuildOutOfFuel.

(** The [for (let element of obj['e'])] loop; [rec] is the recursive
    call, [depth] the local that [depth++] advances. *)
Fixpoint buildChildren
         (rec : JsNum -> string -> string -> nat -> list JsNum -> BuildResult)
         (elements : list Element) (children : list TreeNode) (depth : nat)
         (searched : list JsNum)
  : option (Outcome (list TreeNode) * list JsNum) :=
  match elements with
  | [] => Some (Returned children, searched)
  | element :: rest =>
      if isComplexDataType (el_vt element)
      then
        match rec (Number (el_v element)) (el_kv element) (el_vt element)
                  depth searched with
        | Built newNode searched' =>
            let children := match newNode with
                            | Some n => (children ++ [n])%list
                            | None => children
                            end in
            buildChildren rec rest children (S depth) searched'
        | BuildThrown searched' => Some (Thrown, searched')
        | BuildOutOfFuel => None
        end
      else buildChildren rec rest children depth searched
  end.

Fixpoint buildReferenceTree_fuel (fuel : nat) (referenceList : list Obj)
         (serverReference : JsNum) (name type : string) (depth : nat)
         (searchedElementsList : list JsNum) : BuildResult :=
  match fuel with
  | O => BuildOutOfFuel
  | S fuel' =>
      match find (fun e => String.eqb (o_ref e) (String_ serverReference))
                 referenceList with
      | None => BuildThrown searchedElementsList
      | Some obj =>
          match o_e obj with
          | [] => Built None searchedElementsList
          | elements =>
              if includes serverReference searchedElementsList
              then Built None searchedElementsList
              else
                let searched := (searchedElementsList ++ [serverReference])%list in
                let treeElement := mkReferenceVariable serverReference name type in
                match buildChildren (buildReferenceTree_fuel fuel' referenceList)
                                    elements [] depth searched with
                | Some (Returned children, searched') =>
                    Built (Some (Node treeElement children depth)) searched'
                | Some (Thrown, searched') => BuildThrown searched'
                | None => BuildOutOfFuel
                end
          end
      end
  end.

(** [buildReferenceTree]: every nested call visits an object of
    [referenceList] not visited before, so one more unit of budget than
    there are objects is enough (lemma [buildReferenceTree_fuel_enough]). *)
Definition buildReferenceTree (referenceList : list Obj) (serverReference : JsNum)
           (name type : string) (depth : nat) (searchedElementsList : list JsNum)
  : BuildResult :=
  buildReferenceTree_fuel (S (List.length referenceList)) referenceList
                          serverReference name type depth searchedElementsList.

(** Number of nodes of a tree labelled with reference [r]. *)
Fixpoint countNodes (r : JsNum) (t : TreeNode) : nat :=
  match t with
  | Node el ch _ =>
      (if JsNum_eqb (reference el) r then 1 else 0)
      + fold_right (fun c acc => countNodes r c + acc) 0 ch
  end.

(** References labelling the nodes of a tree, parent first. *)
Fixpoint treeReferences (t : TreeNode) : list JsNum :=
  match t with
  | Node el ch _ => reference el :: flat_map treeReferences ch
  end.

(* ------------------------------------------------------------------ *)
(** ** Short-representation renderer (parsing.ts) *)

(** The key part of a table entry: [switch(keytype)]. *)
Definition keyText (refs : list Obj) (element : Element) : string :=
  let keyvalue := el_kv element in
  let keytype := el_kt element in
  if String.eqb keytype "s" then keyvalue ++ " = "
  else if String.eqb keytype "a" then "Array [...] = "
  else if String.eqb keytype "t" then "Table {...} = "
  else if String.eqb keytype "r" then "[REFERENCE] = "
  else if String.eqb keytype "x" then
    if isVariableEHandle refs (Number (el_kv element))
    then "[Entity handle] = "
    else "[Object] = "
  else if String.eqb keytype "y" then "[Class] = "
  else if String.eqb keytype "fn" then "[Function] = "
  else if String.eqb keytype "h" then "[Thread] = "
  else if String.eqb keytype "g" then "[Function generator] = "
  else if String.eqb keytype "u" then "[Userdata] = "
  else keyvalue ++ " = ".

(** The inner loop of the ['x'] element case: every object whose [ref]
    equals the element value appends a word.  The code reads
    [obj['typeof']], a child tag the server never sends, so the word for
    an object with a [typeof] attribute is the text of [undefined]. *)
Fixpoint objectWords (refs : list Obj) (v : string) (value : string) : string :=
  match refs with
  | [] => value
  | obj :: rest =>
      if String.eqb (o_ref obj) v
      then if negb (String.eqb (o_typeof obj) EmptyString)
           then objectWords rest v (value ++ "undefined")
           else objectWords rest v (value ++ "Object")
      else objectWords rest v value
  end.

(** The value part of an entry: [switch (elementtype)]. *)
Definition valueText (refs : list Obj) (element : Element) (value : string)
  : string :=
  let elementtype := el_vt element in
  if String.eqb elementtype "s" then value ++ DQUOTE ++ el_v element ++ DQUOTE
  else if String.eqb elementtype "a" then value ++ "Array [...]"
  else if String.eqb elementtype "t" then value ++ "Table {...}"
  else if String.eqb elementtype "r" then value ++ "REFERENCE"
  else if String.eqb elementtype "x" then
    if isVariableEHandle refs (Number (el_v element))
    then value ++ "Entity handle"
    else objectWords refs (el_v element) value
  else if String.eqb elementtype "y" then value ++ "Class"
  else if String.eqb elementtype "fn" then value ++ "Function"
  else if String.eqb elementtype "h" then value ++ "Thread"
  else if String.eqb elementtype "g" then value ++ "Function generator"
  else if String.eqb elementtype "u" then value ++ "Userdata"
  else value ++ el_v element.

(** The text of one entry of an aggregate of type [type]. *)
Definition entryText (refs : list Obj) (type : string) (element : Element)
  : string :=
  let value := el_v element in
  let value := if String.eqb type "a" then EmptyString else value in
  let value := if String.eqb type "t" then keyText refs element else value in
  valueText refs element value.

(** Loop state: [isFirstElement], [contents], [parsedElementCount]. *)
Definition RenderState : Type := (bool * string * nat)%type.

(** [for (let element of objTable)]. *)
Fixpoint renderElements (refs : list Obj) (maxShortData : nat) (type : string)
         (objTable : list Element) (st : RenderState) : RenderState :=
  match objTable with
  | [] => st
  | element :: rest =>
      let '(isFirstElement, contents, parsedElementCount) := st in
      if (maxShortData <=? parsedElementCount)%nat
      then (isFirstElement, contents ++ ", ...", parsedElementCount)
      else
        let value := entryText refs type element in
        let contents := if isFirstElement
                        then contents ++ value
                        else contents ++ ", " ++ value in
        renderElements refs maxShortData type rest
                       (false, contents, S parsedElementCount)
  end.

(** [for (let obj of debugSession.currentParsedReferences)]; the fourth
    component is [length]. *)
Fixpoint renderObjects (refs : list Obj) (maxShortData : nat)
         (serverRef type : string) (objs : list Obj)
         (st : RenderState) (length : nat) : RenderState * nat :=
  match objs with
  | [] => (st, length)
  | obj :: rest =>
      if negb (String.eqb (o_ref obj) serverRef)
      then renderObjects refs maxShortData serverRef type rest st length
      else
        match o_e obj with
        | [] => renderObjects refs maxShortData serverRef type rest st length
        | objTable =>
            renderObjects refs maxShortData serverRef type rest
                          (renderElements refs maxShortData type objTable st)
                          (List.length objTable)
        end
  end.

(** The ['x'] case of the final switch after the entity-handle test: the
    first object with this [ref] and a [typeof] names the value; a
    [Vector] shows its first three element values and raises when it has
    fewer. *)
Fixpoint objectTypeName (objs : list Obj) (serverRef : string) : Outcome string :=
  match objs with
  | [] => Returned "Object"
  | obj :: rest =>
      if negb (String.eqb (o_ref obj) serverRef) then objectTypeName rest serverRef
      else if String.eqb (o_typeof obj) EmptyString then objectTypeName rest serverRef
      else if String.eqb (o_typeof obj) "Vector"
           then match o_e obj with
                | e0 :: e1 :: e2 :: _ =>
                    Returned ("Vector [" ++ el_v e0 ++ ", " ++ el_v e1 ++ ", "
                                         ++ el_v e2 ++ "]")
                | _ => Thrown
                end
           else Returned (o_typeof obj)
  end.

(** [getStructShortRepresentation].  The object list is undefined before
    the first frame and after a frame whose [<objs>] has no children (the
    empty list here: xml2js never yields an empty array); the loop over it
    then raises. *)
Definition getStructShortRepresentation (s : Session) (serverRef type : string)
  : Outcome string :=
  let refs := currentParsedReferences s in
  match refs with
  | [] => Thrown
  | _ :: _ =>
      let '((_, contents, _), length) :=
        renderObjects refs (maxShortData (config s)) serverRef type refs
                      (true, EmptyString, 0) 0 in
      if String.eqb type "a"
      then Returned ("Array " ++ "(" ++ toString10 (N.of_nat length) ++ ") "
                              ++ "[" ++ contents ++ "]")
      else if String.eqb type "t"
      then Returned ("Table " ++ "(" ++ toString10 (N.of_nat length) ++ ") "
                              ++ "{" ++ contents ++ "}")
      else if String.eqb type "r" then Returned "REFERENCE"
      else if String.eqb type "x" then
        if isVariableEHandle refs (Number serverRef)
        then Returned "Entity handle"
        else objectTypeName refs serverRef
      else if String.eqb type "y" then Returned "Class"
      else if String.eqb type "fn" then Returned "Function"
      else if String.eqb type "h" then Returned "Thread"
      else if String.eqb type "g" then Returned "Function generator"
      else if String.eqb type "u" then Returned "Userdata"
      else Returned ("Structure (" ++ type ++ ") {" ++ contents ++ "}")
  end.

(** [utilities.typeStringFromChar]. *)
Definition typeStringFromChar (char : string) : string :=
  if String.eqb char "i" then "integer"
  else if String.eqb char "f" then "float"
  else if String.eqb char "b" then "boolean"
  else if String.eqb char "s" then "string"
  else if String.eqb char "t" then "table"
  else if String.eqb char "a" then "array"
  else if String.eqb char "x" then "object"
  else if String.eqb char "y" then "class"
  else if String.eqb char "fn" then "function"
  else if String.eqb char "n" then "null"
  else if String.eqb char "g" then "function generator"
  else if String.eqb char "h" then "thread"
  else if String.eqb char "u" then "userdata"
  else char.

(* ------------------------------------------------------------------ *)
(** ** Frame decoder (parsing.ts) *)

(** A computation on the session that finishes with a result or raises;
    either way the session is as the code left it. *)
Inductive Run (A : Type) : Type :=
| Finished (a : A) (s : Session)
| Raised (s : Session).
Arguments Finished {A} a s.
Arguments Raised {A} s.

Definition runBind {A B : Type} (r : Run A) (k : A -> Session -> Run B) : Run B :=
  match r with
  | Finished a s => k a s
  | Raised s => Raised s
  end.

Definition runSession {A : Type} (r : Run A) : Session :=
  match r with
  | Finished _ s => s
  | Raised s => s
  end.

Notation "'run' ( a , s ) <- r ; k" :=
  (runBind r (fun a s => k))
    (at level 10, a name, s name, r at level 100, k at level 200,
     only parsing).

Section Conversion.

(** The number conversion of the JavaScript runtime as the engine uses it
    on attribute values: [numberText value] is [String(Number(value))], the
    text of the IEEE double that [value] denotes. *)
Variable numberText : string -> string.

Definition variableToValue (s : Session) (value char : string)
  : Outcome IBasicType :=
  if String.eqb char "i" || String.eqb char "f"
  then Returned (BNumber (numberText value))
  else if String.eqb char "b" then Returned (BBoolean (String.eqb value "true"))
  else if String.eqb char "s" then Returned (BString value)
  else if isComplexDataType char
  then match getStructShortRepresentation s value char with
       | Returned text => Returned (BString text)
       | Thrown => Thrown
       end
  else if String.eqb char "fn" then Returned (BString "function")
  else if String.eqb char "g" then Returned (BString "generator")
  else if String.eqb char "h" then Returned (BString "thread")
  else if String.eqb char "u" then Returned (BString "userdata")
  else Returned (BString value).

(** [!(watchId & 0x100000)] on a number read from the frame. *)
Definition isRegularWatchNum (watchId : JsNum) : bool :=
  match watchId with
  | JInt z => Z.eqb (Z.land z 1048576) 0
  | JNaN => true
  end.

Definition watchHasId (watchId : JsNum) (w : DebuggerWatch) : bool :=
  strict_eqb (JInt (Z.of_N (w_id w))) watchId.

(** Replace the first element satisfying [p]: the mutation of the object
    that [find] returned. *)
Fixpoint replaceFirst {A : Type} (p : A -> bool) (x : A) (l : list A) : list A :=
  match l with
  | [] => []
  | y :: rest => if p y then x :: rest else y :: replaceFirst p x rest
  end.

Fixpoint replaceFirstInMap {K A : Type} (p : A -> bool) (x : A)
         (m : list (K * list A)) : list (K * list A) :=
  match m with
  | [] => []
  | (k, l) :: rest =>
      if existsb p l then (k, replaceFirst p x l) :: rest
      else (k, l) :: replaceFirstInMap p x rest
  end.

(** Two entries of [watches] are one object when they were constructed
    from the same arguments: [addWatch] pushes a new object only for an
    expression that no tracked watch has, and the connect handler pushes
    the root-table watch that [addWatch] returns a second time. *)
Definition sameWatch (a b : DebuggerWatch) : bool :=
  N.eqb (w_id a) (w_id b) && String.eqb (w_expression a) (w_expression b).

(** The mutation of the object that [find] returned shows in every entry
    of the list that is this object. *)
Definition replaceWatch (w : DebuggerWatch) (l : list DebuggerWatch)
  : list DebuggerWatch :=
  map (fun e => if sameWatch e w then w else e) l.

(** Store the mutated watch object back where [parseWatch] found it. *)
Definition storeWatch (watchId : JsNum) (w : DebuggerWatch) (s : Session) : Session :=
  if isRegularWatchNum watchId
  then set_watches (replaceWatch w (watches s)) s
  else set_entityDataWatches
         (replaceFirstInMap (watchHasId watchId) w (entityDataWatches s)) s.

Definition parseWatch (s : Session) (watch : WatchXml) (currentFrame : nat)
  : Run unit :=
  let watchId := Number (wx_id watch) in
  let status := wx_status watch in
  let debuggerWatch :=
    if isRegularWatchNum watchId
    then find (watchHasId watchId) (watches s)
    else find (watchHasId watchId) (arrayMapToArray (entityDataWatches s)) in
  match debuggerWatch with
  | None => Finished tt s
  | Some w =>
      let w := mkWatch (w_id w) (w_expression w) (w_values w)
                       (w_variableReference w) (w_type w) (w_status w)
                       (w_displayName w) currentFrame (w_isValid w) in
      if String.eqb status "ok"
      then
        let value := wx_val watch in
        let shorttype := wx_type watch in
        let w := mkWatch (w_id w) (w_expression w) (w_values w)
                         (w_variableReference w) (w_type w)
                         (setIndex currentFrame WatchStatus_ok (w_status w))
                         (w_displayName w) (w_frameId w) (w_isValid w) in
        match variableToValue s value shorttype with
        | Thrown => Raised (storeWatch watchId w s)
        | Returned shown =>
            let w := mkWatch (w_id w) (w_expression w)
                             (setIndex currentFrame shown (w_values w))
                             (if isComplexDataType shorttype
                              then succ (Number value)
                              else w_variableReference w)
                             (typeStringFromChar shorttype) (w_status w)
                             (w_displayName w) (w_frameId w) true in
            let s := storeWatch watchId w s in
            if isComplexDataType shorttype && strict_eqb watchId (JInt 0)
            then Finished tt (set_rootTableReference (Number value) s)
            else Finished tt s
        end
      else if String.eqb status "error"
      then
        let w := mkWatch (w_id w) (w_expression w)
                         (setIndex currentFrame (BString "error") (w_values w))
                         (w_variableReference w) (w_type w)
                         (setIndex currentFrame WatchStatus_error (w_status w))
                         (w_displayName w) (w_frameId w) (w_isValid w) in
        Finished tt (storeWatch watchId w s)
      else Finished tt (storeWatch watchId w s)
  end.

(** [debugSession.referenceTree.children.push(node)]. *)
Definition pushRootChild (node : option TreeNode) (s : Session) : Session :=
  match node with
  | Some n =>
      match referenceTree s with
      | Node el ch d => set_referenceTree (Node el (ch ++ [n])%list d) s
      end
  | None => s
  end.

(** One call of [buildReferenceTree] on the session's object graph and
    visited list, with the node attached under the root. *)
Definition growReferenceTree (serverReference : JsNum) (name type : string)
           (s : Session) : Run unit :=
  match buildReferenceTree (currentParsedReferences s) serverReference name type
                           0 (visitedTreeElements s) with
  | Built newNode searched =>
      Finished tt (pushRootChild newNode (set_visitedTreeElements searched s))
  | BuildThrown searched => Raised (set_visitedTreeElements searched s)
  | BuildOutOfFuel => Raised s
  end.

(** [rootTableReference >= 0]. *)
Definition isNonNegative (n : JsNum) : bool :=
  match n with
  | JInt z => (0 <=? z)%Z
  | JNaN => false
  end.

Definition parseLocalVariable (s : Session) (local : LocalXml) (currentFrame : nat)
  : Run DebuggerVariable :=
  let name := lx_name local in
  let shorttype := lx_type local in
  let originalvalue := lx_val local in
  match variableToValue s originalvalue shorttype with
  | Thrown => Raised s
  | Returned value =>
      if isComplexDataType shorttype
      then
        let hidden :=
          String.eqb name "this"
          || (if String.eqb shorttype "native function"
                 && hideNativeFunctions (config s)
              then true
              else String.eqb shorttype "y" && hideClasses (config s)) in
        let variable :=
          mkVariable name value shorttype (succ (Number originalvalue)) (JInt 0)
                     (String.eqb shorttype "a") name currentFrame hidden in
        run (_, s) <- growReferenceTree (Number originalvalue) name shorttype s;
        if displayRootTable (config s) && isNonNegative (rootTableReference s)
        then
          run (_, s) <- growReferenceTree (rootTableReference s) "@ROOTTABLE@" "t" s;
          Finished variable s
        else Finished variable s
      else
        Finished (mkVariable name value shorttype (JInt 0) (JInt 0) false name
                             currentFrame false) s
  end.

(** [variables.push(v)] on the array stored under key 0 of
    [localVariables]. *)
Definition pushLocal (v : DebuggerVariable) (s : Session) : Session :=
  let variables := match mapGet JsNum_eqb (JInt 0) (localVariables s) with
                   | Some a => a
                   | None => []
                   end in
  set_localVariables
    (mapSet JsNum_eqb (JInt 0) (variables ++ [v])%list (localVariables s)) s.

Fixpoint parseWatches (s : Session) (ws : list WatchXml) (currentFrame : nat)
  : Run unit :=
  match ws with
  | [] => Finished tt s
  | watch :: rest =>
      run (_, s) <- parseWatch s watch currentFrame;
      parseWatches s rest currentFrame
  end.

Fixpoint parseLocals (s : Session) (ls : list LocalXml) (currentFrame : nat)
  : Run unit :=
  match ls with
  | [] => Finished tt s
  | local :: rest =>
      run (v, s) <- parseLocalVariable s local currentFrame;
      parseLocals (pushLocal v s) rest currentFrame
  end.

(** The loop over [calls] for a refresh frame: the branch guarded by
    [!isUpdateData] is skipped. *)
Fixpoint parseCallsOfUpdate (s : Session) (calls : list CallXml) (currentFrame : nat)
  : Run unit :=
  match calls with
  | [] => Finished tt s
  | call :: rest =>
      run (_, s) <- parseWatches s (c_w call) currentFrame;
      run (_, s) <- parseLocals s (c_l call) currentFrame;
      parseCallsOfUpdate s rest (S currentFrame)
  end.

(** The statements between reading [dataRoot] and the loop over the
    calls: every per-step structure is replaced; [objs] is the child list
    of [<objs>]. *)
Definition beginStep (objs : list Obj) (s : Session) : Session :=
  let s := set_currentParsedReferences objs s in
  let s := set_localVariables [(JInt 0, [])] s in
  let s := set_rootVariables [] s in
  let s := set_referenceTree (resetRootReferenceTree (referenceTree s)) s in
  let s := set_startingFrameID (-1)%Z s in
  let s := set_virtualReference 10000%N s in
  set_currentFrameID 0%Z s.

(** A refresh frame.  An absent [<objs>] raises before anything is
    written, an absent [call] list makes the [for .. of] raise; a raise
    inside the callback rejects its promise and ends it. *)
Definition parseUpdate (body : Payload) (s : Session) : Session :=
  match p_objs body with
  | None => s
  | Some objs =>
      let s := beginStep objs s in
      match p_calls body with
      | [] => s
      | calls =>
          match parseCallsOfUpdate s calls 0 with
          | Finished _ s => sendEvent (InvalidatedEvent ["variables"]) s
          | Raised s => s
          end
      end
  end.

(** A step-stop frame: the callback runs up to the [await] of the first
    [parseCall] and is suspended there; the rest of it (call stack, locals,
    watch results, the stopped event) runs after the receive cycle. *)
Definition parseBreak (attrs : BreakAttrs) (body : Payload) (s : Session)
  : Session :=
  match p_objs body with
  | None => s
  | Some objs =>
      let s := beginStep objs s in
      match p_calls body with
      | [] => s
      | _ => set_pendingBreaks (pendingBreaks s ++ [(attrs, body)])%list s
      end
  end.

Definition breakpointHasLine (bpLine : JsNum) (bp : IBreakpoint) : bool :=
  strict_eqb (JInt (Z.of_N (bp_line bp))) bpLine.

(** Verify the breakpoint of [key] on line [bpLine], if there is one. *)
Definition verifyBreakpointAt (key : string) (bpLine : JsNum) (s : Session)
  : Session :=
  let breakPointList := breakpointsOf key s in
  match find (breakpointHasLine bpLine) breakPointList with
  | Some bp =>
      let bp := mkBreakpoint (bp_id bp) (bp_line bp) true in
      let s := set_breakpoints
                 (mapSet String.eqb key
                         (replaceFirst (breakpointHasLine bpLine) bp breakPointList)
                         (_breakpoints s)) s in
      sendEvent (BreakpointEvent "changed" bp) s
  | None => s
  end.

Section Decoder.

(** Collaborators outside the engine: the path computation of
    [utilities.getRelativeScriptPath] (Node's [path] module on the host
    file system), the XML parser ([xml2js.parseString] with [trim]), and
    the pretty printer of the debug log.  [xmlFormat b] is the call
    [xmlFormat(b.trimEnd(), {lineSeparator: "\n"})]: the formatted text, or
    [None] when the printer raises, as it does on text that is not one
    XML document. *)
Variable getRelativeScriptPath : string -> string.
Variable parseString : string -> ParsedXml.
Variable xmlFormat : string -> option string.

Definition parseBreakpoint (s : Session) (bpLine : JsNum) (bpFile : string)
  : Session :=
  let relativeScriptPath := getRelativeScriptPath bpFile in
  match mapGet String.eqb relativeScriptPath (_breakpoints s) with
  | Some _ => verifyBreakpointAt relativeScriptPath bpLine s
  | None =>
      fold_left
        (fun st key =>
           if String.eqb (basename key) relativeScriptPath
           then verifyBreakpointAt key bpLine st
           else st)
        (map fst (_breakpoints s)) s
  end.

Definition resumedMarker : string := "<resumed/>" ++ CRLF.

Definition parseReceivedData (s : Session) (receivedData : string) : Session :=
  let s := if resumeTimerPending s then set_resumeTimerPending false s else s in
  if String.eqb receivedData resumedMarker
  then
    let s := set_debuggerState runnning s in
    let s := resetState s in
    let s := match scriptVersion (config s) with
             | squirrel3 => cleanupUnusedWatches s
             | squirrel2 => s
             end in
    sendEvent ContinuedEvent s
  else
    let s := set_watchesThisStep [] s in
    if resumeOnExceptions (config s)
       && negb (DebuggerState_eqb (debuggerState s) stopped)
       && includesFrom "error=" 25 (slice0 120 receivedData)
    then resetFileReferences (resumeExecution s)
    else
      match parseString receivedData with
      | XmlError message =>
          let s := sendEvent
                     (OutputEvent
                        ("An error has occured while parsing data from the server: "
                           ++ message) "stderr") s in
          resumeExecution s
      | XmlAddBreakpoint line src => parseBreakpoint s (Number line) src
      | XmlBreak attrs body =>
          if negb (String.eqb (b_desc attrs) EmptyString)
          then s
          else parseBreak attrs body s
      | XmlUpdate body => parseUpdate body s
      | XmlOther _ => s
      end.

(** [dataPackage.length > 0]. *)
Definition nonEmpty (dataPackage : string) : bool :=
  (0 <? String.length dataPackage)%nat.

(** The body of the loop over [this._bufferedData.split("\r\n")].  With
    debug logging on, the whole buffer is formatted for the log before the
    segment is decoded; a raise of the printer leaves the loop. *)
Definition receivePackage (s : Session) (dataPackage : string) : Run unit :=
  if nonEmpty dataPackage
  then
    if enableDebugLogging (config s)
    then
      match xmlFormat (bufferedData s) with
      | Some formatted =>
          let s := sendEvent
                     (OutputEvent ("Received XML from game:" ++ NL
                                     ++ formatted ++ NL)
                                  "console") s in
          Finished tt (parseReceivedData s dataPackage)
      | None => Raised s
      end
    else Finished tt (parseReceivedData s dataPackage)
  else Finished tt s.

(** [for (let dataPackage of dataPackages)]. *)
Fixpoint receiveLoop (s : Session) (dataPackages : list string) : Run unit :=
  match dataPackages with
  | [] => Finished tt s
  | dataPackage :: rest =>
      run (_, s) <- receivePackage s dataPackage;
      receiveLoop s rest
  end.

(** The end of a receive cycle. *)
Definition endReceive (s : Session) : Session :=
  let s := set_bufferedData EmptyString s in
  let s := set_usedVariableReferences [JInt 0] s in
  set_visitedTreeElements [] s.

(** The event sent by the [catch] block. *)
Definition extensionErrorStop : Event :=
  StoppedEvent "step" (Some "Stopped due to extension error").

(** [onRecieveData].  Inside the [try] block only the printer of the debug
    log raises synchronously: parser errors arrive through the callback of
    [parseString], and a raise inside the callback rejects its promise.
    The [catch] block sends a stopped event (and shows an error message in
    the editor); the statements after it run either way.  The progress
    indicator and [currentWorkPath] are not part of the session record. *)
Definition onRecieveData (s : Session) (data : string) : Session :=
  let s := set_bufferedData (bufferedData s ++ data) s in
  if negb (endsWith (bufferedData s) CRLF)
  then s
  else
    let s := set_stackFrameID 0 s in
    let s := match receiveLoop s (splitCRLF (bufferedData s)) with
             | Finished _ s => s
             | Raised s => sendEvent extensionErrorStop s
             end in
    endReceive s.

(** A sequence of socket deliveries. *)
Definition deliver (s : Session) (chunks : list string) : Session :=
  fold_left onRecieveData chunks s.

End Decoder.

End Conversion.

(* ------------------------------------------------------------------ *)
(** ** Session construction and connection (vscriptDebug.ts) *)

(** The field initialisers of [VScriptDebugSession]. *)
Definition newSession (cfg : Settings) : Session :=
  {| config := cfg;
     debuggerState := disconnected;
     socket := [];
     events := [];
     bufferedData := EmptyString;
     resumeTimerPending := false;
     pendingBreaks := [];
     localVariables := [];
     rootVariables := [];
     rootTableReference := JInt (-1);
     usedVariableReferences := [JInt 0];
     referenceTree := Node (mkReferenceVariable (JInt 0) "@root@" "r") [] 0;
     visitedTreeElements := [];
     currentParsedReferences := [];
     virtualReference := 10000%N;
     watches := [];
     watchesThisStep := [];
     entityDataWatches := [];
     watchID := 1%N;
     entityDataWatchID := 1000000%N;
     resolvedFileReferences := [];
     currentFrameID := (-1)%Z;
     startingFrameID := (-1)%Z;
     stackFrameID := 0;
     stacktraces := [];
     _breakpoints := [];
     _breakpointID := 0%N;
     _breakpointsRefCount := [];
     nextObjectId := 0;
     _notifiedFileBreakpoints := [] |}.

(** The defaults of the settings. *)
Definition defaultSettings : Settings :=
  {| scriptVersion := squirrel2;
     resumeOnExceptions := false;
     hideNativeFunctions := true;
     hideClasses := false;
     maxShortData := 4;
     enableDebugLogging := false;
     rememberFileReferencesDuringSession := false;
     displayRootTable := false |}.

(** The socket's [connect] handler. *)
Definition onConnect (s : Session) : Session :=
  let s := resetState s in
  let s := set_breakpoints [] s in
  let s := writeSocket readyCommand s in
  let s := set_debuggerState ready s in
  let s := set_notifiedFileBreakpoints [] s in
  if displayRootTable (config s)
  then
    let '(w, s) := addWatch s 0 "clone ::getroottable()" "getroottable()"
                            (-1)%Z 0%Z true in
    set_watches (watches s ++ [w])%list s
  else s.

(* ------------------------------------------------------------------ *)
(** ** Queue and breadth-first search of the reference tree
       (customInterfaces.ts, parsing.ts) *)

(** [Queue<T>]: [storage] is an array; [enqueue] pushes at its end,
    [dequeue] shifts its first element off and is [undefined] on an empty
    queue. *)
Module Queue.

Record t (T : Type) : Type := mk { storage : list T }.
Arguments mk {T} storage.
Arguments storage {T} _.

Definition new {T : Type} : t T := mk [].

Definition enqueue {T : Type} (element : T) (q : t T) : t T :=
  mk (storage q ++ [element])%list.

Definition dequeue {T : Type} (q : t T) : option T * t T :=
  match storage q with
  | [] => (None, q)
  | x :: rest => (Some x, mk rest)
  end.

Definition length {T : Type} (q : t T) : nat := List.length (storage q).

End Queue.

(** Result of [referenceTreeBFS]: the node the callback accepted, or
    [undefined]; [SearchOutOfFuel] only when the iteration budget of the
    model is exhausted. *)
Inductive SearchResult : Type :=
| Found (node : TreeNode)
| NotFound
| SearchOutOfFuel.

(** [for (let childNode of node.children)]: a child whose reference has
    not been visited is marked visited and enqueued. *)
Fixpoint enqueueChildren (children : list TreeNode) (queue : Queue.t TreeNode)
         (visited : list JsNum) : Queue.t TreeNode * list JsNum :=
  match children with
  | [] => (queue, visited)
  | childNode :: rest =>
      if negb (includes (reference (node_element childNode)) visited)
      then enqueueChildren rest (Queue.enqueue childNode queue)
                           (visited ++ [reference (node_element childNode)])%list
      else enqueueChildren rest queue visited
  end.

(** [while (queue.length() > 0)], for a callback without side effects. *)
Fixpoint searchLoop (fuel : nat) (callback : TreeNode -> bool)
         (queue : Queue.t TreeNode) (visited : list JsNum) : SearchResult :=
  if (0 <? Queue.length queue)%nat
  then
    match fuel with
    | O => SearchOutOfFuel
    | S fuel' =>
        match Queue.dequeue queue with
        | (Some node, queue) =>
            let visited := (visited ++ [reference (node_element node)])%list in
            if callback node
            then Found node
            else
              let '(queue, visited) :=
                enqueueChildren (node_children node) queue visited in
              searchLoop fuel' callback queue visited
        | (None, queue) => searchLoop fuel' callback queue visited
        end
    end
  else NotFound.

(** Number of nodes of a tree. *)
Fixpoint treeSize (t : TreeNode) : nat :=
  match t with
  | Node _ ch _ => S (fold_right (fun c acc => treeSize c + acc) 0 ch)
  end.

(** [referenceTreeBFS]: every iteration dequeues a node of the tree that
    no earlier iteration dequeued, so as many iterations as the tree has
    nodes are enough (lemma [searchLoop_finishes]). *)
Definition referenceTreeBFS (tree : TreeNode) (callback : TreeNode -> bool)
  : SearchResult :=
  let queue := Queue.new in
  let visited := [reference (node_element tree)] in
  let queue := Queue.enqueue tree queue in
  searchLoop (treeSize tree) callback queue visited.

(* ------------------------------------------------------------------ *)
(** ** Maps of arrays (utilities.ts) *)

(** [utilities.pushToMapArray]: the array under [key], created when the
    key is absent, gets [items] pushed at its end; the items are
    returned. *)
Definition pushToMapArray {K T : Type} (eqb : K -> K -> bool)
           (map : list (K * list T)) (key : K) (items : list T)
  : list T * list (K * list T) :=
  let array := match mapGet eqb key map with
               | Some a => a
               | None => []
               end in
  (items, mapSet eqb key (array ++ items)%list map).

(* ------------------------------------------------------------------ *)
(** ** Requests of the front end (vscriptDebug.ts) *)

Section Requests.

(** [utilities.getRelativeScriptPath], as in the decoder. *)
Variable getRelativeScriptPath : string -> string.

(** [breakpointLocationsRequest]: the response body, [None] when the
    handler leaves it unset.  A missing or empty [args.source.path] is
    falsy. *)
Definition breakpointLocationsRequest (sourcePath : option string) (s : Session)
  : option (list N) :=
  match sourcePath with
  | None => Some []
  | Some EmptyString => Some []
  | Some path =>
      let filename := getRelativeScriptPath path in
      match mapGet String.eqb filename (_breakpoints s) with
      | Some bps => Some (map bp_line bps)
      | None => None
      end
  end.

End Requests.

(* ------------------------------------------------------------------ *)
(** ** Vocabulary of the statements *)

(** The parts of the session that parsing locals and watch results must
    leave alone: settings, session state, both logs, the call stack, the
    ids of the tracked watches, the object graph, the suspended step-stop
    callbacks and the receive buffer. *)
Definition control (s : Session) :=
  (config s, debuggerState s, socket s, events s, stacktraces s,
   map w_id (watches s), currentParsedReferences s, pendingBreaks s,
   bufferedData s).

(** The variables stored under key 0 of [localVariables]: the locals of
    all frames of the step. *)
Definition topLevelLocals (s : Session) : list DebuggerVariable :=
  match mapGet JsNum_eqb (JInt 0) (localVariables s) with
  | Some a => a
  | None => []
  end.

Definition isContinuedEvent (e : Event) : bool :=
  match e with ContinuedEvent => true | _ => false end.

(** The events sent between [s] and [s']. *)
Definition newEvents (s s' : Session) : list Event :=
  skipn (List.length (events s)) (events s').

(** The messages written between [s] and [s']. *)
Definition newWrites (s s' : Session) : list string :=
  skipn (List.length (socket s)) (socket s').

(** [steady s s']: going from [s] to [s'] the call stack, the ids of the
    tracked watches, the settings and the receive buffer are kept, no
    stopped or continued event is sent, and the session state is kept or
    becomes [ready]. *)
Definition steady (s s' : Session) : Prop :=
  stacktraces s' = stacktraces s
  /\ filter isStoppedEvent (events s') = filter isStoppedEvent (events s)
  /\ filter isContinuedEvent (events s') = filter isContinuedEvent (events s)
  /\ map w_id (watches s') = map w_id (watches s)
  /\ config s' = config s
  /\ (debuggerState s' = debuggerState s \/ debuggerState s' = ready)
  /\ bufferedData s' = bufferedData s.

(** [calm s s']: as [steady], but the receive buffer may have changed and
    stopped events may have been sent. *)
Definition calm (s s' : Session) : Prop :=
  stacktraces s' = stacktraces s
  /\ filter isContinuedEvent (events s') = filter isContinuedEvent (events s)
  /\ map w_id (watches s') = map w_id (watches s)
  /\ config s' = config s
  /\ (debuggerState s' = debuggerState s \/ debuggerState s' = ready).

(** Objects of the graph that no visited reference names: the measure
    that bounds the recursion of [buildReferenceTree]. *)
Definition isVisited (searched : list JsNum) (o : Obj) : bool :=
  existsb (fun v => String.eqb (o_ref o) (String_ v)) searched.

Definition unvisited (referenceList : list Obj) (searched : list JsNum) : nat :=
  List.length (filter (fun o => negb (isVisited searched o)) referenceList).

(** [BuildOutOfFuel] or not. *)
Definition ranOutOfFuel (r : BuildResult) : bool :=
  match r with BuildOutOfFuel => true | _ => false end.

(** The node a call returned, if it returned one. *)
Definition builtNode (r : BuildResult) : option TreeNode :=
  match r with Built node _ => node | _ => None end.

(** The call returned or raised, and its visited list extends the one
    it was given. *)
Definition finishedFrom (searched : list JsNum) (r : BuildResult) : Prop :=
  match r with
  | Built _ searched' | BuildThrown searched' =>
      exists added, searched' = (searched ++ added)%list
  | BuildOutOfFuel => False
  end.

(** The references a call added to the visited list are exactly the
    labels of the nodes it built; they are pairwise different and none had
    been visited before. *)
Definition freshlyBuilt (searched : list JsNum) (r : BuildResult) : Prop :=
  match r with
  | Built node searched' =>
      let added := match node with
                   | Some t => treeReferences t
                   | None => []
                   end in
      searched' = (searched ++ added)%list
      /\ NoDup added
      /\ (forall x, In x added -> ~ In x searched)
  | _ => True
  end.

(** A synthetic self-referencing aggregate: a table with reference id
    [n] whose only element is a table-typed member [self] with value
    [n]. *)
Definition selfReferencing (n : N) : Obj :=
  mkObj (toString10 n) "t" EmptyString [mkElement "t" (toString10 n) "self" "s"].

(** Two aggregates that refer to each other: table 1 holds array 2,
    array 2 holds table 1 and itself. *)
Definition cyclicGraph : list Obj :=
  [mkObj "1" "t" EmptyString [mkElement "i" "10" "x" "s"; mkElement "a" "2" "items" "s"];
   mkObj "2" "a" EmptyString [mkElement "t" "1" "0" "i"; mkElement "a" "2" "1" "i"]].






(** The wire commands of the breakpoint registry for a forward-slash
    path. *)
Definition addBreakpointCommand (path : string) (line : N) : string :=
  "ab 0x" ++ toString16 line ++ ":" ++ path ++ NL.

Definition removeBreakpointCommand (path : string) (line : N) : string :=
  "rb 0x" ++ toString16 line ++ ":" ++ path ++ NL.

(** The reference count as the data model describes it: the number of
    paths with this basename that currently hold a breakpoint on this
    line. *)
Definition spec_refCount (base : string) (line : N) (s : Session) : nat :=
  List.length
    (filter (fun kv => String.eqb (basename (fst kv)) base && hasLine (snd kv) line)
            (_breakpoints s)).

(** The session that the [try] block of [onRecieveData] and its [catch]
    leave. *)
Definition caught (r : Run unit) : Session :=
  match r with
  | Finished _ s => s
  | Raised s => sendEvent extensionErrorStop s
  end.

(** The line the debug log shows before a segment is decoded. *)
Definition logReceived (formatted : string) (s : Session) : Session :=
  sendEvent (OutputEvent ("Received XML from game:" ++ NL ++ formatted ++ NL)
                         "console") s.

(** The decoder's test for skipping the parse of a frame. *)
Definition autoResumes (s : Session) (receivedData : string) : bool :=
  resumeOnExceptions (config s)
  && negb (DebuggerState_eqb (debuggerState s) stopped)
  && includesFrom "error=" 25 (slice0 120 receivedData).

(** *** Refresh frames

    The numbers of a frame that the parse converts with [Number]: a value
    of aggregate type is the reference id of an object, a watch result
    carries the id of its watch.  The server writes them as strings of
    decimal digits; up to 2^53 these denote integers that a double holds
    exactly. *)
Definition exactNumber (text : string) : bool :=
  match Number text with
  | JInt z => (z <=? 9007199254740992)%Z
  | JNaN => false
  end.

(** The object that [referenceList.find] returns for a reference. *)
Definition referenced (refs : list Obj) (reference : JsNum) : option Obj :=
  find (fun e => String.eqb (o_ref e) (String_ reference)) refs.

Definition isReferenced (refs : list Obj) (reference : JsNum) : bool :=
  match referenced refs reference with
  | Some _ => true
  | None => false
  end.

(** A value of aggregate type names an object of the frame. *)
Definition resolves (refs : list Obj) (value : string) : bool :=
  exactNumber value && isReferenced refs (Number value).

(** An element whose value is an aggregate names an object of the frame,
    and an instance key is an exact number. *)
Definition elementWellFormed (refs : list Obj) (e : Element) : bool :=
  (if isComplexDataType (el_vt e) then resolves refs (el_v e) else true)
  && (if String.eqb (el_kt e) "x" then exactNumber (el_kv e) else true).

(** An object whose elements are well formed; a [Vector] has its three
    components. *)
Definition objectWellFormed (refs : list Obj) (o : Obj) : bool :=
  forallb (elementWellFormed refs) (o_e o)
  && (if String.eqb (o_typeof o) "Vector"
      then (3 <=? List.length (o_e o))%nat
      else true).

Definition localWellFormed (refs : list Obj) (l : LocalXml) : bool :=
  if isComplexDataType (lx_type l) then resolves refs (lx_val l) else true.

Definition watchWellFormed (refs : list Obj) (wx : WatchXml) : bool :=
  exactNumber (wx_id wx)
  && (if String.eqb (wx_status wx) "ok" && isComplexDataType (wx_type wx)
      then resolves refs (wx_val wx)
      else true).

Definition callWellFormed (refs : list Obj) (call : CallXml) : bool :=
  forallb (watchWellFormed refs) (c_w call)
  && forallb (localWellFormed refs) (c_l call).

(** The root table, when it is displayed and known, is an object of the
    frame. *)
Definition rootWellFormed (refs : list Obj) (s : Session) : bool :=
  if displayRootTable (config s) && isNonNegative (rootTableReference s)
  then isReferenced refs (rootTableReference s)
  else true.

(** A refresh frame with objects [refs] and calls [calls], received in
    session [s], in which every reference resolves: the frames for which
    no conversion raises. *)
Definition wellFormedUpdate (s : Session) (refs : list Obj) (calls : list CallXml)
  : bool :=
  forallb (objectWellFormed refs) refs
  && negb (Nat.eqb (List.length calls) 0)
  && forallb (callWellFormed refs) calls
  && rootWellFormed refs s.

(** An object list closed under the references of its elements. *)
Definition closedList (refs : list Obj) : Prop :=
  forall o e, In o refs -> In e (o_e o) -> isComplexDataType (el_vt e) = true ->
              isReferenced refs (Number (el_v e)) = true.

(** A call of the tree builder that did not raise. *)
Definition neverThrown (r : BuildResult) : Prop :=
  match r with BuildThrown _ => False | _ => True end.










(* ------------------------------------------------------------------ *)
(** ** Example sessions *)

Definition mainSource : Source := mkSource "main.nut" "main.nut" false.

(** A connected session with the default settings. *)
Definition connectedSession : Session := onConnect (newSession defaultSettings).

(** Two tracked watches, ids 1 and 2. *)
Definition twoWatches : Session :=
  let s := snd (addWatch connectedSession 1 "a.b" EmptyString 0%Z 0%Z true) in
  snd (addWatch s 2 "c" EmptyString 0%Z 0%Z true).

(** The connected session stopped with two frames on the call stack. *)
Definition twoFrames : Session :=
  set_debuggerState stopped
    (set_stacktraces [mkStackFrame 0 "inner" mainSource (JInt 7);
                      mkStackFrame 1 "main" mainSource (JInt 12)]
                     connectedSession).

(** The session with two tracked watches, stopped with two frames on the
    call stack. *)
Definition watchingSession : Session :=
  set_debuggerState stopped
    (set_stacktraces [mkStackFrame 0 "inner" mainSource (JInt 7);
                      mkStackFrame 1 "main" mainSource (JInt 12)]
                     twoWatches).


(** Example frames.  [attr] writes one XML attribute. *)
Definition attr (name value : string) : string :=
  " " ++ name ++ "=" ++ DQUOTE ++ value ++ DQUOTE.

Definition stepBodyText : string :=
  "<objs><o" ++ attr "ref" "0" ++ attr "type" "t" ++ "><e" ++ attr "kt" "s"
    ++ attr "kv" "x" ++ attr "vt" "i" ++ attr "v" "10" ++ "/></o></objs>"
    ++ "<calls><call" ++ attr "fnc" "main" ++ attr "src" "main.nut"
    ++ attr "line" "5" ++ "><l" ++ attr "name" "x" ++ attr "type" "i"
    ++ attr "val" "10" ++ "/><l" ++ attr "name" "this" ++ attr "type" "t"
    ++ attr "val" "0" ++ "/></call></calls>".

Definition stepBody : Payload :=
  mkPayload (Some [mkObj "0" "t" EmptyString [mkElement "i" "10" "x" "s"]])
            [mkCallXml "main" "main.nut" "5" []
                       [mkLocalXml "x" "i" "10"; mkLocalXml "this" "t" "0"]].

Definition updateFrame : string := "<update>" ++ stepBodyText ++ "</update>".

(** An exception frame with the [error] attribute early in the tag, and
    one with the [error] attribute after [line] and [src]. *)
Definition earlyMarkerFrame : string :=
  "<break" ++ attr "type" "error" ++ attr "error" "boom" ++ attr "line" "5"
    ++ attr "src" "main.nut" ++ ">" ++ stepBodyText ++ "</break>".

Definition lateMarkerFrame : string :=
  "<break" ++ attr "type" "error" ++ attr "line" "5" ++ attr "src" "main.nut"
    ++ attr "error" "boom" ++ ">" ++ stepBodyText ++ "</break>".

Definition errorAttrs : BreakAttrs := mkBreakAttrs "error" "5" "main.nut" EmptyString "boom".

(** A refresh frame whose call carries, after the locals, the results of
    watches 1 and 2. *)
Definition refreshFrame : string :=
  "<update><objs><o" ++ attr "ref" "0" ++ attr "type" "t" ++ "><e" ++ attr "kt" "s"
    ++ attr "kv" "x" ++ attr "vt" "i" ++ attr "v" "10" ++ "/></o></objs>"
    ++ "<calls><call" ++ attr "fnc" "main" ++ attr "src" "main.nut"
    ++ attr "line" "5" ++ "><l" ++ attr "name" "x" ++ attr "type" "i"
    ++ attr "val" "10" ++ "/><l" ++ attr "name" "this" ++ attr "type" "t"
    ++ attr "val" "0" ++ "/><w" ++ attr "id" "1" ++ attr "status" "ok"
    ++ attr "type" "i" ++ attr "val" "10" ++ "/><w" ++ attr "id" "2"
    ++ attr "status" "error" ++ "/></call></calls></update>".

Definition refreshObjects : list Obj :=
  [mkObj "0" "t" EmptyString [mkElement "i" "10" "x" "s"]].

Definition refreshCalls : list CallXml :=
  [mkCallXml "main" "main.nut" "5"
             [mkWatchXml "1" "ok" "10" "i";
              mkWatchXml "2" "error" EmptyString EmptyString]
             [mkLocalXml "x" "i" "10"; mkLocalXml "this" "t" "0"]].

Definition refreshBody : Payload := mkPayload (Some refreshObjects) refreshCalls.

(** A refresh frame in which a string of the first object reads
    [error=5]. *)
Definition errorTextFrame : string :=
  "<update><objs><o" ++ attr "ref" "0" ++ attr "type" "t" ++ "><e" ++ attr "kt" "s"
    ++ attr "kv" "msg" ++ attr "vt" "s" ++ attr "v" "error=5" ++ "/></o></objs>"
    ++ "<calls><call" ++ attr "fnc" "main" ++ attr "src" "main.nut"
    ++ attr "line" "5" ++ "><l" ++ attr "name" "this" ++ attr "type" "t"
    ++ attr "val" "0" ++ "/></call></calls></update>".

Definition errorTextObjects : list Obj :=
  [mkObj "0" "t" EmptyString [mkElement "s" "error=5" "msg" "s"]].

Definition errorTextCalls : list CallXml :=
  [mkCallXml "main" "main.nut" "5" [] [mkLocalXml "this" "t" "0"]].

Definition errorTextBody : Payload :=
  mkPayload (Some errorTextObjects) errorTextCalls.

(** The XML parser on the example frames. *)
Definition exampleParse (data : string) : ParsedXml :=
  if String.eqb data "<resumed/>" then XmlOther "resumed"
  else if String.eqb data updateFrame then XmlUpdate stepBody
  else if String.eqb data refreshFrame then XmlUpdate refreshBody
  else if String.eqb data errorTextFrame then XmlUpdate errorTextBody
  else if String.eqb data earlyMarkerFrame then XmlBreak errorAttrs stepBody
  else if String.eqb data lateMarkerFrame then XmlBreak errorAttrs stepBody
  else XmlError "Unexpected input".

Definition examplePaths (p : string) : string := p.

(** The number conversion on the plain decimal numerals of the example
    frames: the text of the number is the numeral. *)
Definition exampleNumbers (value : string) : string := value.

(** The printer of the debug log on the example buffers: a buffer that
    holds one frame is printed as that frame, a buffer that holds several
    is not one document, and the printer raises. *)
Definition exampleFormat (buffer : string) : option string :=
  match filter (fun segment => (0 <? String.length segment)%nat)
               (splitCRLF buffer) with
  | [frame] => Some frame
  | _ => None
  end.

(** A connected session with the debug log enabled. *)
Definition loggingSettings : Settings :=
  {| scriptVersion := squirrel2;
     resumeOnExceptions := false;
     hideNativeFunctions := true;
     hideClasses := false;
     maxShortData := 4;
     enableDebugLogging := true;
     rememberFileReferencesDuringSession := false;
     displayRootTable := false |}.

Definition loggingSession : Session := onConnect (newSession loggingSettings).

(** A connected session of the newer engine variant with break-on-exception
    disabled, one cached file resolution and two tracked watches, none of
    them validated in the last step. *)
Definition resumingSettings : Settings :=
  {| scriptVersion := squirrel3;
     resumeOnExceptions := true;
     hideNativeFunctions := true;
     hideClasses := false;
     maxShortData := 4;
     enableDebugLogging := false;
     rememberFileReferencesDuringSession := false;
     displayRootTable := false |}.

Definition resumingSession : Session :=
  let s := onConnect (newSession resumingSettings) in
  let s := snd (addWatch s 1 "a.b" EmptyString 0%Z 0%Z true) in
  let s := snd (addWatch s 2 "c" EmptyString 0%Z 0%Z true) in
  set_resolvedFileReferences
    [("main.nut", mkFileReferenceData "scripts/vscripts/main.nut" 1)] s.

(* ------------------------------------------------------------------ *)
(** ** Further vocabulary and examples *)

(** Enqueue the elements of a list, first element first. *)
Definition enqueueAll {T : Type} (xs : list T) (q : Queue.t T) : Queue.t T :=
  fold_left (fun q x => Queue.enqueue x q) xs q.

(** [n] calls of [dequeue]: the elements handed out, and the queue left. *)
Fixpoint dequeueMany {T : Type} (n : nat) (q : Queue.t T) : list T * Queue.t T :=
  match n with
  | O => ([], q)
  | S n' =>
      match Queue.dequeue q with
      | (Some x, q') => let '(xs, q'') := dequeueMany n' q' in (x :: xs, q'')
      | (None, q') => dequeueMany n' q'
      end
  end.

(** The nodes of a tree, parent first. *)
Fixpoint subtrees (t : TreeNode) : list TreeNode :=
  match t with
  | Node _ ch _ => t :: flat_map subtrees ch
  end.

(** A root with reference 0 over a table with server reference 0 that
    holds an array with reference 3. *)
Definition shadowedTree : TreeNode :=
  Node (mkReferenceVariable (JInt 0) "@root@" "r")
       [Node (mkReferenceVariable (JInt 0) "this" "t")
             [Node (mkReferenceVariable (JInt 3) "items" "a") [] 0] 0]
       0.

(** A root over two tables, the second holding an array. *)
Definition smallTree : TreeNode :=
  Node (mkReferenceVariable (JInt 0) "@root@" "r")
       [Node (mkReferenceVariable (JInt 1) "a" "t") [] 0;
        Node (mkReferenceVariable (JInt 2) "b" "t")
             [Node (mkReferenceVariable (JInt 3) "items" "a") [] 0] 0]
       0.

Definition hasName (name : string) (node : TreeNode) : bool :=
  String.eqb (firstName (node_element node)) name.

(** Nodes in the trees waiting in the queue: the measure that bounds the
    iterations of [referenceTreeBFS]. *)
Definition queueSize (q : Queue.t TreeNode) : nat :=
  fold_right (fun c acc => treeSize c + acc) 0 (Queue.storage q).

(** The references below the roots of the trees of a list. *)
Definition innerReferences (l : list TreeNode) : list JsNum :=
  flat_map (fun r => flat_map treeReferences (node_children r)) l.

(** The invariant of the search on a tree with pairwise different
    references: the references of the waiting trees are pairwise different,
    and none below a waiting root has been visited. *)
Definition searchInvariant (q : Queue.t TreeNode) (visited : list JsNum) : Prop :=
  NoDup (flat_map treeReferences (Queue.storage q))
  /\ forall x, In x (innerReferences (Queue.storage q)) -> ~ In x visited.

(** *** The breakpoint registry and its requests *)

(** Every breakpoint of the registry has an id below the id counter. *)
Definition idsBelow (s : Session) : Prop :=
  forall path bps bp,
    In (path, bps) (_breakpoints s) -> In bp bps -> (bp_id bp < _breakpointID s)%N.

(** Every key of the reference-count map is an array object created
    earlier. *)
Definition keysCreated (s : Session) : Prop :=
  Forall (fun kv => (key_obj (fst kv) < nextObjectId s)%nat) (_breakpointsRefCount s).

(** The verification state reported for a requested line: that of the
    first breakpoint the path held on the line, or verified. *)
Definition reportedVerified (original : list IBreakpoint) (line : N) : bool :=
  match find (fun searchedBp => N.eqb (bp_line searchedBp) line) original with
  | Some existingBp => bp_verified existingBp
  | None => true
  end.

(** The first [n] ids from [first] on. *)
Definition idsFrom (first : N) (n : nat) : list N :=
  map (fun i => (first + N.of_nat i)%N) (seq 0 n).

(** The breakpoints [setBreakPointsRequest] builds for the requested
    lines, ids counted from [first]. *)
Fixpoint newBreakpoints (original : list IBreakpoint) (first : N) (lines : list N)
  : list IBreakpoint :=
  match lines with
  | [] => []
  | line :: rest =>
      mkBreakpoint first line (reportedVerified original line)
      :: newBreakpoints original (first + 1) rest
  end.

(** The contents of the reference-count map: basename, line and count of
    every entry, in insertion order. *)
Definition refCountEntries (s : Session) : list (string * N * Z) :=
  map (fun kv => (key_base (fst kv), key_line (fst kv), snd kv))
      (_breakpointsRefCount s).

(** [new] is [old] with some breakpoints turned verified: same ids and
    lines in the same order, and no verified breakpoint turned
    unverified. *)
Definition onlyVerifies (old new : list IBreakpoint) : Prop :=
  Forall2 (fun a b => bp_id b = bp_id a /\ bp_line b = bp_line a
                      /\ (bp_verified a = true -> bp_verified b = true))
          old new.

(** Every breakpoint of the registry is verified. *)
Definition allVerified (s : Session) : Prop :=
  forall path bps bp,
    In (path, bps) (_breakpoints s) -> In bp bps -> bp_verified bp = true.

(* ================================================================== *)
(** * Properties *)

(** Case analysis on the debug-logging switch wherever [debugPrint]
    consults it. *)
Ltac split_debugPrint :=
  unfold debugPrint;
  repeat match goal with
         | |- context [if enableDebugLogging ?c then _ else _] =>
             destruct (enableDebugLogging c); simpl
         end.

(** ** Lists and maps *)

Lemma find_some_split {A : Type} (p : A -> bool) (l : list A) (w : A) :
  find p l = Some w ->
  exists before after,
    l = (before ++ w :: after)%list
    /\ p w = true
    /\ removeFirst p l = (before ++ after)%list
    /\ Forall (fun x => p x = false) before.
Proof.
  induction l as [|x rest IH]; simpl; intros Hf; [discriminate|].
  destruct (p x) eqn:Hpx.
  - injection Hf as <-. exists [], rest. simpl. rewrite Hpx. auto.
  - destruct (IH Hf) as (b & a & -> & Hw & Hr & Hall).
    exists (x :: b), a. simpl. rewrite Hr. auto.
Qed.

Lemma find_none_iff {A : Type} (p : A -> bool) (l : list A) :
  find p l = None <-> forall x, In x l -> p x = false.
Proof.
  split.
  - intros H x Hin. exact (find_none p l H x Hin).
  - induction l as [|y rest IH]; simpl; intros H; [reflexivity|].
    rewrite (H y (or_introl eq_refl)). apply IH. intros x Hx. apply H. now right.
Qed.

Lemma find_app_none {A : Type} (p : A -> bool) (l1 l2 : list A) :
  find p l1 = None -> find p (l1 ++ l2)%list = find p l2.
Proof.
  induction l1 as [|x rest IH]; simpl; [reflexivity|].
  destruct (p x); [discriminate | exact IH].
Qed.

Lemma find_some_exists {A : Type} (p : A -> bool) (l : list A) (x : A) :
  In x l -> p x = true -> exists w, find p l = Some w.
Proof.
  intros Hin Hp. destruct (find p l) as [w|] eqn:Hf; [now exists w|].
  rewrite find_none_iff in Hf. rewrite (Hf x Hin) in Hp. discriminate.
Qed.

(** ** The watch manager *)

Lemma socket_writeSocket (msg : string) (s : Session) :
  socket (writeSocket msg s) = (socket s ++ [msg])%list.
Proof. reflexivity. Qed.

(** C9.  Removing, with table bookkeeping, a watch whose id lacks the
    reserved bit: when an entry with that id is tracked, exactly one entry
    (the first with that id) leaves the watch list and exactly one
    remove-watch command is written; when no entry has that id, the
    session is unchanged, so nothing is removed and nothing is written. *)
Theorem removeWatch_regular_exactly_one (s : Session) (id : N) :
  isRegularWatchId id = true ->
  ((exists w, In w (watches s) /\ w_id w = id) ->
   exists before w after,
     watches s = (before ++ w :: after)%list
     /\ w_id w = id
     /\ watches (removeWatch s id true) = (before ++ after)%list
     /\ S (List.length (watches (removeWatch s id true))) = List.length (watches s)
     /\ socket (removeWatch s id true) = (socket s ++ [removeWatchCommand id])%list)
  /\ ((forall w, In w (watches s) -> w_id w <> id) ->
      removeWatch s id true = s).
Proof.
  intros Hreg. unfold removeWatch. simpl. rewrite Hreg. split.
  - intros (w0 & Hin & Hid).
    destruct (find_some_exists (fun e => N.eqb (w_id e) id) (watches s) w0 Hin)
      as [w Hf]; [now apply N.eqb_eq|].
    rewrite Hf.
    destruct (find_some_split _ _ _ Hf) as (b & a & Hl & Hw & Hr & _).
    exists b, w, a. simpl. rewrite Hr.
    repeat split; auto.
    + now apply N.eqb_eq.
    + rewrite Hl, !length_app. simpl. lia.
  - intros Hnone.
    assert (Hf : find (fun e => N.eqb (w_id e) id) (watches s) = None).
    { apply find_none_iff. intros x Hx. apply N.eqb_neq. now apply Hnone. }
    now rewrite Hf.
Qed.

Lemma removeWatch_regular_exactly_one_witness :
  (exists before w after,
      watches twoWatches = (before ++ w :: after)%list
      /\ w_id w = 2%N
      /\ watches (removeWatch twoWatches 2 true) = (before ++ after)%list
      /\ S (List.length (watches (removeWatch twoWatches 2 true)))
         = List.length (watches twoWatches)
      /\ socket (removeWatch twoWatches 2 true)
         = (socket twoWatches ++ [removeWatchCommand 2])%list)
  /\ removeWatch twoWatches 7 true = twoWatches.
Proof.
  split.
  - apply (removeWatch_regular_exactly_one twoWatches 2); [reflexivity|].
    exists (newDebuggerWatch 2 "c"). split; [simpl; auto | reflexivity].
  - apply (removeWatch_regular_exactly_one twoWatches 7); [reflexivity|].
    intros w [<-|[<-|[]]]; discriminate.
Defined.

Lemma addWatch_tracked (s : Session) (id : N) (expression displayName : string)
      (variableReference frameID : Z) (w : DebuggerWatch) :
  isRegularWatchId id = true ->
  find (fun e => String.eqb (w_expression e) expression) (watches s) = Some w ->
  addWatch s id expression displayName variableReference frameID true = (w, s).
Proof.
  intros Hreg Hf. unfold addWatch. simpl. now rewrite Hreg, Hf.
Qed.

(** C3 as stated fails: with the expression already tracked, a regular
    table-affecting [addWatch] writes nothing to the socket. *)
Lemma addWatch_tracked_expression_sends_nothing :
  let s1 := snd (addWatch connectedSession 1 "a.b" EmptyString 0%Z 0%Z true) in
  let s2 := snd (addWatch s1 2 "a.b" EmptyString 0%Z 0%Z true) in
  isRegularWatchId 2 = true
  /\ socket s2 = socket s1
  /\ ~ In (addWatchCommand 2 "a.b") (socket s2).
Proof.
  simpl. repeat split.
  intros [H|[H|[]]]; discriminate.
Qed.

(** C3, amended.  [addWatch] writes the add-watch command
    [aw 0x<hex id>:<expression>] on every call except a regular,
    table-affecting call whose expression is already tracked; that call
    leaves the session unchanged and returns the tracked watch.  A regular
    table-affecting call leaves the expression tracked, and a further one
    with the same expression adds no entry and writes nothing. *)
Theorem addWatch_command_and_dedup
        (s : Session) (id : N) (expression displayName : string)
        (variableReference frameID : Z) (affectTables : bool) :
  let r := addWatch s id expression displayName variableReference frameID
                    affectTables in
  (if affectTables && isRegularWatchId id && watchExists s id expression
   then snd r = s /\ In (fst r) (watches s) /\ w_expression (fst r) = expression
   else socket (snd r) = (socket s ++ [addWatchCommand id expression])%list)
  /\ (affectTables = true -> isRegularWatchId id = true ->
      watchExists (snd r) id expression = true
      /\ forall (id2 : N) (displayName2 : string) (variableReference2 frameID2 : Z),
          isRegularWatchId id2 = true ->
          let r2 := addWatch (snd r) id2 expression displayName2
                             variableReference2 frameID2 true in
          watches (snd r2) = watches (snd r)
          /\ socket (snd r2) = socket (snd r)
          /\ In (fst r2) (watches (snd r))).
Proof.
  set (p := fun e : DebuggerWatch => String.eqb (w_expression e) expression).
  assert (Hfound : forall st i, isRegularWatchId i = true ->
            watchExists st i expression = true ->
            exists w, find p (watches st) = Some w).
  { intros st i Hi. unfold watchExists. rewrite Hi. fold p.
    destruct (find p (watches st)) as [w|]; [eauto | discriminate]. }
  simpl. split.
  - unfold addWatch, watchExists. fold p.
    destruct affectTables; simpl; [|reflexivity].
    destruct (isRegularWatchId id); simpl; [|reflexivity].
    destruct (find p (watches s)) as [w|] eqn:Hf; simpl; [|reflexivity].
    repeat split.
    + exact (proj1 (find_some p (watches s) Hf)).
    + apply String.eqb_eq. exact (proj2 (find_some p (watches s) Hf)).
  - intros -> Hreg.
    assert (Hex : watchExists
                    (snd (addWatch s id expression displayName variableReference
                                   frameID true)) id expression = true).
    { unfold watchExists, addWatch. simpl. rewrite Hreg. fold p.
      destruct (find p (watches s)) as [w|] eqn:Hf; simpl.
      - fold p. now rewrite Hf.
      - fold p. rewrite (find_app_none _ _ _ Hf). simpl.
        unfold p at 1. simpl. now rewrite String.eqb_refl. }
    split; [exact Hex|].
    intros id2 dn2 vr2 fr2 Hreg2.
    destruct (Hfound _ _ Hreg Hex) as [w Hw].
    rewrite (addWatch_tracked _ id2 expression dn2 vr2 fr2 w Hreg2 Hw). simpl.
    repeat split. exact (proj1 (find_some p _ Hw)).
Qed.

Lemma addWatch_command_and_dedup_witness :
  let r := addWatch connectedSession 1 "a.b" EmptyString 0%Z 0%Z true in
  watchExists (snd r) 1 "a.b" = true
  /\ forall (id2 : N) (displayName2 : string) (variableReference2 frameID2 : Z),
      isRegularWatchId id2 = true ->
      let r2 := addWatch (snd r) id2 "a.b" displayName2
                         variableReference2 frameID2 true in
      watches (snd r2) = watches (snd r)
      /\ socket (snd r2) = socket (snd r)
      /\ In (fst r2) (watches (snd r)).
Proof.
  apply (addWatch_command_and_dedup connectedSession 1 "a.b" EmptyString 0%Z 0%Z true);
    reflexivity.
Defined.

(** ** Resume and step-out *)

(** The loop of [resumeExecution] over the entity-data watches only
    writes remove-watch commands. *)
Lemma resume_loop_effect (ws : list DebuggerWatch) (s : Session) :
  let s' := fold_left (fun st watch => removeWatch st (w_id watch) false) ws s in
  socket s' = (socket s ++ map (fun w => removeWatchCommand (w_id w)) ws)%list
  /\ debuggerState s' = debuggerState s
  /\ config s' = config s
  /\ events s' = events s
  /\ stacktraces s' = stacktraces s
  /\ watches s' = watches s
  /\ bufferedData s' = bufferedData s.
Proof.
  revert s. induction ws as [|w rest IH]; intros s; simpl.
  - now rewrite app_nil_r.
  - destruct (IH (removeWatch s (w_id w) false))
      as (Hs & Hd & Hc & He & Ht & Hw & Hb).
    simpl in *. rewrite Hs, Hd, Hc, He, Ht, Hw, Hb. unfold removeWatch. simpl.
    rewrite <- app_assoc. auto 8.
Qed.

Lemma socket_debugPrint (m : string) (s : Session) :
  socket (debugPrint m s) = socket s.
Proof. unfold debugPrint. now destruct (enableDebugLogging (config s)). Qed.

Lemma debuggerState_debugPrint (m : string) (s : Session) :
  debuggerState (debugPrint m s) = debuggerState s.
Proof. unfold debugPrint. now destruct (enableDebugLogging (config s)). Qed.

Lemma entityDataWatches_debugPrint (m : string) (s : Session) :
  entityDataWatches (debugPrint m s) = entityDataWatches s.
Proof. unfold debugPrint. now destruct (enableDebugLogging (config s)). Qed.

(** What [resumeExecution] writes and where it leaves the session. *)
Lemma resumeExecution_effect (s : Session) :
  socket (resumeExecution s)
  = (socket s
       ++ map (fun w => removeWatchCommand (w_id w))
              (arrayMapToArray (entityDataWatches s))
       ++ (match debuggerState s with errored => [readyCommand] | _ => [] end)
       ++ [resumeCommand])%list
  /\ entityDataWatches (resumeExecution s) = []
  /\ entityDataWatchID (resumeExecution s) = 1000000%N
  /\ debuggerState (resumeExecution s) = ready.
Proof.
  unfold resumeExecution.
  set (ws := arrayMapToArray (entityDataWatches s)).
  set (s1 := if negb (rememberFileReferencesDuringSession (config s))
             then set_resolvedFileReferences [] s else s).
  assert (H1 : socket s1 = socket s /\ debuggerState s1 = debuggerState s).
  { unfold s1. now destruct (negb _). }
  destruct H1 as [Hs1 Hd1].
  destruct (resume_loop_effect ws s1) as (Hs & Hd & _). simpl in Hs, Hd.
  set (s2 := fold_left (fun st watch => removeWatch st (w_id watch) false) ws s1) in *.
  simpl. rewrite Hd, Hd1.
  repeat split; destruct (debuggerState s); simpl; split_debugPrint;
    rewrite ?Hs, ?Hs1, <- ?app_assoc; reflexivity.
Qed.

Lemma removeWatchCommand_not_stepOut (id : N) :
  removeWatchCommand id <> stepOutCommand.
Proof. unfold removeWatchCommand. simpl. discriminate. Qed.

(** C10.  Step-out with more than one frame on the call stack writes
    exactly the step-out command [sr] and leaves the session state and the
    entity-data watches alone.  Otherwise it is a full resume: a
    remove-watch command for each entity-data watch, [rd] when the session
    had stopped on an error, then [go]; no [sr] is written, the
    entity-data watches are cleared and the session state becomes ready. *)
Theorem stepOut_sr_or_resume (s : Session) :
  ((1 < List.length (stacktraces s))%nat ->
   socket (stepOut s) = (socket s ++ [stepOutCommand])%list
   /\ debuggerState (stepOut s) = debuggerState s
   /\ entityDataWatches (stepOut s) = entityDataWatches s)
  /\ ((List.length (stacktraces s) <= 1)%nat ->
      stepOut s = resumeExecution s
      /\ (exists written,
             socket (stepOut s) = (socket s ++ written ++ [resumeCommand])%list
             /\ ~ In (stepOutCommand) (written ++ [resumeCommand])%list)
      /\ entityDataWatches (stepOut s) = []
      /\ debuggerState (stepOut s) = ready).
Proof.
  unfold stepOut. split; intros Hlen.
  - apply Nat.ltb_lt in Hlen. rewrite Hlen.
    rewrite socket_debugPrint, debuggerState_debugPrint, entityDataWatches_debugPrint.
    auto.
  - assert (Hf : (1 <? List.length (stacktraces s))%nat = false)
      by (apply Nat.ltb_ge; exact Hlen).
    rewrite Hf.
    destruct (resumeExecution_effect s) as (Hs & He & _ & Hd).
    repeat split; auto.
    exists (map (fun w => removeWatchCommand (w_id w))
                (arrayMapToArray (entityDataWatches s))
            ++ match debuggerState s with errored => [readyCommand] | _ => [] end)%list.
    split.
    + rewrite Hs, <- !app_assoc. reflexivity.
    + intros Hin. apply in_app_or in Hin. destruct Hin as [Hin|[Hin|[]]].
      * apply in_app_or in Hin. destruct Hin as [Hin|Hin].
        -- apply in_map_iff in Hin. destruct Hin as (w & Hw & _).
           exact (removeWatchCommand_not_stepOut _ Hw).
        -- destruct (debuggerState s); simpl in Hin;
             try contradiction; destruct Hin as [Hin|[]]; discriminate.
      * discriminate.
Qed.

Lemma stepOut_sr_or_resume_witness :
  (socket (stepOut twoFrames) = (socket twoFrames ++ [stepOutCommand])%list
   /\ debuggerState (stepOut twoFrames) = debuggerState twoFrames
   /\ entityDataWatches (stepOut twoFrames) = entityDataWatches twoFrames)
  /\ (stepOut connectedSession = resumeExecution connectedSession
      /\ (exists written,
             socket (stepOut connectedSession)
             = (socket connectedSession ++ written ++ [resumeCommand])%list
             /\ ~ In stepOutCommand (written ++ [resumeCommand])%list)
      /\ entityDataWatches (stepOut connectedSession) = []
      /\ debuggerState (stepOut connectedSession) = ready).
Proof.
  split.
  - apply (stepOut_sr_or_resume twoFrames). simpl. lia.
  - apply (stepOut_sr_or_resume connectedSession). simpl. lia.
Defined.

(** ** Strings and the split on the terminator *)

Lemma append_assoc (a b c : string) : (a ++ b) ++ c = a ++ (b ++ c).
Proof. induction a as [|x a IH]; simpl; [reflexivity | now rewrite IH]. Qed.

Lemma append_nil_r (a : string) : a ++ EmptyString = a.
Proof. induction a as [|x a IH]; simpl; [reflexivity | now rewrite IH]. Qed.

Lemma split_from_not_nil (s cur : string) : split_from cur s <> [].
Proof.
  revert cur. induction s as [|c s' IH]; intros cur; simpl; [discriminate|].
  destruct s' as [|d rest]; [discriminate|].
  destruct (Ascii.eqb c CR && Ascii.eqb d LF); [discriminate | apply IH].
Qed.

Lemma joinCRLF_cons (x : string) (l : list string) :
  l <> [] -> joinCRLF (x :: l) = x ++ CRLF ++ joinCRLF l.
Proof. destruct l; [congruence | reflexivity]. Qed.

(** Induction on strings two characters at a time, as [split_from]
    recurses. *)
Lemma string_ind2 (P : string -> Prop) :
  P EmptyString ->
  (forall c, P (String c EmptyString)) ->
  (forall c d rest, P rest -> P (String d rest) -> P (String c (String d rest))) ->
  forall s, P s.
Proof.
  intros H0 H1 H2.
  assert (H : forall s, P s /\ forall c, P (String c s)).
  { induction s as [|d rest [IHa IHb]]; split; auto. }
  intros s. apply H.
Qed.

(** Joining the segments with the terminator gives the buffer back. *)
Lemma join_split_from (s cur : string) : joinCRLF (split_from cur s) = cur ++ s.
Proof.
  revert cur. induction s as [| c | c d rest IHrest IHs] using string_ind2;
    intros cur.
  - simpl. now rewrite append_nil_r.
  - simpl. reflexivity.
  - change (split_from cur (String c (String d rest)))
      with (if Ascii.eqb c CR && Ascii.eqb d LF
            then cur :: split_from EmptyString rest
            else split_from (cur ++ String c EmptyString) (String d rest)).
    destruct (Ascii.eqb c CR && Ascii.eqb d LF) eqn:E.
    + apply andb_true_iff in E. destruct E as [Ec Ed].
      apply Ascii.eqb_eq in Ec, Ed. subst c d.
      rewrite joinCRLF_cons by apply split_from_not_nil.
      rewrite IHrest. reflexivity.
    + rewrite IHs, append_assoc. reflexivity.
Qed.

Lemma containsCRLF_snoc_step (c : ascii) (cur : string) (x : ascii) :
  containsCRLF (String c cur ++ String x EmptyString)
  = match cur with
    | EmptyString => Ascii.eqb c CR && Ascii.eqb x LF
    | String d _ => (Ascii.eqb c CR && Ascii.eqb d LF)
                    || containsCRLF (cur ++ String x EmptyString)
    end.
Proof. destruct cur; simpl; [now rewrite orb_false_r | reflexivity]. Qed.

Lemma containsCRLF_snoc (cur : string) (x : ascii) :
  containsCRLF (cur ++ String x EmptyString)
  = containsCRLF cur
    || (match lastChar cur with Some c => Ascii.eqb c CR | None => false end
        && Ascii.eqb x LF).
Proof.
  induction cur as [|c cur IH]; [reflexivity|].
  rewrite containsCRLF_snoc_step. destruct cur as [|d cur'].
  - simpl. reflexivity.
  - rewrite IH. simpl. now rewrite orb_assoc.
Qed.

Lemma lastChar_snoc (cur : string) (x : ascii) :
  lastChar (cur ++ String x EmptyString) = Some x.
Proof.
  induction cur as [|c cur IH]; [reflexivity|].
  simpl. destruct (cur ++ String x EmptyString) eqn:E; [|exact IH].
  destruct cur; discriminate.
Qed.

(** No segment contains the terminator. *)
Lemma split_from_segments (s cur : string) :
  containsCRLF cur = false ->
  (match lastChar cur, s with
   | Some c, String d _ => Ascii.eqb c CR && Ascii.eqb d LF
   | _, _ => false
   end) = false ->
  Forall (fun seg => containsCRLF seg = false) (split_from cur s).
Proof.
  revert cur. induction s as [| c | c d rest IHrest IHs] using string_ind2;
    intros cur Hcur Hedge.
  - simpl. auto.
  - simpl. constructor; [|constructor].
    rewrite containsCRLF_snoc, Hcur. simpl.
    destruct (lastChar cur); [exact Hedge | reflexivity].
  - change (split_from cur (String c (String d rest)))
      with (if Ascii.eqb c CR && Ascii.eqb d LF
            then cur :: split_from EmptyString rest
            else split_from (cur ++ String c EmptyString) (String d rest)).
    destruct (Ascii.eqb c CR && Ascii.eqb d LF) eqn:E.
    + constructor; [exact Hcur|]. apply IHrest; reflexivity.
    + apply IHs.
      * rewrite containsCRLF_snoc, Hcur. simpl.
        destruct (lastChar cur); [exact Hedge | reflexivity].
      * rewrite lastChar_snoc. exact E.
Qed.

Lemma splitCRLF_spec (b : string) :
  joinCRLF (splitCRLF b) = b
  /\ Forall (fun seg => containsCRLF seg = false) (splitCRLF b).
Proof.
  split.
  - apply (join_split_from b EmptyString).
  - apply split_from_segments; reflexivity.
Qed.

(** ** The receive loop *)

Section DecoderProperties.

Variable numberText : string -> string.
Variable getRelativeScriptPath : string -> string.
Variable parseString : string -> ParsedXml.
Variable xmlFormat : string -> option string.

Local Abbreviation receive :=
  (onRecieveData numberText getRelativeScriptPath parseString xmlFormat).
Local Abbreviation package :=
  (receivePackage numberText getRelativeScriptPath parseString xmlFormat).
Local Abbreviation loop :=
  (receiveLoop numberText getRelativeScriptPath parseString xmlFormat).
Local Abbreviation decode :=
  (parseReceivedData numberText getRelativeScriptPath parseString).

Lemma receive_unterminated (s : Session) (data : string) :
  endsWith (bufferedData s ++ data) CRLF = false ->
  receive s data = set_bufferedData (bufferedData s ++ data) s.
Proof.
  intros H. unfold onRecieveData. simpl. now rewrite H.
Qed.

Lemma receive_terminated (s : Session) (data : string) :
  endsWith (bufferedData s ++ data) CRLF = true ->
  receive s data
  = endReceive
      (caught
         (loop (set_stackFrameID 0 (set_bufferedData (bufferedData s ++ data) s))
               (splitCRLF (bufferedData s ++ data)))).
Proof.
  intros H. unfold onRecieveData. simpl. now rewrite H.
Qed.

Lemma loop_skips_empty (l : list string) (s : Session) :
  loop s l = loop s (filter nonEmpty l).
Proof.
  revert s. induction l as [|x rest IH]; intros s; [reflexivity|].
  cbn [receiveLoop filter]. destruct (nonEmpty x) eqn:E.
  - cbn [receiveLoop]. destruct (package s x) as [[] s1|s1]; simpl; [apply IH|reflexivity].
  - unfold receivePackage. rewrite E. simpl. apply IH.
Qed.

Lemma deliver_unterminated (chunks : list string) (s : Session) :
  (forall k, (0 < k <= List.length chunks)%nat ->
             endsWith (bufferedData s ++ concatStrings (firstn k chunks)) CRLF = false) ->
  deliver numberText getRelativeScriptPath parseString xmlFormat s chunks
  = set_bufferedData (bufferedData s ++ concatStrings chunks) s.
Proof.
  revert s. induction chunks as [|c rest IH]; intros s H.
  - simpl. rewrite append_nil_r. now destruct s.
  - assert (H1 : endsWith (bufferedData s ++ c) CRLF = false).
    { specialize (H 1%nat). simpl in H. rewrite append_nil_r in H.
      apply H. lia. }
    pose proof (receive_unterminated s c H1) as E.
    unfold deliver in *. simpl. rewrite E, IH.
    + simpl. rewrite append_assoc. reflexivity.
    + intros k Hk. simpl. rewrite append_assoc.
      apply (H (S k)). simpl. lia.
Qed.

(** ** Parsing locals and watch results leaves the control state alone *)

Lemma JsNum_eqb_eq (a b : JsNum) : JsNum_eqb a b = true <-> a = b.
Proof.
  destruct a as [x|], b as [y|]; simpl; split; intros H;
    try discriminate; try reflexivity.
  - apply Z.eqb_eq in H. now subst.
  - injection H as ->. apply Z.eqb_refl.
Qed.

Lemma JsNum_eqb_refl (a : JsNum) : JsNum_eqb a a = true.
Proof. now apply JsNum_eqb_eq. Qed.

Lemma strict_eqb_eq (a b : JsNum) : strict_eqb a b = true -> a = b.
Proof.
  destruct a as [x|], b as [y|]; simpl; intros H; try discriminate.
  apply Z.eqb_eq in H. now subst.
Qed.

Lemma replaceWatch_ids (w : DebuggerWatch) (l : list DebuggerWatch) :
  map w_id (replaceWatch w l) = map w_id l.
Proof.
  unfold replaceWatch. rewrite map_map. apply map_ext. intros e.
  unfold sameWatch. destruct (N.eqb (w_id e) (w_id w)) eqn:E; [|reflexivity].
  apply N.eqb_eq in E. now destruct (String.eqb _ _).
Qed.

Lemma replaceFirst_absent {A : Type} (p : A -> bool) (x : A) (l : list A) :
  find p l = None -> replaceFirst p x l = l.
Proof.
  induction l as [|y rest IH]; simpl; intros Hf; [reflexivity|].
  destruct (p y); [discriminate | now rewrite IH].
Qed.

(** Storing a watch keeps the ids. *)
Lemma storeWatch_control (watchId : JsNum) (w : DebuggerWatch) (s : Session) :
  control (storeWatch watchId w s) = control s
  /\ localVariables (storeWatch watchId w s) = localVariables s.
Proof.
  unfold storeWatch.
  destruct (isRegularWatchNum watchId); [|split; reflexivity].
  split; [|reflexivity].
  unfold control. simpl. now rewrite replaceWatch_ids.
Qed.

Lemma watchHasId_id (watchId : JsNum) (w : DebuggerWatch) :
  watchHasId watchId w = true ->
  w_id w = match watchId with JInt z => Z.to_N z | JNaN => w_id w end.
Proof.
  unfold watchHasId. intros H. apply strict_eqb_eq in H. subst watchId.
  now rewrite N2Z.id.
Qed.

Lemma parseWatch_control (s : Session) (watch : WatchXml) (currentFrame : nat) :
  control (runSession (parseWatch numberText s watch currentFrame)) = control s
  /\ localVariables (runSession (parseWatch numberText s watch currentFrame))
     = localVariables s.
Proof.
  unfold parseWatch.
  set (watchId := Number (wx_id watch)).
  destruct (if isRegularWatchNum watchId
            then find (watchHasId watchId) (watches s)
            else find (watchHasId watchId) (arrayMapToArray (entityDataWatches s)))
    as [w|] eqn:Hfind; [|split; reflexivity].
  destruct (String.eqb (wx_status watch) "ok").
  - destruct (variableToValue numberText s (wx_val watch) (wx_type watch)); simpl.
    + destruct (isComplexDataType (wx_type watch) && strict_eqb watchId (JInt 0));
        simpl; apply storeWatch_control.
    + apply storeWatch_control.
  - destruct (String.eqb (wx_status watch) "error"); simpl;
      apply storeWatch_control.
Qed.

Lemma growReferenceTree_control (r : JsNum) (name type : string) (s : Session) :
  control (runSession (growReferenceTree r name type s)) = control s
  /\ localVariables (runSession (growReferenceTree r name type s))
     = localVariables s.
Proof.
  unfold growReferenceTree.
  destruct (buildReferenceTree (currentParsedReferences s) r name type 0
                               (visitedTreeElements s)) as [node sr|sr|]; simpl.
  - destruct node as [n|]; simpl; [|split; reflexivity].
    destruct (referenceTree s); split; reflexivity.
  - split; reflexivity.
  - split; reflexivity.
Qed.

Lemma parseLocalVariable_control (s : Session) (local : LocalXml) (cf : nat) :
  control (runSession (parseLocalVariable numberText s local cf)) = control s
  /\ localVariables (runSession (parseLocalVariable numberText s local cf)) = localVariables s
  /\ forall v s', parseLocalVariable numberText s local cf = Finished v s' ->
                  v_name v = lx_name local.
Proof.
  unfold parseLocalVariable.
  destruct (variableToValue numberText s (lx_val local) (lx_type local)) as [value|];
    [|repeat split; discriminate].
  destruct (isComplexDataType (lx_type local));
    [|repeat split; intros v s' [= <- _]; reflexivity].
  destruct (growReferenceTree_control (Number (lx_val local)) (lx_name local)
                                      (lx_type local) s) as [Hc Hl].
  destruct (growReferenceTree (Number (lx_val local)) (lx_name local)
                              (lx_type local) s) as [[] s1|s1]; simpl in *;
    [|repeat split; auto; discriminate].
  destruct (displayRootTable (config s1) && isNonNegative (rootTableReference s1));
    [|repeat split; auto; intros v s' [= <- _]; reflexivity].
  destruct (growReferenceTree_control (rootTableReference s1) "@ROOTTABLE@" "t" s1)
    as [Hc2 Hl2].
  destruct (growReferenceTree (rootTableReference s1) "@ROOTTABLE@" "t" s1)
    as [[] s2|s2]; simpl in *.
  - repeat split; try congruence. intros v s' [= <- _]. reflexivity.
  - repeat split; congruence.
Qed.

Lemma mapGet_mapSet_same {K V : Type} (eqb : K -> K -> bool) (k : K) (v : V)
      (m : list (K * V)) :
  eqb k k = true -> mapGet eqb k (mapSet eqb k v m) = Some v.
Proof.
  intros Hrefl. induction m as [|[k' x] rest IH]; cbn [mapGet mapSet].
  - now rewrite Hrefl.
  - destruct (eqb k k') eqn:E; cbn [mapGet]; rewrite E; [reflexivity | exact IH].
Qed.

Lemma pushLocal_effect (v : DebuggerVariable) (s : Session) :
  control (pushLocal v s) = control s
  /\ topLevelLocals (pushLocal v s) = (topLevelLocals s ++ [v])%list.
Proof.
  split; [reflexivity|].
  unfold topLevelLocals, pushLocal. simpl.
  now rewrite mapGet_mapSet_same by reflexivity.
Qed.

Lemma parseWatches_control (ws : list WatchXml) (s : Session) (cf : nat) :
  control (runSession (parseWatches numberText s ws cf)) = control s
  /\ localVariables (runSession (parseWatches numberText s ws cf)) = localVariables s.
Proof.
  revert s. induction ws as [|w rest IH]; intros s; simpl; [split; reflexivity|].
  destruct (parseWatch_control s w cf) as [Hc Hl].
  destruct (parseWatch numberText s w cf) as [[] s1|s1]; simpl in *; [|now split].
  destruct (IH s1) as [Hc1 Hl1]. split; congruence.
Qed.

(** The locals of a call: the control state is kept; when the loop runs
    to its end, one variable per [<l>] entry has been appended, in order,
    under its name. *)
Lemma parseLocals_control (ls : list LocalXml) (s : Session) (cf : nat) :
  control (runSession (parseLocals numberText s ls cf)) = control s
  /\ forall s', parseLocals numberText s ls cf = Finished tt s' ->
       exists vs, topLevelLocals s' = (topLevelLocals s ++ vs)%list
                  /\ map v_name vs = map lx_name ls.
Proof.
  revert s. induction ls as [|l rest IH]; intros s; simpl.
  - split; [reflexivity|]. intros s' [= <-]. exists []. now rewrite app_nil_r.
  - destruct (parseLocalVariable_control s l cf) as (Hc & Hl & Hn).
    destruct (parseLocalVariable numberText s l cf) as [v s1|s1]; simpl in *;
      [|split; [exact Hc | discriminate]].
    destruct (IH (pushLocal v s1)) as [Hc1 Hfin].
    destruct (pushLocal_effect v s1) as [Hc2 Hp].
    split; [congruence|].
    intros s' Hs'. destruct (Hfin s' Hs') as (vs & Hvs & Hnames).
    exists (v :: vs). split.
    + assert (Htl : topLevelLocals s1 = topLevelLocals s)
        by (unfold topLevelLocals; now rewrite Hl).
      rewrite Hvs, Hp, Htl. now rewrite <- app_assoc.
    + simpl. now rewrite Hnames, (Hn v s1 eq_refl).
Qed.

Lemma parseCallsOfUpdate_control (calls : list CallXml) (s : Session) (cf : nat) :
  control (runSession (parseCallsOfUpdate numberText s calls cf)) = control s
  /\ forall s', parseCallsOfUpdate numberText s calls cf = Finished tt s' ->
       exists vs, topLevelLocals s' = (topLevelLocals s ++ vs)%list
                  /\ map v_name vs = map lx_name (flat_map c_l calls).
Proof.
  revert s cf. induction calls as [|c rest IH]; intros s cf; simpl.
  - split; [reflexivity|]. intros s' [= <-]. exists []. now rewrite app_nil_r.
  - destruct (parseWatches_control (c_w c) s cf) as [Hc Hl].
    destruct (parseWatches numberText s (c_w c) cf) as [[] s1|s1]; simpl in *;
      [|split; [exact Hc | discriminate]].
    destruct (parseLocals_control (c_l c) s1 cf) as [Hc1 Hfin1].
    destruct (parseLocals numberText s1 (c_l c) cf) as [[] s2|s2]; simpl in *;
      [|split; [congruence | discriminate]].
    destruct (IH s2 (S cf)) as [Hc2 Hfin2].
    split; [congruence|].
    intros s' Hs'.
    destruct (Hfin1 s2 eq_refl) as (vs1 & Hvs1 & Hn1).
    destruct (Hfin2 s' Hs') as (vs2 & Hvs2 & Hn2).
    exists (vs1 ++ vs2)%list. split.
    + assert (Htl : topLevelLocals s1 = topLevelLocals s)
        by (unfold topLevelLocals; now rewrite Hl).
      rewrite Hvs2, Hvs1, Htl. now rewrite <- app_assoc.
    + now rewrite !map_app, Hn1, Hn2.
Qed.

(** ** What a receive cycle can and cannot do *)

Lemma steady_refl (s : Session) : steady s s.
Proof. unfold steady. auto 8. Qed.

Lemma steady_trans (a b c : Session) : steady a b -> steady b c -> steady a c.
Proof.
  unfold steady. intros (H1 & H2 & H3 & H4 & H5 & H6 & H7) (K1 & K2 & K3 & K4 & K5 & K6 & K7).
  repeat split; try congruence.
  destruct K6 as [K6|K6]; [|now right].
  destruct H6 as [H6|H6]; [left | right]; congruence.
Qed.

Lemma control_steady (s s' : Session) : control s' = control s -> steady s s'.
Proof.
  unfold control, steady. intros [= Hc Hd Hso He Ht Hw Hr Hp Hb].
  repeat split; try congruence. now left.
Qed.

Lemma filter_snoc {A : Type} (p : A -> bool) (l : list A) (x : A) :
  filter p (l ++ [x])%list = (filter p l ++ if p x then [x] else [])%list.
Proof. rewrite filter_app. reflexivity. Qed.

(** Sending an event that is neither a stopped nor a continued event. *)
Lemma sendEvent_steady (e : Event) (s : Session) :
  isStoppedEvent e = false -> isContinuedEvent e = false ->
  steady s (sendEvent e s).
Proof.
  intros Hs Hc. unfold steady, sendEvent. simpl.
  rewrite !filter_snoc, Hs, Hc, !app_nil_r. auto 8.
Qed.

Lemma debugPrint_steady (m : string) (s : Session) : steady s (debugPrint m s).
Proof.
  unfold debugPrint. destruct (enableDebugLogging (config s));
    [now apply sendEvent_steady | apply steady_refl].
Qed.

Lemma resetFileReferences_steady (s : Session) : steady s (resetFileReferences s).
Proof. unfold steady. simpl. auto 8. Qed.

Lemma steady_calm (s s' : Session) : steady s s' -> calm s s'.
Proof. unfold steady, calm. intros (H1 & H2 & H3 & H4 & H5 & H6 & H7). auto 7. Qed.

Lemma calm_trans (a b c : Session) : calm a b -> calm b c -> calm a c.
Proof.
  unfold calm. intros (H1 & H2 & H3 & H4 & H5) (K1 & K2 & K3 & K4 & K5).
  repeat split; try congruence.
  destruct K5 as [K5|K5]; [|now right].
  destruct H5 as [H5|H5]; [left | right]; congruence.
Qed.

Lemma beginStep_steady (objs : list Obj) (s : Session) : steady s (beginStep objs s).
Proof. unfold steady. simpl. auto 8. Qed.

Lemma parseBreak_steady (attrs : BreakAttrs) (body : Payload) (s : Session) :
  steady s (parseBreak attrs body s).
Proof.
  unfold parseBreak. destruct (p_objs body) as [objs|]; [|apply steady_refl].
  destruct (p_calls body); [apply beginStep_steady|].
  eapply steady_trans; [apply (beginStep_steady objs)|].
  unfold steady. simpl. auto 8.
Qed.

Lemma startDecode_steady (s : Session) :
  steady s (set_watchesThisStep []
              (if resumeTimerPending s then set_resumeTimerPending false s else s)).
Proof. destruct (resumeTimerPending s); unfold steady; simpl; auto 8. Qed.

Lemma resumeExecution_steady (s : Session) : steady s (resumeExecution s).
Proof.
  unfold resumeExecution.
  set (ws := arrayMapToArray (entityDataWatches s)).
  set (s1 := if negb (rememberFileReferencesDuringSession (config s))
             then set_resolvedFileReferences [] s else s).
  assert (H1 : steady s s1).
  { unfold s1. destruct (negb _); [|apply steady_refl].
    unfold steady. simpl. auto 8. }
  destruct (resume_loop_effect ws s1) as (_ & Hd & Hc & He & Ht & Hw & Hb).
  simpl in Hd, Hc, He, Ht, Hw, Hb.
  set (s2 := fold_left (fun st watch => removeWatch st (w_id watch) false) ws s1) in *.
  assert (H2 : steady s1 s2).
  { unfold steady. rewrite He, Ht, Hw, Hc, Hd, Hb. auto 8. }
  apply (steady_trans _ s1 _ H1). apply (steady_trans _ s2 _ H2).
  set (s3 := set_entityDataWatchID 1000000%N (set_entityDataWatches [] s2)).
  assert (H3 : steady s2 s3) by (unfold steady; simpl; auto 8).
  apply (steady_trans _ s3 _ H3).
  set (s4 := match debuggerState s3 with
             | errored =>
                 debugPrint "Sending 'rd' message (ready)" (writeSocket readyCommand s3)
             | _ => s3
             end).
  assert (H4 : steady s3 s4).
  { unfold s4. destruct (debuggerState s3); try apply steady_refl.
    apply (steady_trans _ (writeSocket readyCommand s3));
      [unfold steady; simpl; auto 8 | apply debugPrint_steady]. }
  apply (steady_trans _ s4 _ H4).
  apply (steady_trans _ (debugPrint "Sending 'go' message (resume)"
                                    (writeSocket resumeCommand s4))).
  - apply (steady_trans _ (writeSocket resumeCommand s4));
      [unfold steady; simpl; auto 8 | apply debugPrint_steady].
  - unfold steady. simpl. auto 8.
Qed.

Lemma verifyBreakpointAt_steady (key : string) (bpLine : JsNum) (s : Session) :
  steady s (verifyBreakpointAt key bpLine s).
Proof.
  unfold verifyBreakpointAt.
  destruct (find (breakpointHasLine bpLine) (breakpointsOf key s));
    [|apply steady_refl].
  eapply steady_trans; [|now apply sendEvent_steady].
  unfold steady. simpl. auto 8.
Qed.

Lemma parseUpdate_steady (body : Payload) (s : Session) :
  steady s (parseUpdate numberText body s).
Proof.
  unfold parseUpdate. destruct (p_objs body) as [objs|]; [|apply steady_refl].
  pose proof (beginStep_steady objs s) as H0.
  set (s0 := beginStep objs s) in *.
  destruct (p_calls body) as [|c rest] eqn:Hcalls; cbv beta iota zeta; [exact H0|].
  destruct (parseCallsOfUpdate_control (c :: rest) s0 0) as [Hc _].
  destruct (parseCallsOfUpdate numberText s0 (c :: rest) 0) as [[] s1|s1]; simpl in Hc.
  - apply (steady_trans _ s0 _ H0).
    apply (steady_trans _ s1); [now apply control_steady|].
    now apply sendEvent_steady.
  - apply (steady_trans _ s0 _ H0). now apply control_steady.
Qed.

Lemma index_ge (needle s : string) (from m : nat) :
  String.index from needle s = Some m -> (from <= m)%nat.
Proof.
  revert from m. induction s as [|b s' IH]; intros from m; simpl.
  - destruct from; [|discriminate]. destruct needle; [|discriminate].
    intros [= <-]. lia.
  - destruct from as [|from'].
    + intros _. lia.
    + destruct (String.index from' needle s') as [k|] eqn:E; [|discriminate].
      intros [= <-]. apply IH in E. lia.
Qed.

(** [includes(needle, from)] finds an occurrence at an offset of at
    least [from], and only that. *)
Lemma includesFrom_spec (needle s : string) (from : nat) :
  needle <> EmptyString ->
  includesFrom needle from s = true
  <-> exists i, (from <= i)%nat /\ String.substring i (String.length needle) s = needle.
Proof.
  intros Hne. unfold includesFrom. split.
  - destruct (String.index from needle s) as [m|] eqn:E; [|discriminate].
    intros _. exists m. split; [exact (index_ge _ _ _ _ E)|].
    exact (String.index_correct1 _ _ _ _ E).
  - intros (i & Hi & Hsub).
    destruct (String.index from needle s) as [m|] eqn:E; [reflexivity|].
    exfalso. exact (String.index_correct3 _ i _ _ E Hne Hi Hsub).
Qed.

Lemma substring_length_le (s : string) (i k : nat) :
  (String.length (String.substring i k s) <= k)%nat.
Proof.
  revert i k. induction s as [|c s IH]; intros i k.
  - destruct i, k; simpl; lia.
  - destruct i as [|i]; destruct k as [|k]; simpl; try lia.
    + specialize (IH 0%nat k). lia.
    + apply IH.
    + apply IH.
Qed.

Lemma substring_zero (s : string) (i : nat) : String.substring i 0 s = EmptyString.
Proof.
  revert i. induction s as [|c s IH]; intros i; destruct i; simpl; auto.
Qed.

Lemma substring_empty (i k : nat) : String.substring i k EmptyString = EmptyString.
Proof. destruct i, k; reflexivity. Qed.

Lemma substring_of_prefix (s : string) (i k n : nat) :
  String.substring i k (String.substring 0 n s)
  = String.substring i (Nat.min k (n - i)) s.
Proof.
  revert i k n. induction s as [|c s IH]; intros i k n.
  - now rewrite !substring_empty.
  - destruct n as [|n].
    + change (String.substring 0 0 (String c s)) with EmptyString.
      now rewrite Nat.sub_0_l, Nat.min_0_r, substring_zero, substring_empty.
    + destruct i as [|i].
      * destruct k as [|k]; [reflexivity|].
        simpl. f_equal. rewrite (IH 0%nat k n). now rewrite Nat.sub_0_r.
      * simpl. apply IH.
Qed.

(** The window of the pre-check: an occurrence of the marker that starts
    at offset 25 or later and ends within the first 120 characters. *)
Lemma error_marker_window (data : string) :
  includesFrom "error=" 25 (slice0 120 data) = true
  <-> exists i, (25 <= i)%nat /\ (i + 6 <= 120)%nat
                /\ String.substring i 6 data = "error=".
Proof.
  rewrite includesFrom_spec by discriminate. unfold slice0. simpl String.length.
  split; intros (i & Hi & H).
  - rewrite substring_of_prefix in H.
    destruct (Nat.le_gt_cases (i + 6) 120) as [Hle|Hgt].
    + exists i. repeat split; auto.
      now rewrite Nat.min_l in H by lia.
    + exfalso.
      pose proof (substring_length_le data i (Nat.min 6 (120 - i))) as Hlen.
      rewrite H in Hlen. change (String.length "error=") with 6%nat in Hlen. lia.
  - destruct H as [Hle H]. exists i. split; [exact Hi|].
    rewrite substring_of_prefix. now rewrite Nat.min_l by lia.
Qed.


Lemma parseBreakpoint_steady (s : Session) (bpLine : JsNum) (bpFile : string) :
  steady s (parseBreakpoint getRelativeScriptPath s bpLine bpFile).
Proof.
  unfold parseBreakpoint.
  destruct (mapGet String.eqb (getRelativeScriptPath bpFile) (_breakpoints s));
    [apply verifyBreakpointAt_steady|].
  generalize (map fst (_breakpoints s)). intros keys.
  assert (H : forall st, steady s st ->
            steady s (fold_left
                        (fun st key =>
                           if String.eqb (basename key) (getRelativeScriptPath bpFile)
                           then verifyBreakpointAt key bpLine st
                           else st) keys st)).
  { induction keys as [|k rest IH]; intros st Hst; simpl; [exact Hst|].
    apply IH. destruct (String.eqb (basename k) (getRelativeScriptPath bpFile));
      [|exact Hst].
    eapply steady_trans; [exact Hst | apply verifyBreakpointAt_steady]. }
  apply H, steady_refl.
Qed.

(** The session a frame other than the resumed marker is decoded in:
    the step timer cancelled and the validated-watch list emptied. *)
Lemma decode_not_resumed (s : Session) (data : string) :
  String.eqb data resumedMarker = false ->
  parseReceivedData numberText getRelativeScriptPath parseString s data
  = let s0 := set_watchesThisStep []
                (if resumeTimerPending s then set_resumeTimerPending false s else s) in
    if autoResumes s data
    then resetFileReferences (resumeExecution s0)
    else match parseString data with
         | XmlError message =>
             resumeExecution
               (sendEvent
                  (OutputEvent
                     ("An error has occured while parsing data from the server: "
                        ++ message) "stderr") s0)
         | XmlAddBreakpoint line src =>
             parseBreakpoint getRelativeScriptPath s0 (Number line) src
         | XmlBreak attrs body =>
             if negb (String.eqb (b_desc attrs) EmptyString) then s0
             else parseBreak attrs body s0
         | XmlUpdate body => parseUpdate numberText body s0
         | XmlOther _ => s0
         end.
Proof.
  intros E. unfold parseReceivedData, autoResumes. rewrite E.
  destruct (resumeTimerPending s); reflexivity.
Qed.

Lemma decode_steady (s : Session) (data : string) :
  String.eqb data resumedMarker = false ->
  steady s (parseReceivedData numberText getRelativeScriptPath parseString s data).
Proof.
  intros E. rewrite (decode_not_resumed s data E). cbv zeta.
  pose proof (startDecode_steady s) as H0.
  set (s0 := set_watchesThisStep [] _) in *.
  destruct (autoResumes s data).
  - apply (steady_trans _ s0 _ H0).
    apply (steady_trans _ (resumeExecution s0)); [apply resumeExecution_steady|].
    apply resetFileReferences_steady.
  - destruct (parseString data) as [m|line src|attrs body|body|root].
    + apply (steady_trans _ s0 _ H0).
      eapply steady_trans; [|apply resumeExecution_steady].
      now apply sendEvent_steady.
    + apply (steady_trans _ s0 _ H0). apply parseBreakpoint_steady.
    + destruct (negb (String.eqb (b_desc attrs) EmptyString)); [exact H0|].
      apply (steady_trans _ s0 _ H0). apply parseBreak_steady.
    + apply (steady_trans _ s0 _ H0). apply parseUpdate_steady.
    + exact H0.
Qed.

Lemma segment_not_marker (seg : string) :
  containsCRLF seg = false -> String.eqb seg resumedMarker = false.
Proof.
  intros H. apply String.eqb_neq. intros ->. discriminate.
Qed.

Lemma package_steady (s : Session) (seg : string) :
  String.eqb seg resumedMarker = false ->
  steady s (runSession (package s seg)).
Proof.
  intros E. unfold receivePackage. destruct (nonEmpty seg); [|apply steady_refl].
  destruct (enableDebugLogging (config s)).
  - destruct (xmlFormat (bufferedData s)) as [formatted|]; [|apply steady_refl].
    cbn [runSession].
    eapply steady_trans; [|apply (decode_steady _ _ E)].
    now apply sendEvent_steady.
  - apply (decode_steady _ _ E).
Qed.

Lemma loop_steady (segs : list string) (s : Session) :
  Forall (fun seg => containsCRLF seg = false) segs ->
  steady s (runSession (loop s segs)).
Proof.
  revert s. induction segs as [|seg rest IH]; intros s Hall; [apply steady_refl|].
  inversion Hall as [|? ? Hseg Hrest]; subst.
  pose proof (package_steady s seg (segment_not_marker seg Hseg)) as H1.
  cbn [receiveLoop].
  destruct (package s seg) as [[] s1|s1]; cbn [runBind runSession] in *; [|exact H1].
  exact (steady_trans _ _ _ H1 (IH s1 Hrest)).
Qed.

(** No receive cycle recognises the resumed acknowledgement: the split
    strips the terminator the decoder compares against, so whatever is
    delivered, the session state is kept or becomes [ready] (never
    running), no continued event is sent and no tracked watch is
    removed. *)
Lemma receive_calm (s : Session) (data : string) :
  calm s (receive s data).
Proof.
  unfold onRecieveData. cbv zeta.
  set (s1 := set_bufferedData (bufferedData s ++ data) s).
  destruct (negb (endsWith (bufferedData s1) CRLF));
    [unfold calm; simpl; auto 7|].
  set (s2 := set_stackFrameID 0 s1).
  assert (H2 : calm s s2) by (unfold calm; simpl; auto 7).
  pose proof (loop_steady (splitCRLF (bufferedData s2)) s2
                          (proj2 (splitCRLF_spec _))) as H.
  apply steady_calm in H.
  assert (Hend : forall st, calm st (endReceive st))
    by (intros st; unfold calm; simpl; auto 7).
  destruct (loop s2 (splitCRLF (bufferedData s2))) as [[] s3|s3];
    cbn [runSession] in H.
  - exact (calm_trans _ _ _ (calm_trans _ _ _ H2 H) (Hend s3)).
  - refine (calm_trans _ _ _ (calm_trans _ _ _ (calm_trans _ _ _ H2 H) _) (Hend _)).
    unfold calm, sendEvent. simpl. rewrite filter_snoc. simpl.
    rewrite app_nil_r. auto 7.
Qed.

(** The loop over the segments of a terminated buffer: without the debug
    log every non-empty segment is decoded; with it, the buffer is printed
    before each segment when the printer accepts the buffer, and the loop
    is left at the first non-empty segment when the printer raises. *)
Lemma loop_decodes (buffer : string) (cfg : Settings) (segs : list string)
      (s : Session) :
  Forall (fun seg => containsCRLF seg = false) segs ->
  config s = cfg -> bufferedData s = buffer ->
  (enableDebugLogging cfg = false ->
   loop s segs = Finished tt (fold_left decode (filter nonEmpty segs) s))
  /\ (forall formatted,
         enableDebugLogging cfg = true -> xmlFormat buffer = Some formatted ->
         loop s segs
         = Finished tt (fold_left (fun st seg => decode (logReceived formatted st) seg)
                                  (filter nonEmpty segs) s))
  /\ (enableDebugLogging cfg = true -> xmlFormat buffer = None ->
      filter nonEmpty segs <> [] -> loop s segs = Raised s).
Proof.
  intros Hall. revert s.
  induction Hall as [|seg rest Hseg Hrest IH]; intros s Hcfg Hbuf.
  - repeat split; try reflexivity. intros _ _ H. now contradiction H.
  - pose proof (segment_not_marker seg Hseg) as Hm.
    cbn [receiveLoop filter]. unfold receivePackage.
    destruct (nonEmpty seg) eqn:Hne.
    + rewrite Hcfg, Hbuf. split; [|split].
      * intros Hlog. rewrite Hlog. cbn [runBind fold_left].
        destruct (decode_steady s seg Hm) as (_ & _ & _ & _ & Hc & _ & Hb).
        rewrite Hcfg in Hc. rewrite Hbuf in Hb.
        destruct (IH (decode s seg) Hc Hb) as (Hoff & _ & _).
        exact (Hoff Hlog).
      * intros formatted Hlog Hfmt. rewrite Hlog, Hfmt. cbn [runBind fold_left].
        fold (logReceived formatted s).
        destruct (decode_steady (logReceived formatted s) seg Hm)
          as (_ & _ & _ & _ & Hc & _ & Hb).
        change (config (logReceived formatted s)) with (config s) in Hc.
        change (bufferedData (logReceived formatted s)) with (bufferedData s) in Hb.
        rewrite Hcfg in Hc. rewrite Hbuf in Hb.
        destruct (IH (decode (logReceived formatted s) seg) Hc Hb) as (_ & Hon & _).
        exact (Hon formatted Hlog Hfmt).
      * intros Hlog Hfmt _. now rewrite Hlog, Hfmt.
    + cbn [runBind]. exact (IH s Hcfg Hbuf).
Qed.

(** C7 (defect of the code).  A delivery after which the buffer does not
    end with the terminator only extends the buffer: no segment reaches the
    decoder, and this holds along any sequence of such deliveries.  When
    input comes in two chunks of which only the second completes the
    buffer, the session after the first chunk differs from the one before
    by the buffer alone, and the second chunk makes the loop run over the
    buffer split on the terminator: the segments joined with the terminator
    are the buffer and none contains the terminator.  Without the debug
    log every non-empty segment is passed to [parseReceivedData] on its
    own, in order; with the debug log the whole buffer goes to the printer
    before each segment, so the segments are decoded (each after a log
    line) only when the printer accepts the buffer, and when it raises, as
    it does on coalesced frames, no segment is decoded and the stopped
    event of the [catch] block is sent. *)
Theorem frames_decoded_only_after_terminator :
  (forall (s : Session) (data : string),
      endsWith (bufferedData s ++ data) CRLF = false ->
      receive s data = set_bufferedData (bufferedData s ++ data) s)
  /\ (forall (chunks : list string) (s : Session),
         (forall k, (0 < k <= List.length chunks)%nat ->
                    endsWith (bufferedData s ++ concatStrings (firstn k chunks))
                             CRLF = false) ->
         deliver numberText getRelativeScriptPath parseString xmlFormat s chunks
         = set_bufferedData (bufferedData s ++ concatStrings chunks) s)
  /\ (forall (s : Session) (c1 c2 : string),
         endsWith (bufferedData s ++ c1) CRLF = false ->
         endsWith (bufferedData s ++ c1 ++ c2) CRLF = true ->
         let buffer := bufferedData s ++ c1 ++ c2 in
         let segments := filter nonEmpty (splitCRLF buffer) in
         let start := set_stackFrameID 0 (set_bufferedData buffer s) in
         receive s c1 = set_bufferedData (bufferedData s ++ c1) s
         /\ joinCRLF (splitCRLF buffer) = buffer
         /\ Forall (fun seg => containsCRLF seg = false) (splitCRLF buffer)
         /\ (enableDebugLogging (config s) = false ->
             receive (receive s c1) c2
             = endReceive (fold_left decode segments start))
         /\ (forall formatted,
                enableDebugLogging (config s) = true ->
                xmlFormat buffer = Some formatted ->
                receive (receive s c1) c2
                = endReceive
                    (fold_left (fun st seg => decode (logReceived formatted st) seg)
                               segments start))
         /\ (enableDebugLogging (config s) = true ->
             xmlFormat buffer = None ->
             segments <> [] ->
             receive (receive s c1) c2
             = endReceive (sendEvent extensionErrorStop start))).
Proof.
  split; [exact receive_unterminated|].
  split; [exact deliver_unterminated|].
  intros s c1 c2 H1 H2 buffer segments start.
  rewrite (receive_unterminated s c1 H1).
  destruct (splitCRLF_spec buffer) as [Hjoin Hsegs].
  split; [reflexivity|]. split; [exact Hjoin|]. split; [exact Hsegs|].
  assert (Hrun : receive (set_bufferedData (bufferedData s ++ c1) s) c2
                 = endReceive (caught (loop start (splitCRLF buffer)))).
  { rewrite receive_terminated; simpl; rewrite append_assoc; [reflexivity|exact H2]. }
  rewrite Hrun.
  destruct (loop_decodes buffer (config s) (splitCRLF buffer) start Hsegs
                         eq_refl eq_refl) as (Hoff & Hon & Hraise).
  split; [|split].
  - intros Hlog. now rewrite (Hoff Hlog).
  - intros formatted Hlog Hfmt. now rewrite (Hon formatted Hlog Hfmt).
  - intros Hlog Hfmt Hne. now rewrite (Hraise Hlog Hfmt Hne).
Qed.

(** C2 (defect of the code).  Delivering the resumed acknowledgement
    [<resumed/>] followed by the terminator to a session with an empty
    buffer does not do what the claim describes: the session state does not
    become running (it is kept or becomes [ready]), no continued event is
    sent, and no tracked watch is pruned, for either engine variant and
    whatever the XML parser makes of the segment.  The receive loop hands
    the decoder the segment without its terminator, and the decoder
    compares it with the marker including the terminator. *)
Theorem resumed_frame_is_not_recognised (s : Session) :
  let s0 := set_bufferedData EmptyString s in
  let s' := onRecieveData numberText getRelativeScriptPath parseString xmlFormat
                          s0 resumedMarker in
  splitCRLF resumedMarker = ["<resumed/>"; EmptyString]
  /\ String.eqb "<resumed/>" resumedMarker = false
  /\ (debuggerState s' = debuggerState s \/ debuggerState s' = ready)
  /\ filter isContinuedEvent (events s') = filter isContinuedEvent (events s)
  /\ map w_id (watches s') = map w_id (watches s)
  /\ stacktraces s' = stacktraces s.
Proof.
  cbv zeta.
  destruct (receive_calm (set_bufferedData EmptyString s) resumedMarker)
    as (Ht & Hc & Hw & _ & Hd).
  repeat split; auto.
Qed.


End DecoderProperties.

(** ** The resumed branch and the auto-resume pre-check *)

Section FrameProperties.

Variable numberText : string -> string.
Variable getRelativeScriptPath : string -> string.
Variable parseString : string -> ParsedXml.

Local Abbreviation decode :=
  (parseReceivedData numberText getRelativeScriptPath parseString).







(** C8, amended.  With break-on-exception disabled and the session not
    stopped, a frame in which the marker [error=] starts at offset 25 or
    later and ends within the first 120 characters is not handed to the
    XML parser: whatever the parser would make of it, the session resumes
    ([go] is written, the state becomes ready) and the cached file
    resolutions are discarded. *)
Theorem error_frame_resumes_without_parsing (s : Session) (data : string) :
  resumeOnExceptions (config s) = true ->
  debuggerState s <> stopped ->
  (exists i, (25 <= i)%nat /\ (i + 6 <= 120)%nat
             /\ String.substring i 6 data = "error=") ->
  let s' := decode s data in
  (forall otherNumbers otherPaths otherParser,
      parseReceivedData otherNumbers otherPaths otherParser s data = s')
  /\ s' = resetFileReferences
            (resumeExecution
               (set_watchesThisStep []
                  (if resumeTimerPending s then set_resumeTimerPending false s else s)))
  /\ resolvedFileReferences s' = []
  /\ debuggerState s' = ready
  /\ (exists written, socket s' = (socket s ++ written ++ [resumeCommand])%list).
Proof.
  intros Hcfg Hstate Hwin. cbv zeta.
  assert (Hinc : includesFrom "error=" 25 (slice0 120 data) = true)
    by (now apply error_marker_window).
  assert (Hauto : autoResumes s data = true).
  { unfold autoResumes. rewrite Hcfg, Hinc.
    destruct (debuggerState s); try reflexivity. congruence. }
  assert (E : String.eqb data resumedMarker = false).
  { apply String.eqb_neq. intros ->. discriminate. }
  assert (Hall : forall n g p,
             parseReceivedData n g p s data
             = resetFileReferences
                 (resumeExecution
                    (set_watchesThisStep []
                       (if resumeTimerPending s
                        then set_resumeTimerPending false s else s)))).
  { intros n g p. rewrite (decode_not_resumed n g p s data E). cbv zeta.
    now rewrite Hauto. }
  split; [intros n g p; now rewrite !Hall|].
  rewrite Hall. split; [reflexivity|].
  assert (Hs0 : socket (set_watchesThisStep []
                          (if resumeTimerPending s
                           then set_resumeTimerPending false s else s))
                = socket s) by (now destruct (resumeTimerPending s)).
  revert Hs0. generalize (set_watchesThisStep []
                            (if resumeTimerPending s
                             then set_resumeTimerPending false s else s)).
  intros s0 Hs0.
  destruct (resumeExecution_effect s0) as (Hsock & _ & _ & Hd).
  revert Hsock Hd. generalize (resumeExecution s0). intros x Hsock Hd.
  split; [reflexivity|]. split; [exact Hd|].
  exists (map (fun w => removeWatchCommand (w_id w))
              (arrayMapToArray (entityDataWatches s0))
          ++ match debuggerState s0 with errored => [readyCommand] | _ => [] end)%list.
  change (socket (resetFileReferences x)) with (socket x).
  now rewrite Hsock, Hs0, <- !app_assoc.
Qed.

End FrameProperties.

(** C2 at a concrete session: the newer engine variant, state [ready],
    two tracked watches that the last step did not validate.  After the
    resumed acknowledgement has been received the state is still [ready],
    both watches are still tracked and no event was sent. *)
Lemma resumed_frame_example :
  let s' := onRecieveData exampleNumbers examplePaths exampleParse exampleFormat
                          resumingSession resumedMarker in
  scriptVersion (config resumingSession) = squirrel3
  /\ debuggerState resumingSession = ready
  /\ watchesThisStep resumingSession = []
  /\ debuggerState s' = ready
  /\ map w_id (watches s') = [1%N; 2%N]
  /\ events s' = events resumingSession
  /\ socket s' = socket resumingSession.
Proof. vm_compute. repeat split. Qed.

(** Were the marker recognised, the pruning loop would still miss
    watches: it walks the live array by index while removing from it. *)
Lemma cleanup_skips_after_removal :
  map w_id
      (watches (cleanupUnusedWatches
                  (set_watches [newDebuggerWatch 1 "a"; newDebuggerWatch 2 "b";
                                newDebuggerWatch 3 "c"; newDebuggerWatch 4 "d"]
                               resumingSession)))
  = [2%N; 4%N].
Proof. vm_compute. reflexivity. Qed.

(** C8 as stated fails: an exception frame whose marker [error=] lies
    within the first 120 characters, but before offset 25, is handed to the
    parser; the session does not resume and keeps its cached file
    resolutions. *)
Lemma early_error_marker_is_parsed :
  let s' := parseReceivedData exampleNumbers examplePaths exampleParse
                              resumingSession earlyMarkerFrame in
  resumeOnExceptions (config resumingSession) = true
  /\ debuggerState resumingSession = ready
  /\ String.index 0 "error=" (slice0 120 earlyMarkerFrame) = Some 20%nat
  /\ socket s' = socket resumingSession
  /\ resolvedFileReferences s'
     = [("main.nut", mkFileReferenceData "scripts/vscripts/main.nut" 1)]
  /\ pendingBreaks s' = [(errorAttrs, stepBody)].
Proof. vm_compute. repeat split. Qed.

Lemma error_frame_resumes_without_parsing_witness :
  let s' := parseReceivedData exampleNumbers examplePaths exampleParse
                              resumingSession lateMarkerFrame in
  (forall otherNumbers otherPaths otherParser,
      parseReceivedData otherNumbers otherPaths otherParser resumingSession
                        lateMarkerFrame = s')
  /\ s' = resetFileReferences
            (resumeExecution
               (set_watchesThisStep []
                  (if resumeTimerPending resumingSession
                   then set_resumeTimerPending false resumingSession
                   else resumingSession)))
  /\ resolvedFileReferences s' = []
  /\ debuggerState s' = ready
  /\ (exists written,
         socket s' = (socket resumingSession ++ written ++ [resumeCommand])%list).
Proof.
  apply (error_frame_resumes_without_parsing exampleNumbers examplePaths
                                             exampleParse resumingSession
                                             lateMarkerFrame).
  - reflexivity.
  - discriminate.
  - exists 44%nat. repeat split; [lia | lia].
Defined.

(** C7 at concrete sessions.  A frame cut in two is decoded after the
    second chunk only.  Two frames that end up in the buffer together are
    both decoded when the debug log is off; with the debug log on, neither
    is decoded and a stopped event is sent. *)
Lemma frames_decoded_only_after_terminator_witness :
  let receive := onRecieveData exampleNumbers examplePaths exampleParse
                               exampleFormat in
  let decode := parseReceivedData exampleNumbers examplePaths exampleParse in
  let rest := CRLF ++ "<resumed/>" ++ CRLF in
  let buffer := "<resumed/>" ++ rest in
  receive connectedSession "<resu"
  = set_bufferedData "<resu" connectedSession
  /\ deliver exampleNumbers examplePaths exampleParse exampleFormat
             connectedSession ["<resu"; "med/>"; String CR EmptyString]
     = set_bufferedData ("<resumed/>" ++ String CR EmptyString) connectedSession
  /\ receive (receive connectedSession "<resumed/>") rest
     = endReceive
         (fold_left decode ["<resumed/>"; "<resumed/>"]
                    (set_stackFrameID 0 (set_bufferedData buffer connectedSession)))
  /\ receive (receive loggingSession "<resumed/>") rest
     = endReceive
         (sendEvent extensionErrorStop
                    (set_stackFrameID 0 (set_bufferedData buffer loggingSession))).
Proof.
  pose proof (frames_decoded_only_after_terminator exampleNumbers examplePaths
                                                   exampleParse exampleFormat)
    as (H1 & H2 & H3).
  split; [|split; [|split]].
  - apply (H1 connectedSession "<resu"). reflexivity.
  - apply (H2 ["<resu"; "med/>"; String CR EmptyString] connectedSession).
    intros k Hk. simpl in Hk.
    destruct k as [|[|[|[|k]]]]; try lia; reflexivity.
  - destruct (H3 connectedSession "<resumed/>" (CRLF ++ "<resumed/>" ++ CRLF)
                 eq_refl eq_refl) as (_ & _ & _ & Hoff & _).
    exact (Hoff eq_refl).
  - destruct (H3 loggingSession "<resumed/>" (CRLF ++ "<resumed/>" ++ CRLF)
                 eq_refl eq_refl) as (_ & _ & _ & _ & _ & Hraise).
    apply Hraise; [reflexivity | reflexivity | discriminate].
Defined.

(** The same deliveries, evaluated: with the debug log off the two
    coalesced refresh frames give two invalidation events; with it on, the
    only event is the stopped event of the [catch] block, and locals of
    neither frame are stored. *)
Lemma coalesced_frames_example :
  let receive := onRecieveData exampleNumbers examplePaths exampleParse
                               exampleFormat in
  let coalesced := updateFrame ++ CRLF ++ updateFrame ++ CRLF in
  enableDebugLogging (config twoFrames) = false
  /\ newEvents twoFrames (receive twoFrames coalesced)
     = [InvalidatedEvent ["variables"]; InvalidatedEvent ["variables"]]
  /\ map v_name (topLevelLocals (receive twoFrames coalesced)) = ["x"; "this"]
  /\ enableDebugLogging (config loggingSession) = true
  /\ exampleFormat coalesced = None
  /\ newEvents loggingSession (receive loggingSession coalesced)
     = [extensionErrorStop]
  /\ topLevelLocals (receive loggingSession coalesced) = [].
Proof. vm_compute. repeat split. Qed.

(** ** The reference tree *)

Lemma parse_printed_uint (d : Decimal.uint) :
  exists d', NilEmpty.uint_of_string (NilZero.string_of_uint d) = Some d'
             /\ N.of_uint d' = N.of_uint d.
Proof.
  destruct d; try (eexists; split; [apply NilEmpty.usu | reflexivity]).
  exists (Decimal.D0 Decimal.Nil). split; reflexivity.
Qed.

(** [Number(String(n)) = n] for a non-negative integer. *)
Lemma Number_toString10 (n : N) : Number (toString10 n) = JInt (Z.of_N n).
Proof.
  unfold Number, toString10.
  destruct (parse_printed_uint (N.to_uint n)) as (d' & Hd & Hn).
  rewrite Hd, Hn. now rewrite DecimalN.Unsigned.of_to.
Qed.

Lemma Number_minus (s : string) : Number (String "-" s) = JNaN.
Proof.
  unfold Number. simpl. destruct (NilEmpty.uint_of_string s); reflexivity.
Qed.

(** [String] is injective on the numbers of the model. *)
Lemma String_inj (a b : JsNum) : String_ a = String_ b -> a = b.
Proof.
  set (back := fun s : string =>
                 match s with
                 | String c rest =>
                     if Ascii.eqb c "-"
                     then match Number rest with
                          | JInt z => JInt (- z)
                          | JNaN => JNaN
                          end
                     else Number s
                 | EmptyString => Number s
                 end).
  assert (Hback : forall x, back (String_ x) = x).
  { intros [z|]; [|reflexivity].
    destruct z as [|p|p].
    - reflexivity.
    - unfold String_.
      pose proof (Number_toString10 (Z.to_N (Z.pos p))) as Hn.
      destruct (toString10 (Z.to_N (Z.pos p))) as [|c rest] eqn:E.
      + simpl. exact Hn.
      + unfold back. destruct (Ascii.eqb c "-") eqn:Ec.
        * apply Ascii.eqb_eq in Ec. subst c. rewrite Number_minus in Hn.
          discriminate.
        * exact Hn.
    - unfold String_, back. simpl.
      rewrite (Number_toString10 (N.pos p)). reflexivity. }
  intros H. rewrite <- (Hback a), <- (Hback b). now rewrite H.
Qed.

Lemma includes_In (x : JsNum) (l : list JsNum) : includes x l = true <-> In x l.
Proof.
  unfold includes. rewrite existsb_exists. split.
  - intros (y & Hy & E). apply JsNum_eqb_eq in E. now subst.
  - intros H. exists x. split; [exact H | apply JsNum_eqb_refl].
Qed.

Lemma includes_false (x : JsNum) (l : list JsNum) :
  includes x l = false <-> ~ In x l.
Proof.
  rewrite <- includes_In. destruct (includes x l); split; congruence.
Qed.

Lemma isVisited_app (a b : list JsNum) (o : Obj) :
  isVisited (a ++ b)%list o = isVisited a o || isVisited b o.
Proof. unfold isVisited. apply existsb_app. Qed.

(** Visiting more references never increases the measure. *)
Lemma unvisited_app_le (refs : list Obj) (searched added : list JsNum) :
  (unvisited refs (searched ++ added)%list <= unvisited refs searched)%nat.
Proof.
  unfold unvisited. induction refs as [|o rest IH]; simpl; [lia|].
  rewrite isVisited_app.
  destruct (isVisited searched o); simpl; [exact IH|].
  destruct (isVisited added o); simpl; lia.
Qed.

(** Visiting a reference that names an object of the graph and was not
    visited before decreases the measure. *)
Lemma unvisited_push_lt (refs : list Obj) (searched : list JsNum) (sr : JsNum)
      (obj : Obj) :
  find (fun e => String.eqb (o_ref e) (String_ sr)) refs = Some obj ->
  includes sr searched = false ->
  (unvisited refs (searched ++ [sr])%list < unvisited refs searched)%nat.
Proof.
  intros Hfind Hnew. unfold unvisited.
  set (f := fun o => negb (isVisited searched o)).
  set (g := fun o => negb (isVisited (searched ++ [sr])%list o)).
  induction refs as [|o rest IH]; [discriminate|].
  cbn [find] in Hfind. cbn [filter].
  assert (Hg : g o = negb (isVisited searched o || isVisited [sr] o))
    by (unfold g; now rewrite isVisited_app).
  destruct (String.eqb (o_ref o) (String_ sr)) eqn:E.
  - assert (Hnot : isVisited searched o = false).
    { unfold isVisited. apply not_true_is_false. intros Hex.
      apply existsb_exists in Hex. destruct Hex as (v & Hv & Ev).
      apply String.eqb_eq in E, Ev. rewrite E in Ev. apply String_inj in Ev.
      subst v. apply includes_false in Hnew. contradiction. }
    assert (Hnow : isVisited [sr] o = true).
    { unfold isVisited. cbn [existsb]. now rewrite E. }
    rewrite Hg. unfold f at 1. rewrite Hnot, Hnow. cbn [negb orb List.length].
    pose proof (unvisited_app_le rest searched [sr]) as Hle.
    unfold unvisited in Hle. fold f g in Hle. lia.
  - specialize (IH Hfind). rewrite Hg. unfold f at 1.
    destruct (isVisited searched o); cbn [negb orb List.length]; [exact IH|].
    destruct (isVisited [sr] o); cbn [negb List.length]; lia.
Qed.

Lemma unvisited_le_length (refs : list Obj) (searched : list JsNum) :
  (unvisited refs searched <= List.length refs)%nat.
Proof. unfold unvisited. apply filter_length_le. Qed.

(** The loop over the elements, given that the recursive calls are
    within budget. *)
Lemma buildChildren_finishes (refs : list Obj) (fuel : nat) :
  (forall sr name type depth searched,
      (unvisited refs searched < fuel)%nat ->
      finishedFrom searched
                   (buildReferenceTree_fuel fuel refs sr name type depth searched)) ->
  forall elements children depth searched,
    (unvisited refs searched < fuel)%nat ->
    match buildChildren (buildReferenceTree_fuel fuel refs) elements children
                        depth searched with
    | Some (_, searched') => exists added, searched' = (searched ++ added)%list
    | None => False
    end.
Proof.
  intros IH elements. induction elements as [|el rest IHel];
    intros children depth searched Hlt; cbn [buildChildren].
  - exists []. now rewrite app_nil_r.
  - destruct (isComplexDataType (el_vt el)); [|now apply IHel].
    specialize (IH (Number (el_v el)) (el_kv el) (el_vt el) depth searched Hlt).
    destruct (buildReferenceTree_fuel fuel refs (Number (el_v el)) (el_kv el)
                                      (el_vt el) depth searched)
      as [node searched1|searched1|]; cbn [finishedFrom] in IH.
    + destruct IH as [added1 ->].
      assert (Hlt1 : (unvisited refs (searched ++ added1) < fuel)%nat).
      { pose proof (unvisited_app_le refs searched added1). lia. }
      specialize (IHel (match node with
                        | Some n => (children ++ [n])%list
                        | None => children
                        end) (S depth) _ Hlt1).
      destruct (buildChildren _ rest _ (S depth) (searched ++ added1)%list)
        as [[out searched2]|]; [|contradiction].
      destruct IHel as [added2 ->]. exists (added1 ++ added2)%list.
      now rewrite app_assoc.
    + exact IH.
    + contradiction.
Qed.

(** A budget above the number of unvisited objects is enough. *)
Lemma buildReferenceTree_fuel_enough (refs : list Obj) (fuel : nat) :
  forall sr name type depth searched,
    (unvisited refs searched < fuel)%nat ->
    finishedFrom searched
                 (buildReferenceTree_fuel fuel refs sr name type depth searched).
Proof.
  induction fuel as [|fuel IH]; intros sr name type depth searched Hlt; [lia|].
  cbn [buildReferenceTree_fuel].
  destruct (find (fun e => String.eqb (o_ref e) (String_ sr)) refs) as [obj|] eqn:Hfind;
    [|exists []; now rewrite app_nil_r].
  destruct (o_e obj) as [|el els] eqn:He; [exists []; now rewrite app_nil_r|].
  destruct (includes sr searched) eqn:Hinc; [exists []; now rewrite app_nil_r|].
  assert (Hlt1 : (unvisited refs (searched ++ [sr]) < fuel)%nat).
  { pose proof (unvisited_push_lt refs searched sr obj Hfind Hinc). lia. }
  pose proof (buildChildren_finishes refs fuel IH (el :: els) [] depth _ Hlt1) as Hch.
  destruct (buildChildren _ (el :: els) [] depth (searched ++ [sr])%list)
    as [[out searched2]|]; [|contradiction].
  destruct Hch as [added ->].
  destruct out; exists (sr :: added); now rewrite <- app_assoc.
Qed.

Lemma buildReferenceTree_terminates (refs : list Obj) (sr : JsNum)
      (name type : string) (depth : nat) (searched : list JsNum) :
  ranOutOfFuel (buildReferenceTree refs sr name type depth searched) = false.
Proof.
  unfold buildReferenceTree.
  pose proof (buildReferenceTree_fuel_enough refs (S (List.length refs)) sr name
                type depth searched) as H.
  pose proof (unvisited_le_length refs searched) as Hle.
  specialize (H ltac:(lia)).
  destruct (buildReferenceTree_fuel _ refs sr name type depth searched);
    [reflexivity | reflexivity | contradiction].
Qed.

Lemma NoDup_app_disjoint {A : Type} (a b : list A) :
  NoDup a -> NoDup b -> (forall x, In x b -> ~ In x a) -> NoDup (a ++ b)%list.
Proof.
  intros Ha Hb Hdis. induction a as [|x a IH]; [exact Hb|].
  simpl. inversion Ha as [|? ? Hx Ha']; subst. constructor.
  - intros Hin. apply in_app_or in Hin. destruct Hin as [Hin|Hin]; [contradiction|].
    apply (Hdis x Hin). now left.
  - apply IH; [exact Ha'|]. intros y Hy Hya. apply (Hdis y Hy). now right.
Qed.

(** The loop over the elements adds to the visited list exactly the
    labels of the subtrees it attaches. *)
Lemma buildChildren_fresh (refs : list Obj) (fuel : nat) :
  (forall sr name type depth searched,
      freshlyBuilt searched
                   (buildReferenceTree_fuel fuel refs sr name type depth searched)) ->
  forall elements children depth searched children' searched',
    buildChildren (buildReferenceTree_fuel fuel refs) elements children depth searched
    = Some (Returned children', searched') ->
    exists added,
      searched' = (searched ++ added)%list
      /\ NoDup added
      /\ (forall x, In x added -> ~ In x searched)
      /\ flat_map treeReferences children'
         = (flat_map treeReferences children ++ added)%list.
Proof.
  intros IH elements. induction elements as [|el rest IHel];
    intros children depth searched children' searched'; cbn [buildChildren].
  - intros [= <- <-]. exists []. rewrite !app_nil_r. repeat split; [constructor|].
    intros x [].
  - destruct (isComplexDataType (el_vt el)); [|apply IHel].
    specialize (IH (Number (el_v el)) (el_kv el) (el_vt el) depth searched).
    destruct (buildReferenceTree_fuel fuel refs (Number (el_v el)) (el_kv el)
                                      (el_vt el) depth searched)
      as [node searched1|searched1|]; [|discriminate|discriminate].
    cbn [freshlyBuilt] in IH. destruct IH as (Hs1 & Hnd1 & Hdis1).
    intros Hrest. apply IHel in Hrest.
    destruct Hrest as (added2 & Hs2 & Hnd2 & Hdis2 & Hrefs).
    set (added1 := match node with Some t => treeReferences t | None => [] end) in *.
    exists (added1 ++ added2)%list. subst searched1. repeat split.
    + now rewrite Hs2, app_assoc.
    + apply NoDup_app_disjoint; auto.
      intros x Hx2 Hx1. apply (Hdis2 x Hx2). apply in_or_app. now right.
    + intros x Hx Hin. apply in_app_or in Hx. destruct Hx as [Hx|Hx].
      * exact (Hdis1 x Hx Hin).
      * apply (Hdis2 x Hx). apply in_or_app. now left.
    + rewrite Hrefs, app_assoc. f_equal.
      unfold added1. destruct node as [n|]; [|now rewrite app_nil_r].
      rewrite flat_map_app. simpl. now rewrite app_nil_r.
Qed.

Lemma buildReferenceTree_fuel_fresh (refs : list Obj) (fuel : nat) :
  forall sr name type depth searched,
    freshlyBuilt searched
                 (buildReferenceTree_fuel fuel refs sr name type depth searched).
Proof.
  induction fuel as [|fuel IH]; intros sr name type depth searched; [exact I|].
  cbn [buildReferenceTree_fuel].
  assert (Hnone : freshlyBuilt searched (Built None searched)).
  { cbn. rewrite app_nil_r. repeat split; [constructor|]. intros x []. }
  destruct (find (fun e => String.eqb (o_ref e) (String_ sr)) refs) as [obj|];
    [|exact I].
  destruct (o_e obj) as [|el els]; [exact Hnone|].
  destruct (includes sr searched) eqn:Hinc; [exact Hnone|].
  destruct (buildChildren _ (el :: els) [] depth (searched ++ [sr])%list)
    as [[[children'|] searched2]|] eqn:Hch; [|exact I|exact I].
  apply (buildChildren_fresh refs fuel IH) in Hch.
  destruct Hch as (added & Hs & Hnd & Hdis & Hrefs).
  simpl in Hrefs. cbn [freshlyBuilt treeReferences reference].
  rewrite Hrefs. repeat split.
  - now rewrite Hs, <- app_assoc.
  - constructor; [|exact Hnd].
    intros Hin. apply (Hdis sr Hin). apply in_or_app. right. now left.
  - intros x [<-|Hx] Hin.
    + apply includes_false in Hinc. contradiction.
    + apply (Hdis x Hx). apply in_or_app. now left.
Qed.

(** The root of a returned node carries the reference the call was made
    for. *)
Lemma buildReferenceTree_fuel_root (refs : list Obj) (fuel : nat) (sr : JsNum)
      (name type : string) (depth : nat) (searched searched' : list JsNum)
      (t : TreeNode) :
  buildReferenceTree_fuel fuel refs sr name type depth searched
  = Built (Some t) searched' ->
  node_element t = mkReferenceVariable sr name type
  /\ includes sr searched = false.
Proof.
  destruct fuel as [|fuel]; [discriminate|]. cbn [buildReferenceTree_fuel].
  destruct (find _ refs) as [obj|]; [|discriminate].
  destruct (o_e obj) as [|el els]; [discriminate|].
  destruct (includes sr searched); [discriminate|].
  destruct (buildChildren _ (el :: els) [] depth (searched ++ [sr])%list)
    as [[[children'|] searched2]|]; try discriminate.
  intros [= <- _]. split; reflexivity.
Qed.

(** Induction on reference trees, with the hypothesis for every child. *)
Lemma TreeNode_nested_ind (P : TreeNode -> Prop) :
  (forall el ch d, Forall P ch -> P (Node el ch d)) -> forall t, P t.
Proof.
  intros H.
  exact (fix IH (t : TreeNode) : P t :=
           match t with
           | Node el ch d =>
               H el ch d
                 ((fix go (l : list TreeNode) : Forall P l :=
                     match l with
                     | [] => Forall_nil P
                     | c :: rest => Forall_cons c (IH c) (go rest)
                     end) ch)
           end).
Qed.

Lemma countNodes_filter (r : JsNum) (t : TreeNode) :
  countNodes r t = List.length (filter (JsNum_eqb r) (treeReferences t)).
Proof.
  induction t as [el ch d IH] using TreeNode_nested_ind.
  cbn [countNodes treeReferences filter].
  assert (Hch : fold_right (fun c acc => (countNodes r c + acc)%nat) 0%nat ch
                = List.length (filter (JsNum_eqb r) (flat_map treeReferences ch))).
  { induction IH as [|c rest Hc _ IHch]; [reflexivity|].
    cbn [fold_right flat_map]. rewrite filter_app, length_app, IHch, Hc.
    reflexivity. }
  rewrite Hch.
  replace (JsNum_eqb (reference el) r) with (JsNum_eqb r (reference el)).
  - destruct (JsNum_eqb r (reference el)); reflexivity.
  - destruct r, (reference el); simpl; auto using Z.eqb_sym.
Qed.

(** In a tree whose labels are pairwise different a reference labels at
    most one node. *)
Lemma countNodes_le_1 (r : JsNum) (t : TreeNode) :
  NoDup (treeReferences t) -> (countNodes r t <= 1)%nat.
Proof.
  rewrite countNodes_filter. generalize (treeReferences t). intros l Hnd.
  induction Hnd as [|x l Hx Hnd IH]; [simpl; lia|].
  cbn [filter]. destruct (JsNum_eqb r x) eqn:E; [|exact IH].
  apply JsNum_eqb_eq in E. subst x. cbn [List.length].
  assert (Hz : filter (JsNum_eqb r) l = []).
  { clear IH Hnd. induction l as [|y l IHl]; [reflexivity|].
    cbn [filter]. destruct (JsNum_eqb r y) eqn:Ey.
    - apply JsNum_eqb_eq in Ey. subst y. exfalso. apply Hx. now left.
    - apply IHl. intros Hin. apply Hx. now right. }
  rewrite Hz. simpl. lia.
Qed.

Lemma String_of_N (n : N) : String_ (JInt (Z.of_N n)) = toString10 n.
Proof. destruct n; reflexivity. Qed.

Lemma selfReferencing_tree (n : N) (name type : string) (depth : nat)
      (searched : list JsNum) :
  includes (JInt (Z.of_N n)) searched = false ->
  buildReferenceTree [selfReferencing n] (JInt (Z.of_N n)) name type depth searched
  = Built (Some (Node (mkReferenceVariable (JInt (Z.of_N n)) name type) [] depth))
          (searched ++ [JInt (Z.of_N n)])%list.
Proof.
  intros Hnew.
  assert (Hinc : includes (JInt (Z.of_N n)) (searched ++ [JInt (Z.of_N n)])%list = true).
  { apply includes_In, in_or_app. right. now left. }
  unfold buildReferenceTree, selfReferencing.
  repeat (cbn -[toString10 includes String_ Number];
          first [ rewrite String_of_N | rewrite String.eqb_refl
                | rewrite Hnew | rewrite Number_toString10 | rewrite Hinc ]).
  reflexivity.
Qed.

(** C4.  Building the reference tree always returns or raises (the
    recursion budget of the model is never exhausted).  For the synthetic
    self-referencing aggregate it returns a single node, so exactly one
    node carries the aggregate's reference id.  A call for a reference id
    already in the visited list returns no node and leaves the list alone.
    In general the ids a call adds to the visited list are exactly the
    labels of the nodes it built, pairwise different and none visited
    before: no reference id labels two nodes. *)
Theorem reference_tree_terminates_without_revisiting :
  (forall refs sr name type depth searched,
      ranOutOfFuel (buildReferenceTree refs sr name type depth searched) = false)
  /\ (forall n name type depth searched,
         includes (JInt (Z.of_N n)) searched = false ->
         let r := buildReferenceTree [selfReferencing n] (JInt (Z.of_N n)) name type
                                     depth searched in
         r = Built (Some (Node (mkReferenceVariable (JInt (Z.of_N n)) name type)
                               [] depth))
                   (searched ++ [JInt (Z.of_N n)])%list
         /\ (forall t, builtNode r = Some t -> countNodes (JInt (Z.of_N n)) t = 1%nat))
  /\ (forall refs sr name type depth searched,
         includes sr searched = true ->
         let r := buildReferenceTree refs sr name type depth searched in
         r = Built None searched \/ r = BuildThrown searched)
  /\ (forall refs sr name type depth searched t searched',
         buildReferenceTree refs sr name type depth searched
         = Built (Some t) searched' ->
         searched' = (searched ++ treeReferences t)%list
         /\ NoDup (treeReferences t)
         /\ (forall x, In x (treeReferences t) -> includes x searched = false)
         /\ (forall x, (countNodes x t <= 1)%nat)
         /\ countNodes sr t = 1%nat).
Proof.
  split; [exact buildReferenceTree_terminates|]. split; [|split].
  - intros n name type depth searched Hnew. cbv zeta.
    rewrite (selfReferencing_tree n name type depth searched Hnew).
    split; [reflexivity|].
    intros t [= <-]. cbn. now rewrite Z.eqb_refl.
  - intros refs sr name type depth searched Hinc. cbv zeta.
    unfold buildReferenceTree. cbn [buildReferenceTree_fuel].
    destruct (find _ refs) as [obj|]; [|now right].
    destruct (o_e obj); [now left|]. rewrite Hinc. now left.
  - intros refs sr name type depth searched t searched' Hbuilt.
    unfold buildReferenceTree in Hbuilt.
    pose proof (buildReferenceTree_fuel_fresh refs (S (List.length refs)) sr name
                  type depth searched) as Hfresh.
    destruct (buildReferenceTree_fuel_root _ _ _ _ _ _ _ _ _ Hbuilt) as [Hroot _].
    rewrite Hbuilt in Hfresh. cbn [freshlyBuilt] in Hfresh.
    destruct Hfresh as (Hs & Hnd & Hdis).
    split; [exact Hs|]. split; [exact Hnd|]. split; [|split].
    + intros x Hx. apply includes_false. now apply Hdis.
    + intros x. now apply countNodes_le_1.
    + pose proof (countNodes_le_1 sr t Hnd) as Hle.
      destruct t as [el ch d]. cbn [node_element] in Hroot. subst el.
      cbn [countNodes reference] in *. rewrite JsNum_eqb_refl in *. lia.
Qed.

Lemma reference_tree_terminates_without_revisiting_witness :
  (let r := buildReferenceTree [selfReferencing 1] (JInt 1) "self" "t" 0 [] in
   r = Built (Some (Node (mkReferenceVariable (JInt 1) "self" "t") [] 0)) [JInt 1]
   /\ (forall t, builtNode r = Some t -> countNodes (JInt 1) t = 1%nat))
  /\ (let r := buildReferenceTree cyclicGraph (JInt 2) "items" "a" 0
                                  [JInt 1; JInt 2] in
      r = Built None [JInt 1; JInt 2] \/ r = BuildThrown [JInt 1; JInt 2])
  /\ (let t := Node (mkReferenceVariable (JInt 1) "this" "t")
                    [Node (mkReferenceVariable (JInt 2) "items" "a") [] 0] 0 in
      [JInt 1; JInt 2] = ([] ++ treeReferences t)%list
      /\ NoDup (treeReferences t)
      /\ (forall x, In x (treeReferences t) -> includes x [] = false)
      /\ (forall x, (countNodes x t <= 1)%nat)
      /\ countNodes (JInt 1) t = 1%nat).
Proof.
  pose proof reference_tree_terminates_without_revisiting as (_ & H2 & H3 & H4).
  split; [|split].
  - apply (H2 1%N "self" "t" 0%nat []). reflexivity.
  - apply (H3 cyclicGraph (JInt 2) "items" "a" 0%nat [JInt 1; JInt 2]). reflexivity.
  - apply (H4 cyclicGraph (JInt 1) "this" "t" 0%nat []). reflexivity.
Defined.

(** ** The short representation *)













(** ** The breakpoint registry *)

(** C1 as stated fails on both counts.  Two paths share the basename
    [x.nut].  Setting line 5 on the second path writes an add-breakpoint
    command although the reference count goes from one to two; clearing
    the first path then writes a remove-breakpoint command although the
    count goes from two to one, not to zero. *)
Lemma breakpoint_commands_ignore_refcount :
  let s1 := snd (setBreakPointsRequest "a/x.nut" [5%N] connectedSession) in
  let s2 := snd (setBreakPointsRequest "b/x.nut" [5%N] s1) in
  let s3 := snd (setBreakPointsRequest "a/x.nut" [] s2) in
  basename "a/x.nut" = "x.nut"
  /\ basename "b/x.nut" = "x.nut"
  /\ spec_refCount "x.nut" 5 s1 = 1%nat
  /\ spec_refCount "x.nut" 5 s2 = 2%nat
  /\ newWrites s1 s2 = [addBreakpointCommand "b/x.nut" 5]
  /\ spec_refCount "x.nut" 5 s3 = 1%nat
  /\ newWrites s2 s3 = [removeBreakpointCommand "a/x.nut" 5].
Proof. vm_compute. repeat split. Qed.

Lemma replaceBackslashes_idem (p : string) :
  replaceBackslashes (replaceBackslashes p) = replaceBackslashes p.
Proof.
  induction p as [|c p IH]; [reflexivity|].
  cbn [replaceBackslashes]. rewrite IH. f_equal.
  destruct (Ascii.eqb c "\") eqn:E; [reflexivity | now rewrite E].
Qed.

Lemma socket_sendAddBreakpoint (p : string) (line : N) (s : Session) :
  socket (sendAddBreakpoint p line s)
  = (socket s ++ [addBreakpointCommand (replaceBackslashes p) line])%list.
Proof. unfold sendAddBreakpoint. cbv zeta. split_debugPrint; reflexivity. Qed.

Lemma socket_sendRemoveBreakpoint (p : string) (line : N) (s : Session) :
  socket (sendRemoveBreakpoint p line s)
  = (socket s ++ [removeBreakpointCommand (replaceBackslashes p) line])%list.
Proof. unfold sendRemoveBreakpoint. cbv zeta. split_debugPrint; reflexivity. Qed.

(** Every added line writes its add-breakpoint command. *)
Lemma addBreakpointStep_socket (p : string) (s : Session) (bp : IBreakpoint) :
  socket (addBreakpointStep p s bp)
  = (socket s ++ [addBreakpointCommand (replaceBackslashes p) (bp_line bp)])%list.
Proof.
  unfold addBreakpointStep, newRefCountKey. cbv zeta.
  rewrite <- (socket_sendAddBreakpoint p (bp_line bp) s).
  generalize (sendAddBreakpoint p (bp_line bp) s). intros x.
  destruct (negb (existsb (String.eqb (basename p)) (_notifiedFileBreakpoints x)));
    reflexivity.
Qed.

Lemma addBreakpoints_socket (p : string) (l : list IBreakpoint) (s : Session) :
  socket (fold_left (addBreakpointStep p) l s)
  = (socket s ++ map (addBreakpointCommand (replaceBackslashes p)) (map bp_line l))%list.
Proof.
  revert s. induction l as [|bp rest IH]; intros s; simpl.
  - now rewrite app_nil_r.
  - rewrite IH, addBreakpointStep_socket, <- app_assoc. reflexivity.
Qed.

(** A removed line writes its remove-breakpoint command or nothing. *)
Lemma removeBreakpointStep_socket (p : string) (s : Session) (bp : IBreakpoint) :
  socket (removeBreakpointStep p s bp) = socket s
  \/ socket (removeBreakpointStep p s bp)
     = (socket s ++ [removeBreakpointCommand (replaceBackslashes p) (bp_line bp)])%list.
Proof.
  unfold removeBreakpointStep, newRefCountKey. cbv zeta.
  match goal with
  | |- context [if ?c then _ else _] => destruct c
  end.
  - right. unfold sendRemoveBreakpoint. cbv zeta. split_debugPrint; reflexivity.
  - left. reflexivity.
Qed.

Lemma removeBreakpoints_socket (p : string) (l : list IBreakpoint) (s : Session) :
  exists removed,
    socket (fold_left (removeBreakpointStep p) l s)
    = (socket s ++ map (removeBreakpointCommand (replaceBackslashes p)) removed)%list
    /\ incl removed (map bp_line l).
Proof.
  revert s. induction l as [|bp rest IH]; intros s; simpl.
  - exists []. split; [now rewrite app_nil_r | apply incl_refl].
  - destruct (IH (removeBreakpointStep p s bp)) as (removed & Hs & Hincl).
    destruct (removeBreakpointStep_socket p s bp) as [E|E]; rewrite E in Hs.
    + exists removed. split; [exact Hs | now apply incl_tl].
    + exists (bp_line bp :: removed). split.
      * rewrite Hs, <- app_assoc. reflexivity.
      * apply incl_cons; [now left | now apply incl_tl].
Qed.

Lemma removeBreakpoints_keep (p q : string) (l : list IBreakpoint) (s : Session) :
  breakpointsOf q (fold_left (removeBreakpointStep p) l s) = breakpointsOf q s.
Proof.
  revert s. induction l as [|bp rest IH]; intros s; simpl; [reflexivity|].
  rewrite IH. unfold removeBreakpointStep, newRefCountKey. cbv zeta.
  match goal with
  | |- context [if ?c then _ else _] => destruct c
  end; unfold sendRemoveBreakpoint; cbv zeta; split_debugPrint; reflexivity.
Qed.

Lemma addBreakpoints_keep (p q : string) (l : list IBreakpoint) (s : Session) :
  breakpointsOf q (fold_left (addBreakpointStep p) l s) = breakpointsOf q s.
Proof.
  revert s. induction l as [|bp rest IH]; intros s; simpl; [reflexivity|].
  rewrite IH. unfold addBreakpointStep, newRefCountKey. cbv zeta.
  assert (H : breakpointsOf q (sendAddBreakpoint p (bp_line bp) s)
              = breakpointsOf q s).
  { unfold sendAddBreakpoint. cbv zeta. split_debugPrint; reflexivity. }
  rewrite <- H. generalize (sendAddBreakpoint p (bp_line bp) s). intros x.
  destruct (negb (existsb (String.eqb (basename p)) (_notifiedFileBreakpoints x)));
    reflexivity.
Qed.

Lemma breakpointsOf_set (p : string) (l : list IBreakpoint) (s : Session) :
  breakpointsOf p (set_breakpoints (mapSet String.eqb p l (_breakpoints s)) s) = l.
Proof.
  unfold breakpointsOf. simpl.
  now rewrite mapGet_mapSet_same by apply String.eqb_refl.
Qed.

(** Building the new set: one breakpoint per requested line, in order;
    nothing is written. *)
Lemma makeBreakpoints_lines (p : string) (original : list IBreakpoint)
      (lines : list N) (s : Session) :
  let s' := fold_left (makeBreakpoint p original) lines s in
  map bp_line (breakpointsOf p s') = (map bp_line (breakpointsOf p s) ++ lines)%list
  /\ socket s' = socket s.
Proof.
  revert s. induction lines as [|line rest IH]; intros s; simpl.
  - now rewrite app_nil_r.
  - destruct (IH (makeBreakpoint p original s line)) as [Hl Hs].
    simpl in Hl, Hs. rewrite Hl, Hs. split; [|reflexivity].
    unfold makeBreakpoint. cbv zeta.
    rewrite breakpointsOf_set. fold (breakpointsOf p s).
    rewrite map_app, <- app_assoc. reflexivity.
Qed.

Lemma hasLine_In (l : list IBreakpoint) (line : N) :
  hasLine l line = true <-> In line (map bp_line l).
Proof.
  unfold hasLine. rewrite existsb_exists, in_map_iff. split.
  - intros (bp & Hin & E). apply N.eqb_eq in E. now exists bp.
  - intros (bp & E & Hin). exists bp. split; [exact Hin | now apply N.eqb_eq].
Qed.

Lemma map_filter_lines (f : N -> bool) (l : list IBreakpoint) :
  map bp_line (filter (fun element => f (bp_line element)) l)
  = filter f (map bp_line l).
Proof.
  induction l as [|bp rest IH]; [reflexivity|].
  simpl. destruct (f (bp_line bp)); simpl; now rewrite IH.
Qed.

(** C1, amended.  [setBreakpoints] writes, after the remove commands,
    one add-breakpoint command for every requested line the path did not
    hold before, whatever the reference count of its (basename, line)
    pair (so also when a sibling path already holds the line); and every
    remove-breakpoint command it writes is for a line the path held before
    and does not hold any more. *)
Theorem setBreakpoints_commands (relativePath : string) (lines : list N)
        (s : Session) :
  let bpPath := replaceBackslashes relativePath in
  let original := breakpointsOf bpPath s in
  let s' := snd (setBreakPointsRequest relativePath lines s) in
  exists removed,
    socket s'
    = (socket s
         ++ map (removeBreakpointCommand bpPath) removed
         ++ map (addBreakpointCommand bpPath)
                (filter (fun line => negb (hasLine original line)) lines))%list
    /\ (forall line, In line removed ->
                     hasLine original line = true /\ ~ In line lines)
    /\ map bp_line (breakpointsOf bpPath s') = lines.
Proof.
  cbv zeta. unfold setBreakPointsRequest. cbv zeta. cbn [snd].
  set (bpPath := replaceBackslashes relativePath).
  set (original := breakpointsOf bpPath s).
  set (s0 := set_breakpoints (mapSet String.eqb bpPath [] (_breakpoints s)) s).
  destruct (makeBreakpoints_lines bpPath original lines s0) as [Hlines Hsock].
  cbv zeta in Hlines, Hsock.
  unfold s0 in Hlines at 2. rewrite breakpointsOf_set in Hlines. simpl in Hlines.
  set (s1 := fold_left (makeBreakpoint bpPath original) lines s0) in *.
  set (forRemoval := filter (fun element =>
                               negb (hasLine (breakpointsOf bpPath s1)
                                             (bp_line element))) original).
  set (forInclusion := filter (fun element =>
                                 negb (hasLine original (bp_line element)))
                              (breakpointsOf bpPath s1)).
  destruct (removeBreakpoints_socket bpPath forRemoval s1) as (removed & Hrem & Hincl).
  exists removed. split; [|split].
  - rewrite addBreakpoints_socket, Hrem, Hsock.
    unfold bpPath at 1 2. rewrite replaceBackslashes_idem. fold bpPath.
    unfold forInclusion.
    rewrite (map_filter_lines (fun line => negb (hasLine original line))), Hlines.
    now rewrite <- app_assoc.
  - intros line Hin. apply Hincl in Hin. unfold forRemoval in Hin.
    rewrite (map_filter_lines
               (fun line => negb (hasLine (breakpointsOf bpPath s1) line))) in Hin.
    apply filter_In in Hin. destruct Hin as [Hold Hnew]. split.
    + now apply hasLine_In.
    + apply negb_true_iff in Hnew. intros Hl.
      rewrite <- Hlines in Hl. apply hasLine_In in Hl. congruence.
  - rewrite addBreakpoints_keep, removeBreakpoints_keep. exact Hlines.
Qed.

Lemma setBreakpoints_commands_witness :
  let s1 := snd (setBreakPointsRequest "a/x.nut" [5%N; 9%N] connectedSession) in
  let s2 := snd (setBreakPointsRequest "b/x.nut" [5%N] s1) in
  exists removed,
    socket s2
    = (socket s1
         ++ map (removeBreakpointCommand "b/x.nut") removed
         ++ map (addBreakpointCommand "b/x.nut") [5%N])%list
    /\ (forall line, In line removed ->
                     hasLine (breakpointsOf "b/x.nut" s1) line = true
                     /\ ~ In line [5%N])
    /\ map bp_line (breakpointsOf "b/x.nut" s2) = [5%N].
Proof.
  exact (setBreakpoints_commands
           "b/x.nut" [5%N]
           (snd (setBreakPointsRequest "a/x.nut" [5%N; 9%N] connectedSession))).
Defined.

(** The slip behind the remove side of C1: the reference-count map is
    keyed by array objects, every lookup builds a new array, and a new
    array is no key of the map.  So the count read is always absent and
    every removed line writes its remove-breakpoint command. *)
Lemma fresh_key_lookup_misses (base : string) (line : N) (s : Session) :
  Forall (fun kv => (key_obj (fst kv) < nextObjectId s)%nat) (_breakpointsRefCount s) ->
  mapGet RefCountKey_same (fst (newRefCountKey base line s)) (_breakpointsRefCount s)
  = None.
Proof.
  unfold newRefCountKey. cbn [fst]. generalize (nextObjectId s). intros n.
  induction (_breakpointsRefCount s) as [|[k v] rest IH]; intros Hall;
    [reflexivity|].
  inversion Hall as [|? ? Hk Hrest]; subst. cbn [mapGet fst] in *.
  unfold RefCountKey_same at 1. cbn [key_obj].
  replace (Nat.eqb n (key_obj k)) with false
    by (symmetry; apply Nat.eqb_neq; lia).
  now apply IH.
Qed.

Lemma removeBreakpointStep_always_sends (p : string) (s : Session) (bp : IBreakpoint) :
  Forall (fun kv => (key_obj (fst kv) < nextObjectId s)%nat) (_breakpointsRefCount s) ->
  socket (removeBreakpointStep p s bp)
  = (socket s ++ [removeBreakpointCommand (replaceBackslashes p) (bp_line bp)])%list.
Proof.
  intros Hall. unfold removeBreakpointStep.
  pose proof (fresh_key_lookup_misses (basename p) (bp_line bp) s Hall) as Hmiss.
  unfold newRefCountKey in *. cbn [fst] in Hmiss. cbv zeta.
  change (_breakpointsRefCount (set_nextObjectId (S (nextObjectId s)) s))
    with (_breakpointsRefCount s).
  rewrite Hmiss. cbn [Z.sub Z.add Z.opp Z.leb Z.compare].
  unfold sendRemoveBreakpoint. cbv zeta. split_debugPrint; reflexivity.
Qed.

(* ================================================================== *)
(** ** Refresh frames: locals and watch results *)


Section ParseProperties.

Variable numberText : string -> string.

Local Abbreviation convert := (variableToValue numberText).


























(** ** The locals of a refresh frame *)






(** ** Frames in which every reference resolves *)







Lemma buildChildren_closed (refs : list Obj)
      (rec : JsNum -> string -> string -> nat -> list JsNum -> BuildResult) :
  (forall sr name type depth searched,
      isReferenced refs sr = true -> neverThrown (rec sr name type depth searched)) ->
  forall elements children depth searched,
    (forall e, In e elements -> isComplexDataType (el_vt e) = true ->
               isReferenced refs (Number (el_v e)) = true) ->
    match buildChildren rec elements children depth searched with
    | Some (Thrown, _) => False
    | _ => True
    end.
Proof.
  intros Hrec. induction elements as [|e rest IH]; intros children depth searched Hall;
    [exact I|].
  cbn [buildChildren].
  destruct (isComplexDataType (el_vt e)) eqn:Hc.
  - pose proof (Hrec (Number (el_v e)) (el_kv e) (el_vt e) depth searched
                     (Hall e (or_introl eq_refl) Hc)) as Hn.
    destruct (rec (Number (el_v e)) (el_kv e) (el_vt e) depth searched)
      as [node sr|sr|]; [|contradiction|exact I].
    apply IH. intros e' He'. apply Hall. now right.
  - apply IH. intros e' He'. apply Hall. now right.
Qed.

Lemma buildReferenceTree_fuel_closed (refs : list Obj) (fuel : nat) :
  closedList refs ->
  forall sr name type depth searched,
    isReferenced refs sr = true ->
    neverThrown (buildReferenceTree_fuel fuel refs sr name type depth searched).
Proof.
  intros Hclosed. induction fuel as [|fuel IH]; intros sr name type depth searched Hr;
    [exact I|].
  cbn [buildReferenceTree_fuel]. unfold isReferenced, referenced in Hr.
  destruct (find (fun e => String.eqb (o_ref e) (String_ sr)) refs) as [obj|] eqn:Hfind;
    [|discriminate].
  destruct (o_e obj) as [|el els] eqn:He; [exact I|].
  destruct (includes sr searched); [exact I|].
  pose proof (buildChildren_closed refs (buildReferenceTree_fuel fuel refs) IH
                (el :: els) [] depth (searched ++ [sr])%list) as Hch.
  destruct (buildChildren (buildReferenceTree_fuel fuel refs) (el :: els) []
                          depth (searched ++ [sr])%list) as [[[children|] sr']|];
    try exact I.
  apply Hch. intros e Hin Hc. apply find_some in Hfind.
  apply (Hclosed obj e); [apply Hfind | now rewrite He | exact Hc].
Qed.












(** ** Refresh frames *)

Variable getRelativeScriptPath : string -> string.
Variable parseString : string -> ParsedXml.

Local Abbreviation decode :=
  (parseReceivedData numberText getRelativeScriptPath parseString).






End ParseProperties.


(** The same frame, evaluated: the two locals and the results of both
    watches at index 0, the call stack as it was. *)
Lemma refresh_frame_example :
  let s' := parseReceivedData exampleNumbers examplePaths exampleParse
                              watchingSession refreshFrame in
  exampleParse refreshFrame = XmlUpdate refreshBody
  /\ wellFormedUpdate watchingSession refreshObjects refreshCalls = true
  /\ stacktraces s' = stacktraces watchingSession
  /\ newEvents watchingSession s' = [InvalidatedEvent ["variables"]]
  /\ topLevelLocals s'
     = [mkVariable "x" (BNumber "10") "i" (JInt 0) (JInt 0) false "x" 0 false;
        mkVariable "this" (BString "Table (1) {x = 10}") "t" (JInt 1) (JInt 0)
                   false "this" 0 true]
  /\ map (fun w => (w_id w, getIndex 0 (w_values w), getIndex 0 (w_status w)))
         (watches s')
     = [(1%N, Some (BNumber "10"), Some WatchStatus_ok);
        (2%N, Some (BString "error"), Some WatchStatus_error)].
Proof. vm_compute. repeat split. Qed.


(** * Further properties of the engine *)

(** ** The queue *)

Lemma enqueueAll_storage {T : Type} (xs : list T) (q : Queue.t T) :
  Queue.storage (enqueueAll xs q) = (Queue.storage q ++ xs)%list.
Proof.
  unfold enqueueAll. revert q. induction xs as [|x xs IH]; intros q; simpl.
  - now rewrite app_nil_r.
  - rewrite IH. simpl. now rewrite <- app_assoc.
Qed.

Lemma dequeueMany_drains {T : Type} (l : list T) (extra : nat) :
  dequeueMany (List.length l + extra) (Queue.mk l) = (l, Queue.new).
Proof.
  induction l as [|x l IH]; simpl.
  - induction extra as [|k IHk]; [reflexivity | exact IHk].
  - unfold Queue.dequeue. simpl. now rewrite IH.
Qed.

(** X1.  The queue is first-in first-out: after the elements [xs] are
    enqueued on a queue, as many [dequeue] calls as the queue holds
    elements (or more) hand out the old contents and then [xs], in the
    order they were enqueued, and leave the queue empty.  [dequeue] on an
    empty queue returns [undefined] and leaves it empty; [enqueue] makes
    the queue one longer, [dequeue] one shorter unless it is empty. *)
Theorem queue_is_fifo (T : Type) (q : Queue.t T) (xs : list T) (extra : nat) :
  dequeueMany (Queue.length q + List.length xs + extra) (enqueueAll xs q)
  = ((Queue.storage q ++ xs)%list, Queue.new)
  /\ Queue.dequeue (@Queue.new T) = (None, Queue.new)
  /\ (forall x, Queue.length (Queue.enqueue x q) = S (Queue.length q))
  /\ Queue.length (snd (Queue.dequeue q)) = Nat.pred (Queue.length q).
Proof.
  split; [|split; [reflexivity|split]].
  - pose proof (enqueueAll_storage xs q) as Hs.
    destruct (enqueueAll xs q) as [l]. simpl in Hs. subst l.
    unfold Queue.length. rewrite <- length_app. apply dequeueMany_drains.
  - intros x. unfold Queue.length, Queue.enqueue. simpl.
    rewrite length_app. simpl. lia.
  - destruct q as [[|x l]]; reflexivity.
Qed.

(** ** Breadth-first search of the reference tree *)

Lemma treeSize_pos (t : TreeNode) : (0 < treeSize t)%nat.
Proof. destruct t. simpl. lia. Qed.

Lemma sizes_app (a b : list TreeNode) :
  fold_right (fun c acc => treeSize c + acc) 0 (a ++ b)%list
  = (fold_right (fun c acc => treeSize c + acc) 0 a
     + fold_right (fun c acc => treeSize c + acc) 0 b)%nat.
Proof. induction a as [|x a IH]; simpl; [reflexivity | rewrite IH; lia]. Qed.

Lemma enqueueChildren_size (ch : list TreeNode) (q : Queue.t TreeNode)
      (v : list JsNum) :
  (queueSize (fst (enqueueChildren ch q v))
   <= queueSize q + fold_right (fun c acc => treeSize c + acc) 0 ch)%nat.
Proof.
  revert q v. induction ch as [|c ch IH]; intros q v; simpl; [lia|].
  destruct (negb (includes (reference (node_element c)) v)).
  - specialize (IH (Queue.enqueue c q) (v ++ [reference (node_element c)])%list).
    unfold queueSize in *. simpl in IH. rewrite sizes_app in IH. simpl in IH. lia.
  - specialize (IH q v). lia.
Qed.

(** The budget of [referenceTreeBFS] is never exhausted. *)
Lemma searchLoop_finishes (fuel : nat) (cb : TreeNode -> bool)
      (q : Queue.t TreeNode) (v : list JsNum) :
  (queueSize q <= fuel)%nat -> searchLoop fuel cb q v <> SearchOutOfFuel.
Proof.
  revert q v. induction fuel as [|fuel IH]; intros [l] v Hsize.
  - destruct l as [|n rest]; [simpl; discriminate|].
    unfold queueSize in Hsize. simpl in Hsize.
    pose proof (treeSize_pos n). lia.
  - destruct l as [|n rest]; [simpl; discriminate|].
    cbn [searchLoop Queue.length Queue.storage List.length Nat.ltb Nat.leb
         Queue.dequeue].
    destruct (cb n); [discriminate|].
    destruct (enqueueChildren (node_children n) (Queue.mk rest)
                (v ++ [reference (node_element n)])%list) as [q' v'] eqn:E.
    apply IH.
    pose proof (enqueueChildren_size (node_children n) (Queue.mk rest)
                  (v ++ [reference (node_element n)])%list) as Hle.
    rewrite E in Hle. simpl in Hle.
    unfold queueSize in *. simpl in *. destruct n as [el ch d]. simpl in *. lia.
Qed.

Lemma subtrees_self (t : TreeNode) : In t (subtrees t).
Proof. destruct t. simpl. now left. Qed.

Lemma subtrees_child (t c x : TreeNode) :
  In c (node_children t) -> In x (subtrees c) -> In x (subtrees t).
Proof.
  destruct t as [el ch d]. simpl. intros Hc Hx. right.
  apply in_flat_map. now exists c.
Qed.

Lemma enqueueChildren_storage (ch : list TreeNode) (q : Queue.t TreeNode)
      (v : list JsNum) (x : TreeNode) :
  In x (Queue.storage (fst (enqueueChildren ch q v))) ->
  In x (Queue.storage q)
  \/ (In x ch /\ includes (reference (node_element x)) v = false).
Proof.
  revert q v. induction ch as [|c ch IH]; intros q v; simpl; [auto|].
  destruct (includes (reference (node_element c)) v) eqn:E; simpl; intros Hin.
  - destruct (IH _ _ Hin) as [H|[H1 H2]]; auto.
  - destruct (IH _ _ Hin) as [H|[H1 H2]].
    + simpl in H. apply in_app_or in H. destruct H as [H|[<-|[]]]; auto.
    + right. split; [now right|].
      unfold includes in *. rewrite existsb_app in H2.
      now apply orb_false_elim in H2.
Qed.

(** A node the search returns is accepted by the callback, and it waits
    in the queue, or hangs below a waiting node and carries a reference
    that had not been visited. *)
Lemma searchLoop_found (fuel : nat) (cb : TreeNode -> bool)
      (q : Queue.t TreeNode) (v : list JsNum) (node : TreeNode) :
  searchLoop fuel cb q v = Found node ->
  cb node = true
  /\ (exists r, In r (Queue.storage q) /\ In node (subtrees r))
  /\ (In node (Queue.storage q)
      \/ includes (reference (node_element node)) v = false).
Proof.
  revert q v. induction fuel as [|fuel IH]; intros [l] v.
  - destruct l; simpl; discriminate.
  - destruct l as [|n rest]; [simpl; discriminate|].
    cbn [searchLoop Queue.length Queue.storage List.length Nat.ltb Nat.leb
         Queue.dequeue].
    destruct (cb n) eqn:Hcb.
    + intros [= <-]. split; [exact Hcb|]. split.
      * exists n. split; [now left | apply subtrees_self].
      * left. now left.
    + destruct (enqueueChildren (node_children n) (Queue.mk rest)
                  (v ++ [reference (node_element n)])%list) as [q' v'] eqn:E.
      intros Hf. destruct (IH q' v' Hf) as (Hc & (r & Hr & Hsub) & Hfresh).
      assert (Hq : forall x, In x (Queue.storage q') ->
                             In x rest
                             \/ (In x (node_children n)
                                 /\ includes (reference (node_element x)) v = false)).
      { intros x Hx.
        pose proof (enqueueChildren_storage (node_children n) (Queue.mk rest)
                      (v ++ [reference (node_element n)])%list x) as H.
        rewrite E in H. destruct (H Hx) as [H1|[H1 H2]]; [now left|].
        right. split; [exact H1|].
        unfold includes in *. rewrite existsb_app in H2.
        now apply orb_false_elim in H2. }
      assert (Hv : forall x, includes x v' = false -> includes x v = false).
      { intros x Hx.
        assert (Hmono : forall ch q0 v0,
                   includes x (snd (enqueueChildren ch q0 v0)) = false ->
                   includes x v0 = false).
        { induction ch as [|c ch IHc]; intros q0 v0; simpl; [auto|].
          destruct (negb (includes (reference (node_element c)) v0)); intros H.
          - apply IHc in H. unfold includes in *. rewrite existsb_app in H.
            now apply orb_false_elim in H.
          - now apply IHc in H. }
        specialize (Hmono (node_children n) (Queue.mk rest)
                          (v ++ [reference (node_element n)])%list).
        rewrite E in Hmono. specialize (Hmono Hx).
        unfold includes in *. rewrite existsb_app in Hmono.
        now apply orb_false_elim in Hmono. }
      split; [exact Hc|]. split.
      * destruct (Hq r Hr) as [H|[H _]].
        -- exists r. split; [now right | exact Hsub].
        -- exists n. split; [now left|]. now apply (subtrees_child n r).
      * destruct Hfresh as [Hin|Hnew]; [|right; now apply Hv].
        destruct (Hq node Hin) as [H|[_ H]]; [left; now right | now right].
Qed.

(** X2.  The search of the reference tree always ends.  A node it returns
    is a node of the tree that the callback accepts; the root is tried
    first, so a root the callback accepts is the node returned, and
    [undefined] is returned only when the callback rejects the root. *)
Theorem referenceTreeBFS_returns_accepted_node (tree : TreeNode)
        (callback : TreeNode -> bool) :
  match referenceTreeBFS tree callback with
  | Found node => callback node = true /\ In node (subtrees tree)
  | NotFound => callback tree = false
  | SearchOutOfFuel => False
  end
  /\ (callback tree = true -> referenceTreeBFS tree callback = Found tree).
Proof.
  assert (Hroot : callback tree = true -> referenceTreeBFS tree callback = Found tree).
  { intros Hcb. unfold referenceTreeBFS. destruct tree as [el ch d].
    cbn [treeSize searchLoop Queue.length Queue.storage Queue.enqueue Queue.new
         List.length Nat.ltb Nat.leb Queue.dequeue app].
    now rewrite Hcb. }
  split; [|exact Hroot].
  destruct (referenceTreeBFS tree callback) as [node| |] eqn:E.
  - unfold referenceTreeBFS in E. cbv zeta in E.
    destruct (searchLoop_found _ _ _ _ _ E) as (Hc & (r & Hr & Hsub) & _).
    split; [exact Hc|]. simpl in Hr. destruct Hr as [<-|[]]. exact Hsub.
  - destruct (callback tree) eqn:Hcb; [|reflexivity].
    discriminate (Hroot eq_refl).
  - unfold referenceTreeBFS in E. cbv zeta in E.
    apply searchLoop_finishes in E; [exact E|].
    unfold queueSize. simpl. lia.
Qed.

Lemma referenceTreeBFS_returns_accepted_node_witness :
  referenceTreeBFS smallTree (hasName "@root@") = Found smallTree.
Proof.
  apply (referenceTreeBFS_returns_accepted_node smallTree (hasName "@root@")).
  reflexivity.
Defined.

(** X3.  Every node the search returns other than the root carries a
    reference different from the root's: a child whose reference equals
    the root's is not enqueued, and nothing below it is searched.  So in a
    tree whose root's children all carry the root's reference (the session
    root has reference 0, and so has the first object of a frame), nothing
    below the root is ever found. *)
Theorem referenceTreeBFS_skips_root_reference (tree : TreeNode)
        (callback : TreeNode -> bool) :
  (forall node, referenceTreeBFS tree callback = Found node ->
                node = tree
                \/ JsNum_eqb (reference (node_element node))
                             (reference (node_element tree)) = false)
  /\ (callback tree = false ->
      (forall c, In c (node_children tree) ->
                 reference (node_element c) = reference (node_element tree)) ->
      referenceTreeBFS tree callback = NotFound).
Proof.
  assert (Hfound : forall node, referenceTreeBFS tree callback = Found node ->
                node = tree
                \/ JsNum_eqb (reference (node_element node))
                             (reference (node_element tree)) = false).
  { intros node E. unfold referenceTreeBFS in E. cbv zeta in E.
    destruct (searchLoop_found _ _ _ _ _ E) as (_ & _ & [Hin|Hnew]).
    - left. simpl in Hin. destruct Hin as [<-|[]]. reflexivity.
    - right. unfold includes in Hnew. simpl in Hnew.
      now rewrite orb_false_r in Hnew. }
  split; [exact Hfound|].
  intros Hcb Hch. unfold referenceTreeBFS. destruct tree as [el ch d].
  cbn [treeSize searchLoop Queue.length Queue.storage Queue.enqueue Queue.new
       List.length Nat.ltb Nat.leb Queue.dequeue app node_children node_element].
  rewrite Hcb. simpl in Hch.
  assert (Hskip : forall l q v,
             (forall c, In c l -> includes (reference (node_element c)) v = true) ->
             enqueueChildren l q v = (q, v)).
  { induction l as [|c l IH]; intros q v Hall; simpl; [reflexivity|].
    rewrite (Hall c (or_introl eq_refl)). simpl. apply IH.
    intros c' Hc'. apply Hall. now right. }
  rewrite Hskip.
  - destruct (fold_right _ 0%nat ch); reflexivity.
  - intros c Hc. rewrite (Hch c Hc). apply includes_In.
    simpl. auto.
Qed.

Lemma referenceTreeBFS_skips_root_reference_witness :
  hasName "items" (Node (mkReferenceVariable (JInt 3) "items" "a") [] 0) = true
  /\ referenceTreeBFS shadowedTree (hasName "items") = NotFound.
Proof.
  split; [reflexivity|].
  apply (referenceTreeBFS_skips_root_reference shadowedTree (hasName "items"));
    [reflexivity|].
  intros c [<-|[]]. reflexivity.
Defined.

Lemma NoDup_app_split {A : Type} (a b : list A) :
  NoDup (a ++ b)%list ->
  NoDup a /\ NoDup b /\ (forall x, In x a -> ~ In x b).
Proof.
  intros H. split; [now apply NoDup_app_remove_r in H|].
  split; [now apply NoDup_app_remove_l in H|].
  induction a as [|y a IH]; [intros x []|].
  simpl in H. inversion H as [|? ? Hy Ha]; subst.
  intros x [<-|Hx] Hb.
  - apply Hy. apply in_or_app. now right.
  - now apply (IH Ha x).
Qed.

Lemma treeReferences_unfold (t : TreeNode) :
  treeReferences t
  = reference (node_element t) :: flat_map treeReferences (node_children t).
Proof. now destruct t. Qed.

Lemma child_reference_in (ch : list TreeNode) (c : TreeNode) :
  In c ch -> In (reference (node_element c)) (flat_map treeReferences ch).
Proof.
  intros Hc. apply in_flat_map. exists c. split; [exact Hc|].
  rewrite treeReferences_unfold. now left.
Qed.

Lemma innerReferences_in (ch : list TreeNode) (x : JsNum) :
  In x (innerReferences ch) -> In x (flat_map treeReferences ch).
Proof.
  unfold innerReferences. rewrite !in_flat_map. intros (c & Hc & Hx).
  exists c. split; [exact Hc|]. rewrite treeReferences_unfold. now right.
Qed.

Lemma innerReferences_app (a b : list TreeNode) :
  innerReferences (a ++ b)%list = (innerReferences a ++ innerReferences b)%list.
Proof. unfold innerReferences. apply flat_map_app. Qed.

(** In a forest with pairwise different references no reference below a
    root is the reference of a root. *)
Lemma inner_not_root (ch : list TreeNode) :
  NoDup (flat_map treeReferences ch) ->
  forall x, In x (innerReferences ch) ->
            ~ In x (map (fun c => reference (node_element c)) ch).
Proof.
  induction ch as [|c ch IH]; [intros _ x []|].
  cbn [flat_map innerReferences map]. rewrite treeReferences_unfold.
  intros Hnd x Hx.
  apply NoDup_app_split in Hnd. destruct Hnd as (Hc & Hrest & Hdis).
  inversion Hc as [|? ? Hroot Hinner]; subst.
  assert (Hroots : forall y, In y (map (fun c => reference (node_element c)) ch) ->
                             In y (flat_map treeReferences ch)).
  { intros y Hy. apply in_map_iff in Hy. destruct Hy as (c' & <- & Hc').
    now apply child_reference_in. }
  apply in_app_or in Hx. intros [Heq|Hin].
  - destruct Hx as [Hx|Hx].
    + apply Hroot. now rewrite Heq.
    + apply (Hdis (reference (node_element c))); [now left|].
      rewrite Heq. now apply innerReferences_in.
  - destruct Hx as [Hx|Hx].
    + apply (Hdis x); [now right|]. now apply Hroots.
    + now apply (IH Hrest x).
Qed.

Lemma NoDup_root_references (ch : list TreeNode) :
  NoDup (flat_map treeReferences ch) ->
  NoDup (map (fun c => reference (node_element c)) ch).
Proof.
  induction ch as [|c ch IH]; [constructor|].
  cbn [flat_map map]. rewrite treeReferences_unfold. intros Hnd.
  apply NoDup_app_split in Hnd. destruct Hnd as (Hc & Hrest & Hdis).
  constructor; [|now apply IH].
  intros Hin. apply in_map_iff in Hin. destruct Hin as (c' & Heq & Hc').
  apply (Hdis (reference (node_element c))); [now left|].
  rewrite <- Heq. now apply child_reference_in.
Qed.

(** Children with pairwise different, unvisited references are all
    enqueued. *)
Lemma enqueueChildren_all (ch : list TreeNode) (q : Queue.t TreeNode)
      (v : list JsNum) :
  NoDup (map (fun c => reference (node_element c)) ch) ->
  (forall c, In c ch -> ~ In (reference (node_element c)) v) ->
  enqueueChildren ch q v
  = (Queue.mk (Queue.storage q ++ ch)%list,
     (v ++ map (fun c => reference (node_element c)) ch)%list).
Proof.
  revert q v. induction ch as [|c ch IH]; intros q v Hnd Hnew; simpl.
  - rewrite !app_nil_r. now destruct q.
  - inversion Hnd as [|? ? Hc Hrest]; subst.
    assert (E : includes (reference (node_element c)) v = false).
    { apply includes_false. apply Hnew. now left. }
    rewrite E. simpl. rewrite IH; [|exact Hrest|].
    + simpl. now rewrite <- !app_assoc.
    + intros c' Hc' Hin. apply in_app_or in Hin. destruct Hin as [Hin|[Heq|[]]].
      * apply (Hnew c'); [now right | exact Hin].
      * apply Hc. rewrite Heq. apply in_map_iff. now exists c'.
Qed.

(** On a forest with pairwise different references the search gives up
    only when the callback rejects every node. *)
Lemma searchLoop_exhaustive (fuel : nat) (cb : TreeNode -> bool)
      (q : Queue.t TreeNode) (v : list JsNum) :
  searchInvariant q v ->
  searchLoop fuel cb q v = NotFound ->
  forall node, In node (flat_map subtrees (Queue.storage q)) -> cb node = false.
Proof.
  revert q v. induction fuel as [|fuel IH]; intros [l] v Hinv.
  - destruct l; simpl; [intros _ node []|discriminate].
  - destruct l as [|n rest]; [intros _ node []|].
    cbn [searchLoop Queue.length Queue.storage List.length Nat.ltb Nat.leb
         Queue.dequeue].
    destruct (cb n) eqn:Hcb; [discriminate|].
    destruct Hinv as [Hnd Hinner]. cbn [Queue.storage flat_map] in Hnd, Hinner.
    rewrite treeReferences_unfold in Hnd.
    apply NoDup_app_split in Hnd. destruct Hnd as (Hn & Hrest & Hdis).
    inversion Hn as [|? ? Hroot Hch]; subst.
    rewrite enqueueChildren_all.
    + cbn [Queue.storage]. intros Hnot node Hnode.
      assert (Hinv' : searchInvariant
                        (Queue.mk (rest ++ node_children n)%list)
                        ((v ++ [reference (node_element n)])
                           ++ map (fun c => reference (node_element c))
                                  (node_children n))%list).
      { split; cbn [Queue.storage].
        - rewrite flat_map_app. apply NoDup_app_disjoint; [exact Hrest | exact Hch|].
          intros x Hx Hxr. apply (Hdis x); [now right | exact Hxr].
        - intros x Hx Hv. rewrite innerReferences_app in Hx.
          apply in_app_or in Hv. destruct Hv as [Hv|Hv].
          + apply in_app_or in Hv. destruct Hv as [Hv|[Heq|[]]].
            * apply (Hinner x); [|exact Hv].
              unfold innerReferences in *. cbn [flat_map].
              apply in_or_app. apply in_app_or in Hx. destruct Hx as [Hx|Hx].
              -- now right.
              -- left. now apply innerReferences_in.
            * subst x. apply in_app_or in Hx. destruct Hx as [Hx|Hx].
              -- apply (Hdis (reference (node_element n))); [now left|].
                 now apply innerReferences_in.
              -- apply Hroot. now apply innerReferences_in.
          + apply in_app_or in Hx. destruct Hx as [Hx|Hx].
            * apply (Hdis x).
              -- right. apply in_map_iff in Hv. destruct Hv as (c & <- & Hc).
                 now apply child_reference_in.
              -- now apply innerReferences_in.
            * now apply (inner_not_root (node_children n) Hch x). }
      specialize (IH _ _ Hinv' Hnot). cbn [Queue.storage] in IH.
      cbn [flat_map] in Hnode. apply in_app_or in Hnode.
      destruct Hnode as [Hnode|Hnode].
      * destruct n as [el ch d]. simpl in Hnode. destruct Hnode as [<-|Hnode].
        -- exact Hcb.
        -- apply IH. rewrite flat_map_app. apply in_or_app. now right.
      * apply IH. rewrite flat_map_app. apply in_or_app. now left.
    + now apply NoDup_root_references.
    + intros c Hc Hin. apply in_app_or in Hin. destruct Hin as [Hin|[Heq|[]]].
      * apply (Hinner (reference (node_element c))); [|exact Hin].
        unfold innerReferences. cbn [flat_map]. apply in_or_app. left.
        now apply child_reference_in.
      * apply Hroot. rewrite Heq. now apply child_reference_in.
Qed.

(** X4.  On a tree whose references are pairwise different the search is
    complete: it returns [undefined] exactly when the callback rejects
    every node of the tree, and otherwise returns a node the callback
    accepts. *)
Theorem referenceTreeBFS_complete (tree : TreeNode) (callback : TreeNode -> bool) :
  NoDup (treeReferences tree) ->
  (referenceTreeBFS tree callback = NotFound
   <-> forall node, In node (subtrees tree) -> callback node = false)
  /\ ((exists node, In node (subtrees tree) /\ callback node = true) ->
      exists found, referenceTreeBFS tree callback = Found found
                    /\ callback found = true).
Proof.
  intros Hnd.
  assert (Hinv : searchInvariant (Queue.enqueue tree Queue.new)
                                 [reference (node_element tree)]).
  { split; cbn [Queue.storage Queue.enqueue Queue.new app flat_map].
    - now rewrite app_nil_r.
    - unfold innerReferences. cbn [flat_map]. rewrite app_nil_r.
      intros x Hx [Heq|[]]. rewrite treeReferences_unfold in Hnd.
      inversion Hnd as [|? ? Hroot _]; subst. now apply Hroot. }
  assert (Hsize : (queueSize (Queue.enqueue tree Queue.new) <= treeSize tree)%nat).
  { unfold queueSize. simpl. lia. }
  assert (Hback : (forall node, In node (subtrees tree) -> callback node = false) ->
                  referenceTreeBFS tree callback = NotFound).
  { intros Hall. destruct (referenceTreeBFS tree callback) as [node| |] eqn:E;
      [| reflexivity |]; unfold referenceTreeBFS in E; cbv zeta in E.
    - destruct (searchLoop_found _ _ _ _ _ E) as (Hc & (r & Hr & Hsub) & _).
      simpl in Hr. destruct Hr as [<-|[]]. rewrite (Hall node Hsub) in Hc.
      discriminate.
    - now apply searchLoop_finishes in E. }
  split; [split; [|exact Hback]|].
  - intros E node Hnode. unfold referenceTreeBFS in E. cbv zeta in E.
    apply (searchLoop_exhaustive _ _ _ _ Hinv E). simpl.
    now rewrite app_nil_r.
  - intros (node & Hnode & Hcb).
    destruct (referenceTreeBFS tree callback) as [found| |] eqn:E;
      unfold referenceTreeBFS in E; cbv zeta in E.
    + exists found. split; [reflexivity|].
      now destruct (searchLoop_found _ _ _ _ _ E).
    + pose proof (searchLoop_exhaustive _ _ _ _ Hinv E node) as H.
      simpl in H. rewrite app_nil_r in H. rewrite (H Hnode) in Hcb. discriminate.
    + now apply searchLoop_finishes in E.
Qed.

Lemma referenceTreeBFS_complete_witness :
  exists found, referenceTreeBFS smallTree (hasName "items") = Found found
                /\ hasName "items" found = true.
Proof.
  apply (referenceTreeBFS_complete smallTree (hasName "items")).
  - repeat constructor; simpl; intuition discriminate.
  - exists (Node (mkReferenceVariable (JInt 3) "items" "a") [] 0).
    split; [simpl; auto | reflexivity].
Defined.

(** ** Maps of arrays *)

Lemma arrayMapToArray_flat {K T : Type} (m : list (K * list T)) :
  arrayMapToArray m = flat_map snd m.
Proof.
  unfold arrayMapToArray.
  assert (H : forall acc, fold_left (fun merged kv => (merged ++ snd kv)%list) m acc
                          = (acc ++ flat_map snd m)%list).
  { induction m as [|[k a] rest IH]; intros acc; simpl.
    - now rewrite app_nil_r.
    - rewrite IH. now rewrite <- app_assoc. }
  apply (H []).
Qed.

Lemma mapGet_mapSet_other {K V : Type} (eqb : K -> K -> bool) (k other : K) (v : V)
      (m : list (K * V)) :
  (forall a b, eqb a b = true <-> a = b) ->
  other <> k -> mapGet eqb other (mapSet eqb k v m) = mapGet eqb other m.
Proof.
  intros Heq Hne. induction m as [|[k' x] rest IH]; cbn [mapGet mapSet].
  - destruct (eqb other k) eqn:E; [|reflexivity]. apply Heq in E. contradiction.
  - destruct (eqb k k') eqn:E; cbn [mapGet].
    + apply Heq in E. subst k'.
      destruct (eqb other k) eqn:E'; [|reflexivity]. apply Heq in E'. contradiction.
    + now rewrite IH.
Qed.

Lemma flat_mapSet_push {K T : Type} (eqb : K -> K -> bool) (key : K)
      (items : list T) (m : list (K * list T)) :
  let old := match mapGet eqb key m with Some a => a | None => [] end in
  exists before after,
    flat_map snd m = (before ++ old ++ after)%list
    /\ flat_map snd (mapSet eqb key (old ++ items)%list m)
       = (before ++ (old ++ items) ++ after)%list.
Proof.
  induction m as [|[k' a] rest IH]; cbn [mapGet mapSet flat_map snd].
  - exists [], []. simpl. now rewrite !app_nil_r.
  - destruct (eqb key k') eqn:E; cbn [flat_map snd].
    + exists [], (flat_map snd rest). split; reflexivity.
    + destruct IH as (before & after & H1 & H2).
      exists (a ++ before)%list, after. rewrite H1, H2.
      now rewrite <- !app_assoc.
Qed.

(** X5.  [pushToMapArray] returns the items it was given and leaves them at
    the end of the array stored under the key, after what the array held
    (an absent key starts from the empty array); the array of every other
    key is as before, and the flattened map ([arrayMapToArray]) holds the
    old elements and the items, the items once more than before. *)
Theorem pushToMapArray_appends (K T : Type) (eqb : K -> K -> bool)
        (m : list (K * list T)) (key : K) (items : list T) :
  (forall a b, eqb a b = true <-> a = b) ->
  let old := match mapGet eqb key m with Some a => a | None => [] end in
  let r := pushToMapArray eqb m key items in
  fst r = items
  /\ mapGet eqb key (snd r) = Some (old ++ items)%list
  /\ (forall other, other <> key -> mapGet eqb other (snd r) = mapGet eqb other m)
  /\ List.length (arrayMapToArray (snd r))
     = (List.length (arrayMapToArray m) + List.length items)%nat
  /\ (forall x, In x (arrayMapToArray (snd r))
                <-> In x (arrayMapToArray m) \/ In x items).
Proof.
  intros Heq. cbv zeta. unfold pushToMapArray. cbn [fst snd].
  split; [reflexivity|]. split; [|split].
  - apply mapGet_mapSet_same. now apply Heq.
  - intros other Hne. now apply mapGet_mapSet_other.
  - rewrite !arrayMapToArray_flat.
    destruct (flat_mapSet_push eqb key items m) as (before & after & H1 & H2).
    cbv zeta in H1, H2. rewrite H1, H2. split.
    + rewrite !length_app. lia.
    + intros x. rewrite !in_app_iff. tauto.
Qed.

Lemma pushToMapArray_appends_witness :
  mapGet Z.eqb 7%Z (snd (pushToMapArray Z.eqb [(3%Z, [1%nat]); (7%Z, [2%nat])] 7%Z
                                        [5%nat; 6%nat]))
  = Some [2%nat; 5%nat; 6%nat].
Proof.
  apply (pushToMapArray_appends Z nat Z.eqb [(3%Z, [1%nat]); (7%Z, [2%nat])] 7%Z
                                [5%nat; 6%nat]).
  intros a b. apply Z.eqb_eq.
Defined.

(** ** Breakpoint requests and acknowledgements *)

(** ** The breakpoint registry: responses and invariants *)

Lemma mapGet_mapSet_other_string {V : Type} (k other : string) (v : V)
      (m : list (string * V)) :
  other <> k ->
  mapGet String.eqb other (mapSet String.eqb k v m) = mapGet String.eqb other m.
Proof.
  apply mapGet_mapSet_other. intros a b. apply String.eqb_eq.
Qed.

Lemma In_mapSet {K V : Type} (eqb : K -> K -> bool) (k k' : K) (v v' : V)
      (m : list (K * V)) :
  In (k', v') (mapSet eqb k v m) -> In (k', v') m \/ v' = v.
Proof.
  induction m as [|[k0 v0] rest IH]; cbn [mapSet].
  - intros [[= _ <-]|[]]. now right.
  - destruct (eqb k k0).
    + intros [[= _ <-]|Hin]; [now right | left; now right].
    + intros [Heq|Hin]; [left; now left|].
      destruct (IH Hin) as [H|H]; [left; now right | now right].
Qed.

Lemma mapGet_In {V : Type} (k : string) (v : V) (m : list (string * V)) :
  mapGet String.eqb k m = Some v -> exists k', In (k', v) m.
Proof.
  induction m as [|[k0 v0] rest IH]; cbn [mapGet]; [discriminate|].
  destruct (String.eqb k k0).
  - intros [= <-]. exists k0. now left.
  - intros H. destruct (IH H) as [k' Hk']. exists k'. now right.
Qed.

Lemma makeBreakpoint_step (p : string) (original : list IBreakpoint)
      (line : N) (s : Session) :
  let s' := makeBreakpoint p original s line in
  breakpointsOf p s'
  = (breakpointsOf p s
       ++ [mkBreakpoint (_breakpointID s) line (reportedVerified original line)])%list
  /\ _breakpointID s' = (_breakpointID s + 1)%N
  /\ (forall other, other <> p ->
        mapGet String.eqb other (_breakpoints s')
        = mapGet String.eqb other (_breakpoints s))
  /\ _breakpointsRefCount s' = _breakpointsRefCount s
  /\ nextObjectId s' = nextObjectId s
  /\ socket s' = socket s.
Proof.
  cbv zeta. unfold makeBreakpoint. cbv zeta.
  rewrite breakpointsOf_set.
  split; [reflexivity|]. split; [reflexivity|].
  split; [|split; [|split]; reflexivity].
  intros other Hne. cbn [_breakpoints set_breakpoints].
  now apply mapGet_mapSet_other_string.
Qed.

(** The breakpoints a request builds: the path's array grows by
    [newBreakpoints], the id counter by their number, and no other path is
    touched. *)
Lemma makeBreakpoints_built (p : string) (original : list IBreakpoint)
      (lines : list N) (s : Session) :
  let s' := fold_left (makeBreakpoint p original) lines s in
  breakpointsOf p s'
  = (breakpointsOf p s ++ newBreakpoints original (_breakpointID s) lines)%list
  /\ _breakpointID s' = (_breakpointID s + N.of_nat (List.length lines))%N
  /\ (forall other, other <> p ->
        mapGet String.eqb other (_breakpoints s')
        = mapGet String.eqb other (_breakpoints s))
  /\ _breakpointsRefCount s' = _breakpointsRefCount s
  /\ nextObjectId s' = nextObjectId s.
Proof.
  revert s. induction lines as [|line rest IH]; intros s.
  - simpl. rewrite app_nil_r, N.add_0_r. auto.
  - cbn [fold_left]. destruct (IH (makeBreakpoint p original s line))
      as (Hb & Hid & Hother & Hrc & Hobj).
    destruct (makeBreakpoint_step p original line s)
      as (Sb & Sid & Sother & Src & Sobj & _).
    cbv zeta in *. rewrite Hb, Hid, Hrc, Hobj, Sb, Sid, Src, Sobj.
    split; [|split; [|split; [|split; reflexivity]]].
    + cbn [newBreakpoints]. now rewrite <- app_assoc.
    + cbn [List.length]. lia.
    + intros other Hne. now rewrite (Hother other Hne), (Sother other Hne).
Qed.

Lemma newBreakpoints_fields (original : list IBreakpoint) (first : N)
      (lines : list N) :
  map bp_line (newBreakpoints original first lines) = lines
  /\ map bp_id (newBreakpoints original first lines)
     = idsFrom first (List.length lines)
  /\ map bp_verified (newBreakpoints original first lines)
     = map (reportedVerified original) lines.
Proof.
  revert first. induction lines as [|line rest IH]; intros first; [now simpl|].
  destruct (IH (first + 1)%N) as (Hl & Hi & Hv).
  cbn [newBreakpoints map bp_line bp_id bp_verified List.length].
  rewrite Hl, Hi, Hv. split; [reflexivity|]. split; [|reflexivity].
  unfold idsFrom. cbn [seq map]. rewrite <- seq_shift, map_map.
  f_equal; [f_equal; lia|]. apply map_ext. intros i. lia.
Qed.

(** The loops over the removed and the added lines leave the breakpoint
    arrays and the id counter alone. *)
Lemma removeBreakpoints_registry (p : string) (l : list IBreakpoint) (s : Session) :
  _breakpoints (fold_left (removeBreakpointStep p) l s) = _breakpoints s
  /\ _breakpointID (fold_left (removeBreakpointStep p) l s) = _breakpointID s.
Proof.
  revert s. induction l as [|bp rest IH]; intros s; simpl; [auto|].
  destruct (IH (removeBreakpointStep p s bp)) as [H1 H2]. rewrite H1, H2.
  unfold removeBreakpointStep, newRefCountKey. cbv zeta.
  match goal with
  | |- context [if ?c then _ else _] => destruct c
  end; unfold sendRemoveBreakpoint; cbv zeta; split_debugPrint; auto.
Qed.

Lemma addBreakpoints_registry (p : string) (l : list IBreakpoint) (s : Session) :
  _breakpoints (fold_left (addBreakpointStep p) l s) = _breakpoints s
  /\ _breakpointID (fold_left (addBreakpointStep p) l s) = _breakpointID s.
Proof.
  revert s. induction l as [|bp rest IH]; intros s; simpl; [auto|].
  destruct (IH (addBreakpointStep p s bp)) as [H1 H2]. rewrite H1, H2.
  unfold addBreakpointStep, newRefCountKey. cbv zeta.
  assert (H : _breakpoints (sendAddBreakpoint p (bp_line bp) s) = _breakpoints s
              /\ _breakpointID (sendAddBreakpoint p (bp_line bp) s) = _breakpointID s).
  { unfold sendAddBreakpoint. cbv zeta. split_debugPrint; auto. }
  destruct H as [K1 K2]. rewrite <- K1, <- K2.
  generalize (sendAddBreakpoint p (bp_line bp) s). intros x.
  destruct (negb (existsb (String.eqb (basename p)) (_notifiedFileBreakpoints x)));
    auto.
Qed.

(** The registry after a request, field by field. *)
Lemma setBreakPointsRequest_registry (relativePath : string) (lines : list N)
      (s : Session) :
  let bpPath := replaceBackslashes relativePath in
  let r := setBreakPointsRequest relativePath lines s in
  fst r = newBreakpoints (breakpointsOf bpPath s) (_breakpointID s) lines
  /\ breakpointsOf bpPath (snd r) = fst r
  /\ _breakpointID (snd r) = (_breakpointID s + N.of_nat (List.length lines))%N
  /\ (forall other, other <> bpPath ->
        mapGet String.eqb other (_breakpoints (snd r))
        = mapGet String.eqb other (_breakpoints s)).
Proof.
  cbv zeta. unfold setBreakPointsRequest. cbv zeta. cbn [fst snd].
  set (bpPath := replaceBackslashes relativePath).
  set (original := breakpointsOf bpPath s).
  set (s0 := set_breakpoints (mapSet String.eqb bpPath [] (_breakpoints s)) s).
  destruct (makeBreakpoints_built bpPath original lines s0)
    as (Hb & Hid & Hother & _).
  cbv zeta in Hb, Hid, Hother.
  unfold s0 in Hb at 2. rewrite breakpointsOf_set in Hb. cbn [app] in Hb.
  set (s1 := fold_left (makeBreakpoint bpPath original) lines s0) in *.
  split; [exact Hb|].
  set (forRemoval := filter _ original).
  set (forInclusion := filter _ (breakpointsOf bpPath s1)).
  destruct (addBreakpoints_registry bpPath forInclusion
              (fold_left (removeBreakpointStep bpPath) forRemoval s1)) as [A1 A2].
  destruct (removeBreakpoints_registry bpPath forRemoval s1) as [R1 R2].
  split; [|split].
  - unfold breakpointsOf at 1. rewrite A1, R1. reflexivity.
  - rewrite A2, R2, Hid. reflexivity.
  - intros other Hne. rewrite A1, R1, (Hother other Hne).
    unfold s0. cbn [_breakpoints set_breakpoints].
    now apply mapGet_mapSet_other_string.
Qed.

(** X6.  The response to a set-breakpoints request lists one breakpoint
    per requested line, in the order requested; their ids are consecutive
    from the session's id counter; a line the path already held is
    reported with the verification state of the first breakpoint held on
    it, and a line it did not hold is reported verified at once.  The
    response is what the registry holds for the path afterwards, and the
    arrays of all other paths are as before. *)
Theorem setBreakpoints_response (relativePath : string) (lines : list N)
        (s : Session) :
  let bpPath := replaceBackslashes relativePath in
  let r := setBreakPointsRequest relativePath lines s in
  map bp_line (fst r) = lines
  /\ map bp_id (fst r) = idsFrom (_breakpointID s) (List.length lines)
  /\ map bp_verified (fst r)
     = map (reportedVerified (breakpointsOf bpPath s)) lines
  /\ breakpointsOf bpPath (snd r) = fst r
  /\ _breakpointID (snd r) = (_breakpointID s + N.of_nat (List.length lines))%N
  /\ (forall other, other <> bpPath ->
        mapGet String.eqb other (_breakpoints (snd r))
        = mapGet String.eqb other (_breakpoints s)).
Proof.
  cbv zeta.
  destruct (setBreakPointsRequest_registry relativePath lines s)
    as (Hr & Hb & Hid & Hother).
  cbv zeta in Hr, Hb, Hid, Hother.
  destruct (newBreakpoints_fields (breakpointsOf (replaceBackslashes relativePath) s)
              (_breakpointID s) lines) as (Hl & Hi & Hv).
  rewrite Hr at 1 2 3. auto 7.
Qed.

Lemma idsFrom_cons (first : N) (n : nat) :
  idsFrom first (S n) = first :: idsFrom (first + 1) n.
Proof.
  unfold idsFrom. cbn [seq map]. rewrite <- seq_shift, map_map.
  f_equal; [lia|]. apply map_ext. intros i. lia.
Qed.

Lemma idsFrom_bounds (first : N) (n : nat) (x : N) :
  In x (idsFrom first n) -> (first <= x < first + N.of_nat n)%N.
Proof.
  unfold idsFrom. rewrite in_map_iff. intros (i & <- & Hi).
  apply in_seq in Hi. lia.
Qed.

Lemma idsFrom_NoDup (first : N) (n : nat) : NoDup (idsFrom first n).
Proof.
  revert first. induction n as [|n IH]; intros first; [constructor|].
  rewrite idsFrom_cons. constructor; [|apply IH].
  intros Hin. apply idsFrom_bounds in Hin. lia.
Qed.

Lemma makeBreakpoint_idsBelow (p : string) (original : list IBreakpoint)
      (line : N) (s : Session) :
  idsBelow s -> idsBelow (makeBreakpoint p original s line).
Proof.
  unfold idsBelow, makeBreakpoint. cbv zeta.
  cbn [_breakpoints _breakpointID set_breakpoints set_breakpointID].
  intros Hs path bps bp Hin Hbp.
  apply In_mapSet in Hin. destruct Hin as [Hin|Heq].
  - specialize (Hs path bps bp Hin Hbp). lia.
  - subst bps. apply in_app_or in Hbp. destruct Hbp as [Hbp|[<-|[]]].
    + destruct (mapGet String.eqb p (_breakpoints s)) as [a|] eqn:E; [|destruct Hbp].
      destruct (mapGet_In _ _ _ E) as [k' Hk'].
      specialize (Hs k' a bp Hk' Hbp). lia.
    + cbn [bp_id]. lia.
Qed.

(** X7.  Breakpoint ids are never reused: when every breakpoint of the
    registry has an id below the id counter, this still holds after a
    set-breakpoints request, the ids in the response are pairwise
    different, and none of them is the id of a breakpoint the registry
    held before the request, under any path. *)
Theorem setBreakpoints_ids_are_fresh (relativePath : string) (lines : list N)
        (s : Session) :
  idsBelow s ->
  let r := setBreakPointsRequest relativePath lines s in
  idsBelow (snd r)
  /\ NoDup (map bp_id (fst r))
  /\ (forall path bps bp,
        In (path, bps) (_breakpoints s) -> In bp bps ->
        ~ In (bp_id bp) (map bp_id (fst r))).
Proof.
  intros Hs. cbv zeta.
  destruct (setBreakPointsRequest_registry relativePath lines s) as (Hr & _).
  cbv zeta in Hr.
  destruct (newBreakpoints_fields (breakpointsOf (replaceBackslashes relativePath) s)
              (_breakpointID s) lines) as (_ & Hi & _).
  rewrite Hr, Hi. split; [|split].
  - clear Hr Hi. unfold setBreakPointsRequest. cbv zeta. cbn [snd].
    set (bpPath := replaceBackslashes relativePath).
    set (original := breakpointsOf bpPath s).
    set (s0 := set_breakpoints (mapSet String.eqb bpPath [] (_breakpoints s)) s).
    assert (H0 : idsBelow s0).
    { unfold idsBelow, s0. cbn [_breakpoints _breakpointID set_breakpoints].
      intros path bps bp Hin Hbp. apply In_mapSet in Hin.
      destruct Hin as [Hin| ->]; [now apply (Hs path bps bp) | destruct Hbp]. }
    assert (H1 : idsBelow (fold_left (makeBreakpoint bpPath original) lines s0)).
    { generalize H0. generalize s0. clear H0.
      induction lines as [|line rest IH]; intros st Hst; [exact Hst|].
      cbn [fold_left]. apply IH. now apply makeBreakpoint_idsBelow. }
    set (s1 := fold_left (makeBreakpoint bpPath original) lines s0) in *.
    set (forRemoval := filter _ original).
    set (forInclusion := filter _ (breakpointsOf bpPath s1)).
    destruct (addBreakpoints_registry bpPath forInclusion
                (fold_left (removeBreakpointStep bpPath) forRemoval s1)) as [A1 A2].
    destruct (removeBreakpoints_registry bpPath forRemoval s1) as [R1 R2].
    unfold idsBelow. rewrite A1, A2, R1, R2. exact H1.
  - apply idsFrom_NoDup.
  - intros path bps bp Hin Hbp Hid. apply idsFrom_bounds in Hid.
    specialize (Hs path bps bp Hin Hbp). lia.
Qed.

Lemma setBreakpoints_ids_are_fresh_witness :
  let s1 := snd (setBreakPointsRequest "a/x.nut" [5%N; 9%N] connectedSession) in
  let r := setBreakPointsRequest "b/x.nut" [5%N] s1 in
  idsBelow (snd r)
  /\ NoDup (map bp_id (fst r))
  /\ (forall path bps bp,
        In (path, bps) (_breakpoints s1) -> In bp bps ->
        ~ In (bp_id bp) (map bp_id (fst r))).
Proof.
  apply (setBreakpoints_ids_are_fresh
           "b/x.nut" [5%N]
           (snd (setBreakPointsRequest "a/x.nut" [5%N; 9%N] connectedSession))).
  intros path bps bp [H|[]]; injection H as <- <-.
  intros [<-|[<-|[]]]; vm_compute; reflexivity.
Defined.

(** What a request writes: remove commands for lines the path held and
    holds no more, then an add command for every line it did not hold. *)
Lemma setBreakPointsRequest_writes (relativePath : string) (lines : list N)
      (s : Session) :
  let bpPath := replaceBackslashes relativePath in
  let original := breakpointsOf bpPath s in
  exists removed,
    socket (snd (setBreakPointsRequest relativePath lines s))
    = (socket s
         ++ map (removeBreakpointCommand bpPath) removed
         ++ map (addBreakpointCommand bpPath)
                (filter (fun line => negb (hasLine original line)) lines))%list
    /\ incl removed
            (filter (fun line => negb (existsb (N.eqb line) lines))
                    (map bp_line original)).
Proof.
  cbv zeta. unfold setBreakPointsRequest. cbv zeta. cbn [snd].
  set (bpPath := replaceBackslashes relativePath).
  set (original := breakpointsOf bpPath s).
  set (s0 := set_breakpoints (mapSet String.eqb bpPath [] (_breakpoints s)) s).
  destruct (makeBreakpoints_lines bpPath original lines s0) as [Hlines Hsock].
  cbv zeta in Hlines, Hsock.
  unfold s0 in Hlines at 2. rewrite breakpointsOf_set in Hlines. simpl in Hlines.
  set (s1 := fold_left (makeBreakpoint bpPath original) lines s0) in *.
  set (forRemoval := filter (fun element =>
                               negb (hasLine (breakpointsOf bpPath s1)
                                             (bp_line element))) original).
  set (forInclusion := filter (fun element =>
                                 negb (hasLine original (bp_line element)))
                              (breakpointsOf bpPath s1)).
  destruct (removeBreakpoints_socket bpPath forRemoval s1) as (removed & Hrem & Hincl).
  exists removed. split.
  - rewrite addBreakpoints_socket, Hrem, Hsock.
    unfold bpPath at 1 2. rewrite replaceBackslashes_idem. fold bpPath.
    unfold forInclusion.
    rewrite (map_filter_lines (fun line => negb (hasLine original line))), Hlines.
    now rewrite <- app_assoc.
  - intros line Hin. apply Hincl in Hin. unfold forRemoval in Hin.
    rewrite (map_filter_lines
               (fun line => negb (hasLine (breakpointsOf bpPath s1) line))) in Hin.
    apply filter_In in Hin. destruct Hin as [Hold Hnew].
    apply filter_In. split; [exact Hold|].
    apply negb_true_iff in Hnew. apply negb_true_iff.
    destruct (existsb (N.eqb line) lines) eqn:E; [|reflexivity].
    apply existsb_exists in E. destruct E as (x & Hx & Hxl).
    apply N.eqb_eq in Hxl. subst x.
    rewrite <- Hlines in Hx. apply hasLine_In in Hx. congruence.
Qed.

Lemma reportedVerified_new (original : list IBreakpoint) (first : N)
      (lines : list N) (line : N) :
  In line lines ->
  reportedVerified (newBreakpoints original first lines) line
  = reportedVerified original line.
Proof.
  revert first. induction lines as [|l rest IH]; intros first; [intros []|].
  intros Hin. unfold reportedVerified at 1. cbn [newBreakpoints find bp_line].
  destruct (N.eqb l line) eqn:E.
  - apply N.eqb_eq in E. now subst l.
  - destruct Hin as [->|Hin]; [rewrite N.eqb_refl in E; discriminate|].
    apply (IH (first + 1)%N Hin).
Qed.

Lemma filter_all_held (held : list IBreakpoint) (ls : list N) :
  (forall line, In line ls -> hasLine held line = true) ->
  filter (fun line => negb (hasLine held line)) ls = [].
Proof.
  induction ls as [|l rest IH]; intros Hheld; [reflexivity|].
  cbn [filter]. rewrite (Hheld l (or_introl eq_refl)). simpl.
  apply IH. intros line Hin. apply Hheld. now right.
Qed.

(** X8.  Re-sending the breakpoints a path already holds writes nothing
    to the socket: the second of two equal set-breakpoints requests sends
    no add and no remove command, and reports the same lines with the same
    verification states as the first (under new ids). *)
Theorem setBreakpoints_repeat_is_silent (relativePath : string) (lines : list N)
        (s : Session) :
  let r1 := setBreakPointsRequest relativePath lines s in
  let r2 := setBreakPointsRequest relativePath lines (snd r1) in
  socket (snd r2) = socket (snd r1)
  /\ map bp_line (fst r2) = map bp_line (fst r1)
  /\ map bp_verified (fst r2) = map bp_verified (fst r1)
  /\ map bp_id (fst r2)
     = idsFrom (_breakpointID s + N.of_nat (List.length lines)) (List.length lines).
Proof.
  cbv zeta.
  destruct (setBreakPointsRequest_registry relativePath lines s)
    as (Hr1 & Hb1 & Hid1 & _).
  cbv zeta in Hr1, Hb1, Hid1.
  set (r1 := setBreakPointsRequest relativePath lines s) in *.
  destruct (setBreakPointsRequest_registry relativePath lines (snd r1))
    as (Hr2 & _).
  cbv zeta in Hr2. rewrite Hb1, Hid1 in Hr2.
  destruct (newBreakpoints_fields
              (breakpointsOf (replaceBackslashes relativePath) s)
              (_breakpointID s) lines) as (Hl1 & _ & Hv1).
  destruct (newBreakpoints_fields (fst r1)
              (_breakpointID s + N.of_nat (List.length lines)) lines)
    as (Hl2 & Hi2 & Hv2).
  split; [|split; [|split]].
  - destruct (setBreakPointsRequest_writes relativePath lines (snd r1))
      as (removed & Hs & Hincl).
    cbv zeta in Hs, Hincl. rewrite Hb1 in Hs, Hincl. rewrite Hs.
    assert (Hheld : forall line, In line lines -> hasLine (fst r1) line = true).
    { intros line Hin. apply hasLine_In. rewrite Hr1, Hl1. exact Hin. }
    assert (Hadd : filter (fun line => negb (hasLine (fst r1) line)) lines = []).
    { now apply filter_all_held. }
    assert (Hrem : removed = []).
    { destruct removed as [|x rest]; [reflexivity|].
      specialize (Hincl x (or_introl eq_refl)).
      apply filter_In in Hincl. destruct Hincl as [Hx Hnot].
      rewrite Hr1, Hl1 in Hx. apply negb_true_iff in Hnot.
      assert (Hyes : existsb (N.eqb x) lines = true).
      { apply existsb_exists. exists x. split; [exact Hx | apply N.eqb_refl]. }
      congruence. }
    rewrite Hadd, Hrem. simpl. now rewrite app_nil_r.
  - rewrite Hr2, Hl2, Hr1, Hl1. reflexivity.
  - rewrite Hr2, Hv2, Hr1 at 1. rewrite Hr1 at 1. rewrite Hv1.
    apply map_ext_in. intros line Hin. now apply reportedVerified_new.
  - rewrite Hr2, Hi2. reflexivity.
Qed.

(** ** The breakpoint registry: wire traffic and the reference counts *)

Lemma mapDelete_miss (k : RefCountKey) (m : list (RefCountKey * Z)) :
  Forall (fun kv => (key_obj (fst kv) < key_obj k)%nat) m ->
  mapDelete RefCountKey_same k m = m.
Proof.
  induction m as [|[k' v] rest IH]; intros Hall; [reflexivity|].
  inversion Hall as [|? ? Hk Hrest]; subst. cbn [mapDelete fst] in *.
  unfold RefCountKey_same at 1.
  replace (Nat.eqb (key_obj k) (key_obj k')) with false
    by (symmetry; apply Nat.eqb_neq; lia).
  now rewrite IH.
Qed.

Lemma mapSet_miss (k : RefCountKey) (v : Z) (m : list (RefCountKey * Z)) :
  Forall (fun kv => (key_obj (fst kv) < key_obj k)%nat) m ->
  mapSet RefCountKey_same k v m = (m ++ [(k, v)])%list.
Proof.
  induction m as [|[k' v'] rest IH]; intros Hall; [reflexivity|].
  inversion Hall as [|? ? Hk Hrest]; subst. cbn [mapSet fst app] in *.
  unfold RefCountKey_same at 1.
  replace (Nat.eqb (key_obj k) (key_obj k')) with false
    by (symmetry; apply Nat.eqb_neq; lia).
  now rewrite IH.
Qed.

Lemma mapGet_miss (k : RefCountKey) (m : list (RefCountKey * Z)) :
  Forall (fun kv => (key_obj (fst kv) < key_obj k)%nat) m ->
  mapGet RefCountKey_same k m = None.
Proof.
  induction m as [|[k' v'] rest IH]; intros Hall; [reflexivity|].
  inversion Hall as [|? ? Hk Hrest]; subst. cbn [mapGet fst] in *.
  unfold RefCountKey_same at 1.
  replace (Nat.eqb (key_obj k) (key_obj k')) with false
    by (symmetry; apply Nat.eqb_neq; lia).
  now apply IH.
Qed.

Lemma keysCreated_later (m : list (RefCountKey * Z)) (n n' : nat) :
  (n <= n')%nat ->
  Forall (fun kv => (key_obj (fst kv) < n)%nat) m ->
  Forall (fun kv => (key_obj (fst kv) < n')%nat) m.
Proof.
  intros Hle. apply Forall_impl. intros kv H. lia.
Qed.

(** A removed line: the count looked up under a new array object is
    absent, so the remove command is written and the map is left as it
    was. *)
Lemma removeBreakpointStep_effect (p : string) (s : Session) (bp : IBreakpoint) :
  keysCreated s ->
  let s' := removeBreakpointStep p s bp in
  socket s'
  = (socket s ++ [removeBreakpointCommand (replaceBackslashes p) (bp_line bp)])%list
  /\ _breakpointsRefCount s' = _breakpointsRefCount s
  /\ keysCreated s'.
Proof.
  unfold keysCreated. intros Hall. cbv zeta.
  unfold removeBreakpointStep, newRefCountKey. cbv zeta.
  cbn [_breakpointsRefCount set_nextObjectId nextObjectId].
  rewrite mapGet_miss by exact Hall.
  cbn [Z.sub Z.add Z.opp Z.leb Z.compare].
  unfold sendRemoveBreakpoint. cbv zeta.
  split_debugPrint;
    cbn [_breakpointsRefCount set_nextObjectId nextObjectId writeSocket sendEvent
         set_socket set_events set_breakpointsRefCount socket];
    (rewrite mapDelete_miss
      by (cbn [key_obj]; apply (keysCreated_later _ (nextObjectId s)); [lia|exact Hall]));
    (split; [reflexivity|]); (split; [reflexivity|]);
    apply (keysCreated_later _ (nextObjectId s)); [lia | exact Hall | lia | exact Hall].
Qed.

(** An added line: the add command is written, and the count stored
    under a new array object is 1. *)
Lemma addBreakpointStep_effect (p : string) (s : Session) (bp : IBreakpoint) :
  keysCreated s ->
  let s' := addBreakpointStep p s bp in
  socket s'
  = (socket s ++ [addBreakpointCommand (replaceBackslashes p) (bp_line bp)])%list
  /\ refCountEntries s'
     = (refCountEntries s ++ [(basename p, bp_line bp, 1%Z)])%list
  /\ keysCreated s'.
Proof.
  unfold keysCreated, refCountEntries. intros Hall. cbv zeta.
  split; [apply addBreakpointStep_socket|].
  unfold addBreakpointStep, newRefCountKey. cbv zeta.
  assert (H : _breakpointsRefCount (sendAddBreakpoint p (bp_line bp) s)
              = _breakpointsRefCount s
              /\ nextObjectId (sendAddBreakpoint p (bp_line bp) s) = nextObjectId s).
  { unfold sendAddBreakpoint. cbv zeta. split_debugPrint; auto. }
  destruct H as [K1 K2]. revert K1 K2.
  generalize (sendAddBreakpoint p (bp_line bp) s). intros x K1 K2.
  destruct (negb (existsb (String.eqb (basename p)) (_notifiedFileBreakpoints x)));
    cbn [_breakpointsRefCount set_nextObjectId nextObjectId
         set_notifiedFileBreakpoints set_breakpointsRefCount];
    rewrite K1, K2;
    (rewrite mapGet_miss by exact Hall);
    (rewrite mapSet_miss
      by (cbn [key_obj]; apply (keysCreated_later _ (nextObjectId s)); [lia|exact Hall]));
    (split; [now rewrite map_app|]);
    (apply Forall_app; split;
     [apply (keysCreated_later _ (nextObjectId s)); [lia | exact Hall]
     | constructor; [cbn [fst key_obj]; lia | constructor]]).
Qed.

Lemma removeBreakpoints_effect (p : string) (l : list IBreakpoint) (s : Session) :
  keysCreated s ->
  let s' := fold_left (removeBreakpointStep p) l s in
  socket s'
  = (socket s ++ map (removeBreakpointCommand (replaceBackslashes p))
                     (map bp_line l))%list
  /\ _breakpointsRefCount s' = _breakpointsRefCount s
  /\ keysCreated s'.
Proof.
  revert s. induction l as [|bp rest IH]; intros s Hs; cbn [fold_left map].
  - now rewrite app_nil_r.
  - destruct (removeBreakpointStep_effect p s bp Hs) as (H1 & H2 & H3).
    destruct (IH _ H3) as (I1 & I2 & I3). cbv zeta in *.
    rewrite I1, I2, H1, H2, <- app_assoc. auto.
Qed.

Lemma addBreakpoints_effect (p : string) (l : list IBreakpoint) (s : Session) :
  keysCreated s ->
  let s' := fold_left (addBreakpointStep p) l s in
  refCountEntries s'
  = (refCountEntries s ++ map (fun line => (basename p, line, 1%Z)) (map bp_line l))%list
  /\ keysCreated s'.
Proof.
  revert s. induction l as [|bp rest IH]; intros s Hs; cbn [fold_left map].
  - now rewrite app_nil_r.
  - destruct (addBreakpointStep_effect p s bp Hs) as (_ & H2 & H3).
    destruct (IH _ H3) as (I1 & I2). cbv zeta in *.
    rewrite I1, H2, <- app_assoc. auto.
Qed.

Lemma hasLine_existsb (held : list IBreakpoint) (line : N) :
  hasLine held line = existsb (N.eqb line) (map bp_line held).
Proof.
  unfold hasLine. induction held as [|b rest IH]; [reflexivity|].
  cbn [existsb map]. now rewrite IH, N.eqb_sym.
Qed.

(** X9.  The wire traffic of a set-breakpoints request, in a session
    whose reference-count keys are array objects created earlier (so in
    every session grown from a new one): a remove command for every
    breakpoint the path held on a line that is no longer requested, then an
    add command for every requested line the path did not hold.  No
    reference count holds a command back: a count is looked up under a new
    array object and never found.  The reference-count map only grows, by
    one entry with count 1 for every added line. *)
Theorem setBreakpoints_wire_traffic (relativePath : string) (lines : list N)
        (s : Session) :
  keysCreated s ->
  let bpPath := replaceBackslashes relativePath in
  let original := breakpointsOf bpPath s in
  let dropped :=
    filter (fun line => negb (existsb (N.eqb line) lines)) (map bp_line original) in
  let added := filter (fun line => negb (hasLine original line)) lines in
  let s' := snd (setBreakPointsRequest relativePath lines s) in
  socket s'
  = (socket s ++ map (removeBreakpointCommand bpPath) dropped
              ++ map (addBreakpointCommand bpPath) added)%list
  /\ refCountEntries s'
     = (refCountEntries s
          ++ map (fun line => (basename bpPath, line, 1%Z)) added)%list
  /\ keysCreated s'.
Proof.
  intros Hs. cbv zeta. unfold setBreakPointsRequest. cbv zeta. cbn [snd].
  set (bpPath := replaceBackslashes relativePath).
  set (original := breakpointsOf bpPath s).
  set (s0 := set_breakpoints (mapSet String.eqb bpPath [] (_breakpoints s)) s).
  destruct (makeBreakpoints_lines bpPath original lines s0) as [Hlines Hsock].
  destruct (makeBreakpoints_built bpPath original lines s0)
    as (_ & _ & _ & Hrc & Hobj).
  cbv zeta in Hlines, Hsock, Hrc, Hobj.
  unfold s0 in Hlines at 2. rewrite breakpointsOf_set in Hlines. simpl in Hlines.
  set (s1 := fold_left (makeBreakpoint bpPath original) lines s0) in *.
  assert (H1 : keysCreated s1).
  { unfold keysCreated. rewrite Hrc, Hobj. exact Hs. }
  assert (E1 : refCountEntries s1 = refCountEntries s).
  { unfold refCountEntries. now rewrite Hrc. }
  set (forRemoval := filter (fun element =>
                               negb (hasLine (breakpointsOf bpPath s1)
                                             (bp_line element))) original).
  set (forInclusion := filter (fun element =>
                                 negb (hasLine original (bp_line element)))
                              (breakpointsOf bpPath s1)).
  destruct (removeBreakpoints_effect bpPath forRemoval s1 H1) as (R1 & R2 & R3).
  cbv zeta in R1, R2, R3.
  set (s2 := fold_left (removeBreakpointStep bpPath) forRemoval s1) in *.
  destruct (addBreakpoints_effect bpPath forInclusion s2 R3) as (A2 & A3).
  cbv zeta in A2, A3.
  assert (E2 : refCountEntries s2 = refCountEntries s1).
  { unfold refCountEntries. now rewrite R2. }
  assert (Hinc : map bp_line forInclusion
                 = filter (fun line => negb (hasLine original line)) lines).
  { unfold forInclusion.
    now rewrite (map_filter_lines (fun line => negb (hasLine original line))), Hlines. }
  assert (Hrem : map bp_line forRemoval
                 = filter (fun line => negb (existsb (N.eqb line) lines))
                          (map bp_line original)).
  { unfold forRemoval.
    rewrite (map_filter_lines
               (fun line => negb (hasLine (breakpointsOf bpPath s1) line))).
    apply filter_ext. intros line. now rewrite hasLine_existsb, Hlines. }
  split; [|split; [|exact A3]].
  - rewrite addBreakpoints_socket, R1, Hsock, Hinc, Hrem.
    unfold bpPath at 1 2. rewrite replaceBackslashes_idem. fold bpPath.
    now rewrite <- app_assoc.
  - rewrite A2, E2, E1, Hinc.
    unfold bpPath at 1. reflexivity.
Qed.

Lemma setBreakpoints_wire_traffic_witness :
  let s1 := snd (setBreakPointsRequest "a/x.nut" [5%N; 9%N] connectedSession) in
  let s2 := snd (setBreakPointsRequest "a/x.nut" [9%N; 12%N] s1) in
  socket s2
  = (socket s1 ++ [removeBreakpointCommand "a/x.nut" 5;
                   addBreakpointCommand "a/x.nut" 12])%list
  /\ refCountEntries s2
     = [("x.nut", 5%N, 1%Z); ("x.nut", 9%N, 1%Z); ("x.nut", 12%N, 1%Z)]
  /\ keysCreated s2.
Proof.
  apply (setBreakpoints_wire_traffic
           "a/x.nut" [9%N; 12%N]
           (snd (setBreakPointsRequest "a/x.nut" [5%N; 9%N] connectedSession))).
  apply (setBreakpoints_wire_traffic "a/x.nut" [5%N; 9%N] connectedSession).
  constructor.
Defined.

Lemma makeBreakpoints_present (p : string) (original : list IBreakpoint)
      (lines : list N) (s : Session) :
  (exists held, mapGet String.eqb p (_breakpoints s) = Some held) ->
  exists held,
    mapGet String.eqb p (_breakpoints (fold_left (makeBreakpoint p original) lines s))
    = Some held.
Proof.
  revert s. induction lines as [|line rest IH]; intros s Hs; [exact Hs|].
  cbn [fold_left]. apply IH. unfold makeBreakpoint. cbv zeta.
  cbn [_breakpoints set_breakpoints]. eexists.
  apply mapGet_mapSet_same. apply String.eqb_refl.
Qed.

(** X10.  Breakpoint locations read back what a set-breakpoints request
    stored, provided the relative script path has no backslash: the
    request stores the breakpoints under the path with backslashes replaced
    by slashes, the locations request looks the path up as it is.  For a
    relative path with a backslash the locations request does not see the
    request's breakpoints: its answer is the one it gave before.  Without a
    source path the answer is the empty list. *)
Theorem breakpointLocations_after_setBreakpoints
        (getRelativeScriptPath : string -> string) (c : ascii) (rest : string)
        (lines : list N) (s : Session) :
  let path := String c rest in
  let relativePath := getRelativeScriptPath path in
  let s' := snd (setBreakPointsRequest relativePath lines s) in
  (replaceBackslashes relativePath = relativePath ->
   breakpointLocationsRequest getRelativeScriptPath (Some path) s' = Some lines)
  /\ (replaceBackslashes relativePath <> relativePath ->
      breakpointLocationsRequest getRelativeScriptPath (Some path) s'
      = breakpointLocationsRequest getRelativeScriptPath (Some path) s)
  /\ breakpointLocationsRequest getRelativeScriptPath None s' = Some []
  /\ breakpointLocationsRequest getRelativeScriptPath (Some EmptyString) s' = Some [].
Proof.
  cbv zeta. set (relativePath := getRelativeScriptPath (String c rest)).
  destruct (setBreakPointsRequest_registry relativePath lines s)
    as (Hr & Hb & _ & Hother).
  cbv zeta in Hr, Hb, Hother.
  split; [|split; [|split; reflexivity]].
  - intros Hsame. rewrite Hsame in Hb, Hr.
    cbn [breakpointLocationsRequest]. fold relativePath.
    assert (Hpresent : exists held,
               mapGet String.eqb relativePath
                      (_breakpoints (snd (setBreakPointsRequest relativePath lines s)))
               = Some held).
    { unfold setBreakPointsRequest. cbv zeta. cbn [snd]. rewrite Hsame.
      match goal with
      | |- context [fold_left (addBreakpointStep ?p) ?l ?st] =>
          destruct (addBreakpoints_registry p l st) as [A1 _]; rewrite A1
      end.
      match goal with
      | |- context [fold_left (removeBreakpointStep ?p) ?l ?st] =>
          destruct (removeBreakpoints_registry p l st) as [R1 _]; rewrite R1
      end.
      apply makeBreakpoints_present. cbn [_breakpoints set_breakpoints].
      eexists. apply mapGet_mapSet_same. apply String.eqb_refl. }
    destruct Hpresent as [held Hheld]. rewrite Hheld.
    unfold breakpointsOf in Hb. rewrite Hheld in Hb. subst held.
    rewrite Hr. f_equal.
    now destruct (newBreakpoints_fields (breakpointsOf relativePath s)
                    (_breakpointID s) lines).
  - intros Hdiff. cbn [breakpointLocationsRequest]. fold relativePath.
    rewrite (Hother relativePath); [reflexivity|]. congruence.
Qed.

Lemma breakpointLocations_after_setBreakpoints_witness :
  breakpointLocationsRequest examplePaths (Some "a/x.nut")
    (snd (setBreakPointsRequest "a/x.nut" [5%N; 9%N] connectedSession))
  = Some [5%N; 9%N]
  /\ breakpointLocationsRequest examplePaths (Some "a\x.nut")
       (snd (setBreakPointsRequest "a\x.nut" [5%N; 9%N] connectedSession))
     = None.
Proof.
  split.
  - apply (breakpointLocations_after_setBreakpoints
             examplePaths "a" "/x.nut" [5%N; 9%N] connectedSession).
    reflexivity.
  - apply (breakpointLocations_after_setBreakpoints
             examplePaths "a" "\x.nut" [5%N; 9%N] connectedSession).
    discriminate.
Defined.

(** ** Breakpoint acknowledgements *)

Lemma onlyVerifies_refl (l : list IBreakpoint) : onlyVerifies l l.
Proof. induction l; constructor; auto. Qed.

Lemma onlyVerifies_trans (a b c : list IBreakpoint) :
  onlyVerifies a b -> onlyVerifies b c -> onlyVerifies a c.
Proof.
  unfold onlyVerifies. intros Hab. revert c.
  induction Hab as [|x y l l' (H1 & H2 & H3) _ IH]; intros c Hbc;
    inversion Hbc as [|? z ? l'' (K1 & K2 & K3) Hrest]; subst; constructor.
  - repeat split; [congruence | congruence | auto].
  - now apply IH.
Qed.

Lemma replaceFirst_onlyVerifies (p : IBreakpoint -> bool) (l : list IBreakpoint)
      (bp : IBreakpoint) :
  find p l = Some bp ->
  onlyVerifies l (replaceFirst p (mkBreakpoint (bp_id bp) (bp_line bp) true) l).
Proof.
  induction l as [|x rest IH]; cbn [find replaceFirst]; [discriminate|].
  destruct (p x).
  - intros [= ->]. constructor; [auto | apply onlyVerifies_refl].
  - intros Hf. constructor; [auto | now apply IH].
Qed.

Lemma mapSet_keys {V : Type} (k : string) (v v' : V) (m : list (string * V)) :
  mapGet String.eqb k m = Some v ->
  map fst (mapSet String.eqb k v' m) = map fst m.
Proof.
  induction m as [|[k0 v0] rest IH]; cbn [mapGet mapSet]; [discriminate|].
  destruct (String.eqb k k0); [reflexivity|].
  intros H. cbn [map fst]. now rewrite IH.
Qed.

Lemma breakpointsOf_other (k other : string) (l : list IBreakpoint) (s : Session) :
  other <> k ->
  breakpointsOf other (set_breakpoints (mapSet String.eqb k l (_breakpoints s)) s)
  = breakpointsOf other s.
Proof.
  intros Hne. unfold breakpointsOf. cbn [_breakpoints set_breakpoints].
  now rewrite mapGet_mapSet_other_string.
Qed.

(** What verifying one path does. *)
Lemma verifyBreakpointAt_effect (key : string) (bpLine : JsNum) (s : Session) :
  let s' := verifyBreakpointAt key bpLine s in
  map fst (_breakpoints s') = map fst (_breakpoints s)
  /\ (forall path, onlyVerifies (breakpointsOf path s) (breakpointsOf path s'))
  /\ socket s' = socket s
  /\ (exists changed,
         events s' = (events s ++ map (BreakpointEvent "changed") changed)%list
         /\ Forall (fun bp => bp_verified bp = true
                              /\ breakpointHasLine bpLine bp = true) changed).
Proof.
  cbv zeta. unfold verifyBreakpointAt. cbv zeta.
  destruct (find (breakpointHasLine bpLine) (breakpointsOf key s)) as [bp|] eqn:Hf.
  - split; [|split; [|split]].
    + unfold breakpointsOf in Hf.
      destruct (mapGet String.eqb key (_breakpoints s)) as [held|] eqn:E;
        [|discriminate].
      cbn [sendEvent _breakpoints set_breakpoints set_events].
      now apply (mapSet_keys key held).
    + intros path. unfold sendEvent.
      match goal with
      | |- onlyVerifies _ (breakpointsOf path (set_events _ ?x)) =>
          change (breakpointsOf path (set_events (events x ++ [BreakpointEvent "changed" (mkBreakpoint (bp_id bp) (bp_line bp) true)])%list x))
            with (breakpointsOf path x)
      end.
      destruct (String.eqb path key) eqn:E.
      * apply String.eqb_eq in E. subst path.
        rewrite breakpointsOf_set. now apply replaceFirst_onlyVerifies.
      * apply String.eqb_neq in E.
        rewrite breakpointsOf_other by exact E. apply onlyVerifies_refl.
    + reflexivity.
    + exists [mkBreakpoint (bp_id bp) (bp_line bp) true]. split; [reflexivity|].
      constructor; [|constructor]. split; [reflexivity|].
      exact (proj2 (find_some _ _ Hf)).
  - split; [reflexivity|]. split; [intros path; apply onlyVerifies_refl|].
    split; [reflexivity|]. exists []. split; [now rewrite app_nil_r | constructor].
Qed.

(** The loop over the paths of the registry that verifies by basename. *)
Lemma verifyByBasename_effect (relativeScriptPath : string) (bpLine : JsNum)
      (keys : list string) (st : Session) :
  let st' := fold_left
               (fun st key =>
                  if String.eqb (basename key) relativeScriptPath
                  then verifyBreakpointAt key bpLine st
                  else st) keys st in
  map fst (_breakpoints st') = map fst (_breakpoints st)
  /\ (forall path, onlyVerifies (breakpointsOf path st) (breakpointsOf path st'))
  /\ socket st' = socket st
  /\ (exists changed,
         events st' = (events st ++ map (BreakpointEvent "changed") changed)%list
         /\ Forall (fun bp => bp_verified bp = true
                              /\ breakpointHasLine bpLine bp = true) changed).
Proof.
  revert st. induction keys as [|k rest IH]; intros st; cbn [fold_left].
  - split; [reflexivity|]. split; [intros path; apply onlyVerifies_refl|].
    split; [reflexivity|]. exists []. split; [now rewrite app_nil_r | constructor].
  - destruct (String.eqb (basename k) relativeScriptPath); [|apply IH].
    destruct (verifyBreakpointAt_effect k bpLine st)
      as (V1 & V2 & V3 & (c1 & V4 & V5)).
    destruct (IH (verifyBreakpointAt k bpLine st))
      as (I1 & I2 & I3 & (c2 & I4 & I5)).
    cbv zeta in *. split; [congruence|]. split; [|split; [congruence|]].
    + intros path. eapply onlyVerifies_trans; [apply V2 | apply I2].
    + exists (c1 ++ c2)%list. split.
      * rewrite I4, V4, map_app, <- app_assoc. reflexivity.
      * apply Forall_app. now split.
Qed.

(** X11.  A breakpoint acknowledgement only verifies: whatever line and
    file the server names, the registry keeps its paths, and every path
    keeps its breakpoints with their ids and lines in order; a verified
    breakpoint stays verified.  Nothing is written to the socket, and every
    event sent is a [changed] event for a verified breakpoint on the
    acknowledged line. *)
Theorem parseBreakpoint_only_verifies (getRelativeScriptPath : string -> string)
        (s : Session) (bpLine : JsNum) (bpFile : string) :
  let s' := parseBreakpoint getRelativeScriptPath s bpLine bpFile in
  map fst (_breakpoints s') = map fst (_breakpoints s)
  /\ (forall path, onlyVerifies (breakpointsOf path s) (breakpointsOf path s'))
  /\ socket s' = socket s
  /\ (exists changed,
         events s' = (events s ++ map (BreakpointEvent "changed") changed)%list
         /\ Forall (fun bp => bp_verified bp = true
                              /\ breakpointHasLine bpLine bp = true) changed).
Proof.
  cbv zeta. unfold parseBreakpoint. cbv zeta.
  destruct (mapGet String.eqb (getRelativeScriptPath bpFile) (_breakpoints s));
    [apply verifyBreakpointAt_effect | apply verifyByBasename_effect].
Qed.

Lemma breakpointHasLine_N (line : N) (b : IBreakpoint) :
  breakpointHasLine (JInt (Z.of_N line)) b = N.eqb (bp_line b) line.
Proof.
  unfold breakpointHasLine. cbn [strict_eqb].
  destruct (N.eqb (bp_line b) line) eqn:E.
  - apply N.eqb_eq in E. rewrite E. apply Z.eqb_refl.
  - apply N.eqb_neq in E. apply Z.eqb_neq. lia.
Qed.

Lemma onlyVerifies_find (p : IBreakpoint -> bool) (old new : list IBreakpoint)
      (b : IBreakpoint) :
  (forall x y, bp_line x = bp_line y -> p x = p y) ->
  onlyVerifies old new ->
  find p old = Some b ->
  exists b', find p new = Some b'
             /\ bp_id b' = bp_id b /\ bp_line b' = bp_line b
             /\ (bp_verified b = true -> bp_verified b' = true).
Proof.
  intros Hp Hov. induction Hov as [|x y l l' (H1 & H2 & H3) _ IH];
    cbn [find]; [discriminate|].
  rewrite (Hp y x H2). destruct (p x).
  - intros [= <-]. exists y. auto.
  - exact IH.
Qed.

Lemma find_replaceFirst (p : IBreakpoint -> bool) (l : list IBreakpoint)
      (b b' : IBreakpoint) :
  find p l = Some b -> p b' = true -> find p (replaceFirst p b' l) = Some b'.
Proof.
  induction l as [|x rest IH]; cbn [find replaceFirst]; [discriminate|].
  destruct (p x) eqn:E.
  - intros _ Hb'. cbn [find]. now rewrite Hb'.
  - intros Hf Hb'. cbn [find]. rewrite E. now apply IH.
Qed.

(** Verifying one path leaves the first breakpoint on the line verified
    and announces it. *)
Lemma verifyBreakpointAt_hit (key : string) (line : N) (s : Session)
      (bp : IBreakpoint) :
  find (fun b => N.eqb (bp_line b) line) (breakpointsOf key s) = Some bp ->
  let s' := verifyBreakpointAt key (JInt (Z.of_N line)) s in
  let bp' := mkBreakpoint (bp_id bp) line true in
  find (fun b => N.eqb (bp_line b) line) (breakpointsOf key s') = Some bp'
  /\ events s' = (events s ++ [BreakpointEvent "changed" bp'])%list.
Proof.
  intros Hf. cbv zeta. unfold verifyBreakpointAt. cbv zeta.
  assert (Hline : bp_line bp = line).
  { apply N.eqb_eq. exact (proj2 (find_some _ _ Hf)). }
  assert (Hext : find (breakpointHasLine (JInt (Z.of_N line))) (breakpointsOf key s)
                 = Some bp).
  { rewrite <- Hf. clear Hf. induction (breakpointsOf key s) as [|x rest IH];
      [reflexivity|]. cbn [find]. now rewrite breakpointHasLine_N, IH. }
  rewrite Hext, Hline. split; [|reflexivity].
  unfold sendEvent.
  match goal with
  | |- find _ (breakpointsOf key (set_events ?e ?x)) = _ =>
      change (breakpointsOf key (set_events e x)) with (breakpointsOf key x)
  end.
  rewrite breakpointsOf_set.
  assert (Hrep : forall l,
             replaceFirst (breakpointHasLine (JInt (Z.of_N line)))
                          (mkBreakpoint (bp_id bp) line true) l
             = replaceFirst (fun b => N.eqb (bp_line b) line)
                            (mkBreakpoint (bp_id bp) line true) l).
  { induction l as [|x rest IH]; [reflexivity|].
    cbn [replaceFirst]. now rewrite breakpointHasLine_N, IH. }
  rewrite Hrep. apply (find_replaceFirst _ _ bp); [exact Hf|].
  cbn [bp_line]. apply N.eqb_refl.
Qed.

(** The basename loop reaches every listed path with that basename. *)
Lemma verifyByBasename_hit (relativeScriptPath : string) (line : N)
      (keys : list string) (st : Session) (key : string) (bp : IBreakpoint) :
  In key keys ->
  basename key = relativeScriptPath ->
  find (fun b => N.eqb (bp_line b) line) (breakpointsOf key st) = Some bp ->
  let st' := fold_left
               (fun st key =>
                  if String.eqb (basename key) relativeScriptPath
                  then verifyBreakpointAt key (JInt (Z.of_N line)) st
                  else st) keys st in
  let bp' := mkBreakpoint (bp_id bp) line true in
  find (fun b => N.eqb (bp_line b) line) (breakpointsOf key st') = Some bp'
  /\ In (BreakpointEvent "changed" bp') (events st').
Proof.
  intros Hin Hbase. revert st bp.
  induction keys as [|k rest IH]; intros st bp Hf; [destruct Hin|].
  cbn [fold_left]. cbv zeta.
  assert (Hp : forall x y : IBreakpoint,
             bp_line x = bp_line y ->
             N.eqb (bp_line x) line = N.eqb (bp_line y) line).
  { intros x y E. now rewrite E. }
  destruct (String.eqb key k) eqn:Ek.
  - apply String.eqb_eq in Ek. subst k.
    rewrite Hbase, String.eqb_refl.
    destruct (verifyBreakpointAt_hit key line st bp Hf) as [Hf1 He1].
    cbv zeta in Hf1, He1.
    destruct (verifyByBasename_effect relativeScriptPath (JInt (Z.of_N line)) rest
                (verifyBreakpointAt key (JInt (Z.of_N line)) st))
      as (_ & Hov & _ & (changed & Hev & _)).
    cbv zeta in Hov, Hev.
    destruct (onlyVerifies_find _ _ _ _ Hp (Hov key) Hf1) as (b' & Hb' & Hid & Hl & Hv).
    cbn [bp_id bp_line bp_verified] in Hid, Hl, Hv.
    assert (Eb : b' = mkBreakpoint (bp_id bp) line true).
    { destruct b' as [i l v]. cbn in Hid, Hl, Hv. now rewrite Hid, Hl, Hv. }
    rewrite <- Eb. split; [exact Hb'|].
    rewrite Hev, He1, Eb. apply in_or_app. left. apply in_or_app. right. now left.
  - destruct Hin as [Heq|Hin]; [subst k; rewrite String.eqb_refl in Ek; discriminate|].
    destruct (String.eqb (basename k) relativeScriptPath); [|now apply IH].
    destruct (verifyBreakpointAt_effect k (JInt (Z.of_N line)) st) as (_ & Hov & _).
    cbv zeta in Hov.
    destruct (onlyVerifies_find _ _ _ _ Hp (Hov key) Hf) as (b' & Hb' & Hid & _).
    destruct (IH Hin (verifyBreakpointAt k (JInt (Z.of_N line)) st) b' Hb')
      as [H1 H2].
    cbv zeta in H1, H2. rewrite Hid in H1, H2. now split.
Qed.

(** X12.  An acknowledgement for a line verifies the breakpoint on it.
    When the registry has the acknowledged file as a path, the first
    breakpoint that path holds on the line is verified afterwards and a
    [changed] event carries it.  When it does not, the same holds for
    every path of the registry whose basename is the acknowledged file
    name: all files of that name are taken to be verified. *)
Theorem parseBreakpoint_verifies_acknowledged_line
        (getRelativeScriptPath : string -> string) (s : Session) (line : N)
        (bpFile key : string) (bp : IBreakpoint) :
  key = getRelativeScriptPath bpFile
  \/ (mapGet String.eqb (getRelativeScriptPath bpFile) (_breakpoints s) = None
      /\ In key (map fst (_breakpoints s))
      /\ basename key = getRelativeScriptPath bpFile) ->
  find (fun b => N.eqb (bp_line b) line) (breakpointsOf key s) = Some bp ->
  let s' := parseBreakpoint getRelativeScriptPath s (JInt (Z.of_N line)) bpFile in
  let bp' := mkBreakpoint (bp_id bp) line true in
  find (fun b => N.eqb (bp_line b) line) (breakpointsOf key s') = Some bp'
  /\ In (BreakpointEvent "changed" bp') (events s').
Proof.
  intros Hkey Hf. cbv zeta. unfold parseBreakpoint. cbv zeta.
  destruct (mapGet String.eqb (getRelativeScriptPath bpFile) (_breakpoints s))
    as [held|] eqn:E.
  - destruct Hkey as [->|(Hnone & _)]; [|discriminate].
    destruct (verifyBreakpointAt_hit _ line s bp Hf) as [H1 H2].
    cbv zeta in H1, H2. split; [exact H1|].
    rewrite H2. apply in_or_app. right. now left.
  - destruct Hkey as [->|(_ & Hin & Hbase)].
    + unfold breakpointsOf in Hf. rewrite E in Hf. discriminate.
    + now apply verifyByBasename_hit.
Qed.

Lemma parseBreakpoint_verifies_acknowledged_line_witness :
  let s1 := snd (setBreakPointsRequest "a/x.nut" [5%N; 9%N] connectedSession) in
  let s2 := snd (setBreakPointsRequest "b/x.nut" [5%N] s1) in
  let s' := parseBreakpoint examplePaths s2 (JInt 5) "x.nut" in
  (find (fun b => N.eqb (bp_line b) 5) (breakpointsOf "a/x.nut" s')
   = Some (mkBreakpoint 0 5 true)
   /\ In (BreakpointEvent "changed" (mkBreakpoint 0 5 true)) (events s'))
  /\ (find (fun b => N.eqb (bp_line b) 5) (breakpointsOf "b/x.nut" s')
      = Some (mkBreakpoint 2 5 true)
      /\ In (BreakpointEvent "changed" (mkBreakpoint 2 5 true)) (events s')).
Proof.
  split.
  - apply (parseBreakpoint_verifies_acknowledged_line
             examplePaths
             (snd (setBreakPointsRequest "b/x.nut" [5%N]
                     (snd (setBreakPointsRequest "a/x.nut" [5%N; 9%N]
                                                 connectedSession))))
             5 "x.nut" "a/x.nut" (mkBreakpoint 0 5 true)).
    + right. split; [reflexivity|]. split; [simpl; auto | reflexivity].
    + reflexivity.
  - apply (parseBreakpoint_verifies_acknowledged_line
             examplePaths
             (snd (setBreakPointsRequest "b/x.nut" [5%N]
                     (snd (setBreakPointsRequest "a/x.nut" [5%N; 9%N]
                                                 connectedSession))))
             5 "x.nut" "b/x.nut" (mkBreakpoint 2 5 true)).
    + right. split; [reflexivity|]. split; [simpl; auto | reflexivity].
    + reflexivity.
Defined.

(** ** Deliveries, conversions and the tree builder *)




(** X14.  The tree builder raises exactly for a missing object.  When no
    object of the list has the reference asked for, the call raises and
    leaves the visited list as it was.  In a list closed under the
    references of its elements, a call for a reference that an object of
    the list has returns: a node, or nothing for an object without elements
    or one visited before. *)
Theorem buildReferenceTree_raises_for_missing_object (refs : list Obj) (sr : JsNum)
        (name type : string) (depth : nat) (searched : list JsNum) :
  (isReferenced refs sr = false ->
   buildReferenceTree refs sr name type depth searched = BuildThrown searched)
  /\ (closedList refs -> isReferenced refs sr = true ->
      exists node searched',
        buildReferenceTree refs sr name type depth searched = Built node searched').
Proof.
  split.
  - unfold isReferenced, referenced, buildReferenceTree. cbn [buildReferenceTree_fuel].
    destruct (find (fun e => String.eqb (o_ref e) (String_ sr)) refs);
      [discriminate | reflexivity].
  - intros Hclosed Hr.
    pose proof (buildReferenceTree_terminates refs sr name type depth searched) as Hfuel.
    pose proof (buildReferenceTree_fuel_closed refs (S (List.length refs)) Hclosed
                  sr name type depth searched Hr) as Hn.
    fold (buildReferenceTree refs sr name type depth searched) in Hn.
    destruct (buildReferenceTree refs sr name type depth searched) as [node sr'|sr'|];
      [now eexists; eexists | contradiction | discriminate].
Qed.

Lemma cyclicGraph_closed : closedList cyclicGraph.
Proof.
  intros o e Ho He Hc. simpl in Ho.
  destruct Ho as [<-|[<-|[]]]; simpl in He;
    repeat (destruct He as [<-|He]; [try discriminate Hc; reflexivity|]);
    destruct He.
Qed.

Lemma buildReferenceTree_raises_for_missing_object_witness :
  buildReferenceTree cyclicGraph (JInt 3) "gone" "t" 0 [] = BuildThrown []
  /\ exists node searched',
      buildReferenceTree cyclicGraph (JInt 1) "root" "t" 0 [] = Built node searched'.
Proof.
  destruct (buildReferenceTree_raises_for_missing_object cyclicGraph (JInt 3)
              "gone" "t" 0 []) as [A _].
  destruct (buildReferenceTree_raises_for_missing_object cyclicGraph (JInt 1)
              "root" "t" 0 []) as [_ B].
  exact (conj (A eq_refl) (B cyclicGraph_closed eq_refl)).
Defined.


